(** * Quality-report aggregation server: a shallow embedding of [server.py]

    The development follows the Python source tool by tool.  Python values
    are embedded as they are used by the program: unbounded integers as [Z],
    text as [string], [None]-able results as [option], dictionaries as finite
    maps, raised exceptions as the [Raise] branch of an outcome monad and
    floats as IEEE-754 binary64 numbers ([spec_float] at precision 53).

    Text is embedded as [string].  The character classes used by
    [str.lower], [str.strip], [int] and [re] are modelled on ASCII text,
    where they are what the Unicode classes of Python restrict to; a
    statement that depends on the classes of other characters carries the
    hypothesis [is_ascii] on the text concerned. *)

From Stdlib Require Import ZArith String Ascii List Bool Lia DecimalString.
From Stdlib Require Import Floats.SpecFloat.
From stdpp Require Import base option list gmap strings fin_maps sorting.

Open Scope Z_scope.
Open Scope string_scope.

(** ** Python runtime fragments *)

Module Py.

(** Exceptions carry their class and the text [str(e)] renders.  A
    subclass the program does not tell from its parent is filed under the
    parent: [IsADirectoryError] and [PermissionError] under [OSError]. *)
Inductive exn_class :=
| ValueError | AttributeError | OverflowError | ZeroDivisionError
| XmlParseError | OSError | LookupError.

Record exn := Exn { exn_kind : exn_class; exn_msg : string }.

Inductive outcome (A : Type) :=
| Return (a : A)
| Raise (e : exn).
Arguments Return {A} a.
Arguments Raise {A} e.

#[global] Instance outcome_ret : MRet outcome := fun A a => Return a.
#[global] Instance outcome_bind : MBind outcome := fun A B f m =>
  match m with
  | Return a => f a
  | Raise e => Raise e
  end.

Definition raises {A} (m : outcome A) : Prop :=
  match m with Raise _ => True | Return _ => False end.

(** *** Characters and strings *)

Definition nat_between (lo hi : nat) (c : ascii) : bool :=
  (Nat.leb lo (nat_of_ascii c) && Nat.leb (nat_of_ascii c) hi)%bool.

(** [s.isascii()] *)
Fixpoint is_ascii (s : string) : bool :=
  match s with
  | EmptyString => true
  | String c s' => (Nat.ltb (nat_of_ascii c) 128 && is_ascii s')%bool
  end.

Definition is_digit (c : ascii) : bool := nat_between 48 57 c.
Definition is_upper (c : ascii) : bool := nat_between 65 90 c.
Definition is_lower (c : ascii) : bool := nat_between 97 122 c.

(** [\w] of the [re] module, on ASCII text. *)
Definition is_word (c : ascii) : bool :=
  (is_digit c || is_upper c || is_lower c || Ascii.eqb c "_")%bool.

(** [str.isspace] on a single ASCII character; these are the characters
    [str.strip] removes. *)
Definition is_space (c : ascii) : bool :=
  (nat_between 9 13 c || nat_between 28 32 c)%bool.

Definition lower_char (c : ascii) : ascii :=
  if is_upper c then ascii_of_nat (nat_of_ascii c + 32) else c.

(** [s.lower()] *)
Fixpoint lower (s : string) : string :=
  match s with
  | EmptyString => EmptyString
  | String c s' => String (lower_char c) (lower s')
  end.

(** [needle in s] *)
Fixpoint contains (needle s : string) : bool :=
  match s with
  | EmptyString => String.prefix needle EmptyString
  | String _ s' => (String.prefix needle s || contains needle s')%bool
  end.

Fixpoint lstrip (s : string) : string :=
  match s with
  | String c s' => if is_space c then lstrip s' else s
  | EmptyString => EmptyString
  end.

Fixpoint rstrip (s : string) : string :=
  match s with
  | EmptyString => EmptyString
  | String c s' =>
      match rstrip s' with
      | EmptyString => if is_space c then EmptyString else String c EmptyString
      | r => String c r
      end
  end.

(** [s.strip()] *)
Definition strip (s : string) : string := lstrip (rstrip s).

(** [s * n] *)
Fixpoint repeat_str (s : string) (n : nat) : string :=
  match n with
  | O => EmptyString
  | S n' => s ++ repeat_str s n'
  end.

(** [str(n)] for an integer of at most 4300 digits, the length up to which
    the conversion is allowed. *)
Definition str_of_int (n : Z) : string := NilZero.string_of_int (Z.to_int n).

(** *** [int(text)] in base ten

    White space around the literal is skipped; for [int] on ASCII text this
    is the white space of C, tab to carriage return and the blank.  The
    literal is an optional sign followed by decimal digits, where single
    underscores may separate digits.  A literal of more than 4300 digits is
    refused, and so is any other text: both raise [ValueError]. *)

Definition is_c_space (c : ascii) : bool :=
  (nat_between 9 13 c || Ascii.eqb c " ")%bool.

Fixpoint skip_spaces (s : string) : string :=
  match s with
  | String c s' => if is_c_space c then skip_spaces s' else s
  | EmptyString => EmptyString
  end.

Definition digit_val (c : ascii) : Z := Z.of_nat (nat_of_ascii c) - 48.

(** What the scan of the literal has just read. *)
Inductive scanned := Nothing | Digit | Underscore.

(** [scan_digits acc count prev s]: the scan over the digits and
    underscores at the head of [s], after a prefix of value [acc] holding
    [count] digits.  It yields the value, the number of digits and the text
    left over, and nothing when an underscore stands first, last or next to
    another one. *)
Fixpoint scan_digits (acc : Z) (count : nat) (prev : scanned) (s : string)
  : option (Z * nat * string) :=
  match s with
  | String c s' =>
      if is_digit c then
        scan_digits (10 * acc + digit_val c) (S count) Digit s'
      else if Ascii.eqb c "_" then
        match prev with
        | Digit => scan_digits acc count Underscore s'
        | _ => None
        end
      else
        match prev with
        | Underscore => None
        | _ => Some (acc, count, s)
        end
  | EmptyString =>
      match prev with
      | Underscore => None
      | _ => Some (acc, count, s)
      end
  end.

(** The text quoted is the argument as it stands, which is how [repr] shows
    a short text of printable characters without quotes or backslashes. *)
Definition invalid_literal (s : string) : exn :=
  Exn ValueError ("invalid literal for int() with base 10: '" ++ s ++ "'").

(** [sys.int_info.default_max_str_digits] *)
Definition default_max_str_digits : nat := 4300.

Definition exceeds_limit (digits : nat) : exn :=
  Exn ValueError
      ("Exceeds the limit (4300 digits) for integer string conversion: "
       ++ "value has " ++ str_of_int (Z.of_nat digits)
       ++ " digits; use sys.set_int_max_str_digits() to increase the limit").

(** The sign of the literal and the text after it. *)
Definition split_sign (s : string) : bool * string :=
  match s with
  | String "-" s' => (true, s')
  | String "+" s' => (false, s')
  | _ => (false, s)
  end.

Definition int_of_str (s : string) : outcome Z :=
  let '(negative, literal) := split_sign (skip_spaces s) in
  match scan_digits 0 0 Nothing literal with
  | None => Raise (invalid_literal s)
  | Some (n, digits, rest) =>
      if Nat.ltb default_max_str_digits digits then Raise (exceeds_limit digits)
      else if Nat.eqb digits 0 then Raise (invalid_literal s)
      else
        match skip_spaces rest with
        | EmptyString => Return (if negative then - n else n)
        | _ => Raise (invalid_literal s)
        end
  end.

(** *** Values of mixed lists *)

Inductive value :=
| VNone
| VBool (b : bool)
| VInt (n : Z)
| VStr (s : string).

Definition Z_of_bool (b : bool) : Z := if b then 1 else 0.

(** [x == y], which is also the equality dictionaries apply to keys:
    a boolean equals the integer it stands for. *)
Definition value_eqb (x y : value) : bool :=
  match x, y with
  | VNone, VNone => true
  | VBool a, VBool b => Bool.eqb a b
  | VInt a, VInt b => Z.eqb a b
  | VBool a, VInt b => Z.eqb (Z_of_bool a) b
  | VInt a, VBool b => Z.eqb a (Z_of_bool b)
  | VStr a, VStr b => String.eqb a b
  | _, _ => false
  end.

(** *** Insertion-ordered dictionaries

    A [dict] keeps its keys in insertion order; assigning to a key that is
    already present keeps the stored key and its position. *)
Definition dict := list (value * value).

Fixpoint dict_setitem (d : dict) (k v : value) : dict :=
  match d with
  | [] => [(k, v)]
  | (k', v') :: d' =>
      if value_eqb k' k then (k', v) :: d' else (k', v') :: dict_setitem d' k v
  end.

(** [dict.fromkeys(keys)] *)
Definition dict_fromkeys (keys : list value) : dict :=
  fold_left (fun d k => dict_setitem d k VNone) keys [].

(** [list(d)] *)
Definition dict_keys (d : dict) : list value := map fst d.

(** *** [re.findall(r'\b\d+\b', text)] *)

(** [\b] between two neighbouring positions, each given by whether a word
    character stands there (none at either end of the text). *)
Definition word_boundary (before after : bool) : bool := xorb before after.

Definition head_is_word (s : string) : bool :=
  match s with
  | EmptyString => false
  | String c _ => is_word c
  end.

(** [\d+\b] anchored at the head of [s]: the digit run is taken as long as
    possible and given back one digit at a time until [\b] holds. *)
Fixpoint match_digits (s : string) : option (string * string) :=
  match s with
  | EmptyString => None
  | String c s' =>
      if is_digit c then
        match match_digits s' with
        | Some (tok, rest) => Some (String c tok, rest)
        | None =>
            if word_boundary (is_word c) (head_is_word s')
            then Some (String c EmptyString, s')
            else None
        end
      else None
  end.

(** The scan of [findall]: try the pattern at the current position, resume
    after a match, otherwise advance by one character. *)
Fixpoint findall_scan (fuel : nat) (before : bool) (s : string) : list string :=
  match fuel with
  | O => []
  | S fuel' =>
      match s with
      | EmptyString => []
      | String c s' =>
          if word_boundary before (is_word c) then
            match match_digits s with
            | Some (tok, rest) => tok :: findall_scan fuel' true rest
            | None => findall_scan fuel' (is_word c) s'
            end
          else findall_scan fuel' (is_word c) s'
      end
  end.

Definition findall_numbers (s : string) : list string :=
  findall_scan (String.length s) false s.

End Py.

Import Py.

(** ** ElementTree fragments *)

Module ET.

(** An element: tag, attribute dictionary, leading text and children in
    document order. *)
#[local] Unset Elimination Schemes.
Inductive Element :=
| mkElement (tag : string) (attrib : gmap string string)
            (text : option string) (children : list Element).
#[local] Set Elimination Schemes.

Definition tag (e : Element) : string :=
  match e with mkElement t _ _ _ => t end.
Definition attrib (e : Element) : gmap string string :=
  match e with mkElement _ a _ _ => a end.
Definition text (e : Element) : option string :=
  match e with mkElement _ _ x _ => x end.
Definition children (e : Element) : list Element :=
  match e with mkElement _ _ _ c => c end.

(** [e.get(key)] *)
Definition get (e : Element) (key : string) : option string :=
  attrib e !! key.

Definition has_tag (t : string) (e : Element) : bool := String.eqb (tag e) t.

(** [e.findall(path)] for a path of child tags separated by slashes, the
    path being given as the list of its steps. *)
Fixpoint findall (path : list string) (e : Element) : list Element :=
  match path with
  | [] => [e]
  | t :: path' =>
      flat_map (findall path') (List.filter (has_tag t) (children e))
  end.

(** What [ET.parse(path).getroot()] does at a path that exists: it raises
    [ParseError] on text that is not well-formed XML, returns the root of
    the document, or raises another exception [e] (the path is a directory
    or may not be read, the encoding declared is unknown or not
    supported). *)
Inductive parsed :=
| Malformed
| Root (root : Element)
| Unreadable (e : exn).

Definition is_parse_error (e : exn) : bool :=
  match exn_kind e with XmlParseError => true | _ => false end.

End ET.

Import ET.

(** ** [run_pmd_analysis] *)

Module Pmd.

Record Violation := {
  v_file : option string;
  v_line : option string;
  v_rule : option string;
  v_priority : option string;
  v_description : string
}.

(** The dictionaries the tool returns. *)
Inductive result :=
| Error (error : string)
| Status (status : string)
| Found (status : string) (violations_summary : list Violation).

(** What the call observes of its surroundings: how the Maven subprocess
    call ends, and the report under [target/pmd.xml] if there is one. *)
Record world := {
  mvn : outcome unit;
  pmd_xml : option parsed
}.

(** [violation.text.strip()] *)
Definition text_strip (e : Element) : outcome string :=
  match text e with
  | Some t => Return (strip t)
  | None =>
      Raise (Exn AttributeError
               "'NoneType' object has no attribute 'strip'")
  end.

Definition violation_of (file_name : option string) (violation : Element)
  : outcome Violation :=
  description ← text_strip violation;
  mret {| v_file := file_name;
          v_line := get violation "beginline";
          v_rule := get violation "rule";
          v_priority := get violation "priority";
          v_description := description |}.

(** The two nested loops that fill [violations]. *)
Fixpoint collect (files : list Element) (violations : list Violation)
  : outcome (list Violation) :=
  match files with
  | [] => mret violations
  | file_elem :: files' =>
      vs ← mapM (violation_of (get file_elem "name"))
                (findall ["violation"] file_elem);
      collect files' (violations ++ vs)%list
  end.

Definition found_status (n : nat) : string :=
  "PMD analysis found " ++ str_of_int (Z.of_nat n) ++ " total violations.".

(** The body of the [try] block. *)
Definition body (w : world) : outcome result :=
  _ ← mvn w;
  match pmd_xml w with
  | None => mret (Error "PMD ran but the pmd.xml report was not found.")
  | Some Malformed => Raise (Exn XmlParseError "syntax error")
  | Some (Unreadable e) => Raise e
  | Some (Root root) =>
      violations ← collect (findall ["file"] root) [];
      match violations with
      | [] => mret (Status "PMD analysis passed. No violations found.")
      | _ => mret (Found (found_status (length violations))
                         (take 20 violations))
      end
  end.

Definition run_pmd_analysis (w : world) : result :=
  match body w with
  | Return r => r
  | Raise (Exn XmlParseError _) => Error "Failed to parse pmd.xml report."
  | Raise e => Error ("An unexpected error occurred: " ++ exn_msg e)
  end.

(** All violation elements of a report, in document order. *)
Definition violation_elements (root : Element) : list Element :=
  findall ["file"; "violation"] root.

End Pmd.

(** ** [generate_bva_test_cases] *)

Module Bva.

Definition JAVA_INT_MAX : Z := 2147483647.
Definition JAVA_INT_MIN : Z := -2147483648.

(** The fixed answer for a text parameter of a parsing function. *)
Definition parse_cases : list value :=
  [ VNone; VStr ""; VStr " ";
    VStr "0"; VStr "1"; VStr "-1";
    VStr (str_of_int JAVA_INT_MAX); VStr (str_of_int JAVA_INT_MIN);
    VStr (str_of_int (JAVA_INT_MAX + 1)); VStr (str_of_int (JAVA_INT_MIN - 1));
    VStr "abc" ].

Definition int_cases : list value :=
  [VInt 0; VInt 1; VInt (-1); VInt JAVA_INT_MAX; VInt JAVA_INT_MIN].

Definition string_cases : list value :=
  [VNone; VStr ""; VStr " "; VStr (repeat_str "a" 1000)].

(** [values.extend([num - 1, num, num + 1])] for each number in turn. *)
Definition extend_around (values : list value) (numbers : list Z) : list value :=
  fold_left (fun vs num => vs ++ [VInt (num - 1); VInt num; VInt (num + 1)])%list
            numbers values.

(** The tail of the function, from the constraint parsing on. *)
Definition with_constraints (values : list value) (constraints : string)
  : outcome (list value) :=
  let constraints := lower constraints in
  numbers ← mapM int_of_str (findall_numbers constraints);
  mret (dict_keys (dict_fromkeys (extend_around values numbers))).

Definition generate_bva_test_cases
    (param_name param_type function_name constraints : string)
  : outcome (list value) :=
  let values : list value := [] in
  if contains "default" (lower param_name) then
    mret [VInt 0; VInt 1; VInt (-1)]
  else if (String.eqb param_type "String"
           && (contains "toint" (lower function_name)
               || contains "parse" (lower function_name)))%bool then
    mret parse_cases
  else if (String.eqb param_type "int" || String.eqb param_type "long")%bool then
    with_constraints (values ++ int_cases)%list constraints
  else if String.eqb param_type "String" then
    with_constraints (values ++ string_cases)%list constraints
  else if String.eqb param_type "boolean" then
    mret [VBool true; VBool false]
  else
    with_constraints values constraints.

(** The working set each parameter type starts from. *)
Definition base_cases (param_type : string) : list value :=
  if (String.eqb param_type "int" || String.eqb param_type "long")%bool
  then int_cases
  else if String.eqb param_type "String" then string_cases
  else [].

(** Keeping the first occurrence of every value, as the specification
    words it: an element stays iff no equal element stands before it. *)
Fixpoint first_occurrences (seen l : list value) : list value :=
  match l with
  | [] => []
  | x :: l' =>
      if existsb (fun y => value_eqb y x) seen
      then first_occurrences seen l'
      else x :: first_occurrences (seen ++ [x])%list l'
  end.

End Bva.

(** ** Python floats *)

Module PyFloat.

Definition prec : Z := 53.
Definition emax : Z := 1024.

Definition float := spec_float.

Definition zero : float := S754_zero false.

(** [float(n)] for an integer of at most 53 bits, such as [100]. *)
Definition of_small_int (n : Z) : float := binary_normalize prec emax n 0 false.

Definition hundred : float := Eval cbv in of_small_int 100.

Definition is_infinite (x : float) : bool :=
  match x with S754_infinity _ => true | _ => false end.

(** [a / b] on integers: the exact quotient rounded once to the nearest
    float.  The operands enter the division with exponent zero, however
    long they are. *)
Definition int_operand (n : Z) : float :=
  match n with
  | 0 => zero
  | Z.pos p => S754_finite false p 0
  | Z.neg p => S754_finite true p 0
  end.

Definition int_truediv (a b : Z) : outcome float :=
  if (b =? 0)%Z then Raise (Exn ZeroDivisionError "division by zero")
  else
    let q :=
      match a with
      | 0 => S754_zero (b <? 0)%Z
      | _ => SFdiv prec emax (int_operand a) (int_operand b)
      end in
    if is_infinite q
    then Raise (Exn OverflowError "integer division result too large for a float")
    else Return q.

(** [x * y] on floats. *)
Definition mul (x y : float) : float := SFmul prec emax x y.

(** The integer nearest to [m * 2^e], ties going to the even one. *)
Definition nearest_even_scaled (m e : Z) : Z :=
  if (0 <=? e)%Z then m * 2 ^ e
  else
    let d := 2 ^ (- e) in
    let q := m / d in
    let r := m mod d in
    match (2 * r ?= d)%Z with
    | Lt => q
    | Eq => if Z.even q then q else q + 1
    | Gt => q + 1
    end.

(** [round(x, 2)]: the decimal with two fractional digits nearest to the
    exact value of [x] (ties to even), converted back to the nearest
    float. *)
Definition round2 (x : float) : outcome float :=
  match x with
  | S754_finite s m e =>
      let n := nearest_even_scaled (100 * Z.pos m) e in
      let r :=
        match n with
        | Z.pos p => SFdiv prec emax (S754_finite s p 0) (S754_finite false 100 0)
        | _ => S754_zero s
        end in
      if is_infinite r
      then Raise (Exn OverflowError "rounded value too large to represent")
      else Return r
  | _ => Return x
  end.

(** [lo <= x <= hi] for the exact value of a finite float and integer
    bounds; infinities and NaN are in no range. *)
Definition signed_mantissa (s : bool) (m : positive) : Z :=
  if s then Z.neg m else Z.pos m.

Definition in_range (lo hi : Z) (x : float) : Prop :=
  match x with
  | S754_zero _ => lo <= 0 <= hi
  | S754_finite s m e =>
      lo * 2 ^ Z.max 0 (- e) <= signed_mantissa s m * 2 ^ Z.max 0 e
        <= hi * 2 ^ Z.max 0 (- e)
  | _ => False
  end.

End PyFloat.

(** ** [get_quality_dashboard] *)

Module Dashboard.

Import PyFloat.

Record TestRunSummary := {
  total_tests : Z;
  passed : Z;
  failures : Z;
  errors : Z;
  skipped : Z
}.

Record CoverageSummary := {
  line_coverage_percent : float;
  branch_coverage_percent : float;
  method_coverage_percent : float
}.

Record dashboard := {
  test_run_summary : TestRunSummary;
  code_coverage_summary : CoverageSummary
}.

(** What the call observes: the parse of every [TEST-*.xml] file of the
    Surefire directory in the order [glob] lists them ([None] when the
    directory does not exist), and the JaCoCo report if there is one. *)
Record world := {
  surefire_reports : option (list parsed);
  jacoco_xml : option parsed
}.

(** [int(e.get(key, 0))] *)
Definition int_attr (e : Element) (key : string) : outcome Z :=
  match get e key with
  | Some s => int_of_str s
  | None => Return 0
  end.

(** The four running totals. *)
Record totals := {
  t_tests : Z;
  t_failures : Z;
  t_errors : Z;
  t_skipped : Z
}.

Definition no_totals : totals :=
  {| t_tests := 0; t_failures := 0; t_errors := 0; t_skipped := 0 |}.

(** One turn of the loop over the report files; a file whose parse raises
    [ParseError] is passed over, another exception leaves the function. *)
Definition add_report (acc : totals) (report_file : parsed) : outcome totals :=
  match report_file with
  | Malformed => mret acc
  | Unreadable e => if is_parse_error e then mret acc else Raise e
  | Root root =>
      tests ← int_attr root "tests";
      failures ← int_attr root "failures";
      errors ← int_attr root "errors";
      skipped ← int_attr root "skipped";
      mret {| t_tests := t_tests acc + tests;
              t_failures := t_failures acc + failures;
              t_errors := t_errors acc + errors;
              t_skipped := t_skipped acc + skipped |}
  end.

Fixpoint add_reports (acc : totals) (report_files : list parsed) : outcome totals :=
  match report_files with
  | [] => mret acc
  | f :: fs => acc' ← add_report acc f; add_reports acc' fs
  end.

Definition surefire_totals (w : world) : outcome totals :=
  match surefire_reports w with
  | Some report_files => add_reports no_totals report_files
  | None => mret no_totals
  end.

(** [(covered / total) * 100 if total > 0 else 100.0] *)
Definition percentage (missed covered : Z) : outcome float :=
  let total := missed + covered in
  if (0 <? total)%Z then
    q ← int_truediv covered total;
    mret (mul q hundred)
  else mret hundred.

Definition no_coverage : CoverageSummary :=
  {| line_coverage_percent := zero;
     branch_coverage_percent := zero;
     method_coverage_percent := zero |}.

(** [counter_type == name], where [counter_type] may be [None]. *)
Definition type_is (counter_type : option string) (name : string) : bool :=
  match counter_type with
  | Some t => String.eqb t name
  | None => false
  end.

(** One turn of the loop over the top-level counters. *)
Definition add_counter (cov : CoverageSummary) (counter : Element)
  : outcome CoverageSummary :=
  let counter_type := get counter "type" in
  missed ← int_attr counter "missed";
  covered ← int_attr counter "covered";
  pct ← percentage missed covered;
  if type_is counter_type "LINE" then
    r ← round2 pct;
    mret {| line_coverage_percent := r;
            branch_coverage_percent := branch_coverage_percent cov;
            method_coverage_percent := method_coverage_percent cov |}
  else if type_is counter_type "BRANCH" then
    r ← round2 pct;
    mret {| line_coverage_percent := line_coverage_percent cov;
            branch_coverage_percent := r;
            method_coverage_percent := method_coverage_percent cov |}
  else if type_is counter_type "METHOD" then
    r ← round2 pct;
    mret {| line_coverage_percent := line_coverage_percent cov;
            branch_coverage_percent := branch_coverage_percent cov;
            method_coverage_percent := r |}
  else mret cov.

Fixpoint add_counters (cov : CoverageSummary) (counters : list Element)
  : outcome CoverageSummary :=
  match counters with
  | [] => mret cov
  | c :: cs => cov' ← add_counter cov c; add_counters cov' cs
  end.

Definition jacoco_coverage (w : world) : outcome CoverageSummary :=
  match jacoco_xml w with
  | Some (Root root) => add_counters no_coverage (findall ["counter"] root)
  | Some Malformed => mret no_coverage
  | Some (Unreadable e) =>
      if is_parse_error e then mret no_coverage else Raise e
  | None => mret no_coverage
  end.

Definition get_quality_dashboard (w : world) : outcome dashboard :=
  t ← surefire_totals w;
  let total_passed := t_tests t - (t_failures t + t_errors t + t_skipped t) in
  cov ← jacoco_coverage w;
  mret {| test_run_summary :=
            {| total_tests := t_tests t;
               passed := total_passed;
               failures := t_failures t;
               errors := t_errors t;
               skipped := t_skipped t |};
          code_coverage_summary := cov |}.

End Dashboard.

(** ** [get_missing_coverage] *)

Module Coverage.

(** The dictionaries the tool returns. *)
Inductive result :=
| Error (error : string)
| FullCoverage
| Missing (missing_coverage : gmap string (list Z)).

(** The report at the given path, if the path exists. *)
Record world := { jacoco_report_path : string; report : option parsed }.

(** [sorted(list(set(xs)))] *)
Definition sorted_set (xs : list Z) : list Z :=
  merge_sort Z.le (elements (list_to_set xs : gset Z)).

(** The body of the loop over the lines of a class: the line number is
    recorded when both attributes are there and the missed-instruction
    count is a positive number; a [ValueError] of either conversion leaves
    the list as it is. *)
Definition add_line (uncovered_lines : list Z) (line : Element) : list Z :=
  match get line "mi", get line "nr" with
  | Some missed_instructions, Some line_number =>
      let attempt :=
        mi ← int_of_str missed_instructions;
        if (0 <? mi)%Z then
          nr ← int_of_str line_number;
          mret (uncovered_lines ++ [nr])%list
        else mret uncovered_lines in
      match attempt with
      | Return l => l
      | Raise _ => uncovered_lines
      end
  | _, _ => uncovered_lines
  end.

Definition uncovered_lines_of (class_elem : Element) : list Z :=
  fold_left add_line (findall ["sourcefile"; "line"] class_elem) [].

(** [s.replace('/', '.')] *)
Fixpoint slashes_to_dots (s : string) : string :=
  match s with
  | EmptyString => EmptyString
  | String c s' =>
      String (if Ascii.eqb c "/" then "."%char else c) (slashes_to_dots s')
  end.

(** [s.split('/')[-1]] *)
Fixpoint last_segment (s : string) : string :=
  match s with
  | EmptyString => EmptyString
  | String c s' =>
      if contains "/" s then last_segment s' else s
  end.

Definition none_has_no (method : string) : exn :=
  Exn AttributeError
      ("'NoneType' object has no attribute '" ++ method ++ "'").

(** The formatted key of a class. *)
Definition full_class_name (package_name class_name : option string)
  : outcome string :=
  match package_name with
  | None => Raise (none_has_no "replace")
  | Some p =>
      match class_name with
      | None => Raise (none_has_no "split")
      | Some c => mret (slashes_to_dots p ++ "." ++ last_segment c)
      end
  end.

Definition add_class (package_name : option string)
    (missing_coverage : gmap string (list Z)) (class_elem : Element)
  : outcome (gmap string (list Z)) :=
  let class_name := get class_elem "name" in
  match uncovered_lines_of class_elem with
  | [] => mret missing_coverage
  | uncovered_lines =>
      name ← full_class_name package_name class_name;
      mret (<[name := sorted_set uncovered_lines]> missing_coverage)
  end.

Fixpoint add_classes (package_name : option string)
    (missing_coverage : gmap string (list Z)) (classes : list Element)
  : outcome (gmap string (list Z)) :=
  match classes with
  | [] => mret missing_coverage
  | c :: cs =>
      m ← add_class package_name missing_coverage c;
      add_classes package_name m cs
  end.

Fixpoint add_packages (missing_coverage : gmap string (list Z))
    (packages : list Element) : outcome (gmap string (list Z)) :=
  match packages with
  | [] => mret missing_coverage
  | package :: ps =>
      m ← add_classes (get package "name") missing_coverage
                      (findall ["class"] package);
      add_packages m ps
  end.

(** The body of the [try] block. *)
Definition body (root : Element) : outcome result :=
  missing_coverage ← add_packages ∅ (findall ["package"] root);
  if decide (missing_coverage = ∅) then mret FullCoverage
  else mret (Missing missing_coverage).

Definition get_missing_coverage (w : world) : result :=
  match report w with
  | None => Error ("Report not found at " ++ jacoco_report_path w)
  | Some Malformed =>
      Error "Failed to parse the JaCoCo XML file. It might be malformed."
  | Some (Unreadable e) =>
      if is_parse_error e then
        Error "Failed to parse the JaCoCo XML file. It might be malformed."
      else Error ("An unexpected error occurred: " ++ exn_msg e)
  | Some (Root root) =>
      match body root with
      | Return r => r
      | Raise e => Error ("An unexpected error occurred: " ++ exn_msg e)
      end
  end.

End Coverage.

(** ** [get_test_failures] *)

Module TestFailures.

(** One entry of the list kept for a class. *)
Record Failure := {
  f_test : option string;
  f_type : string;
  f_message : string;
  f_details : string
}.

(** The dictionaries the tool returns; an empty [skipped_files] stands for
    the key being left out. *)
Inductive result :=
| Error (error : string)
| AllPassed (skipped_files : list string)
| Failed (failures : gmap string (list Failure)) (skipped_files : list string).

(** A report file: its path and what [ET.parse(path).getroot()] does. *)
Definition report_file : Type := string * outcome Element.

(** What the call observes: whether [project_path] is a regular file and
    what parsing it gives, whether the Surefire directory exists, and the
    files the two [glob] patterns list in it. *)
Record world := {
  project_path : string;
  path_is_file : bool;
  path_root : outcome Element;
  report_dir_exists : bool;
  glob_test_xml : list report_file;
  glob_any_xml : list report_file
}.

(** [s.endswith(suffix)] *)
Fixpoint endswith (suffix s : string) : bool :=
  (String.eqb s suffix ||
   match s with
   | EmptyString => false
   | String _ s' => endswith suffix s'
   end)%bool.

(** [a or b] for an optional text [a]: [None] and the empty text are false. *)
Definition str_or (a : option string) (b : string) : string :=
  match a with
  | Some EmptyString => b
  | Some s => s
  | None => b
  end.

(** [root.findall('.//testcase')]: the elements below [e] with the given
    tag, in document order. *)
Fixpoint descendants (e : Element) : list Element :=
  match e with
  | mkElement _ _ _ cs => flat_map (fun c => c :: descendants c) cs
  end.

Definition findall_below (t : string) (e : Element) : list Element :=
  List.filter (has_tag t) (descendants e).

(** [child.text.strip() if child.text else ""] *)
Definition details_of (child : Element) : string :=
  match text child with
  | Some EmptyString => EmptyString
  | Some t => strip t
  | None => EmptyString
  end.

(** [failures.setdefault(class_name, []).append(entry)] *)
Definition setdefault_append (failures : gmap string (list Failure))
    (class_name : string) (entry : Failure) : gmap string (list Failure) :=
  <[class_name := (default [] (failures !! class_name) ++ [entry])%list]> failures.

(** The body of the loop over the children of a test case. *)
Definition add_child (test_name : option string) (class_name : string)
    (failures : gmap string (list Failure)) (child : Element)
  : gmap string (list Failure) :=
  let tag := lower (ET.tag child) in
  if (String.eqb tag "failure" || String.eqb tag "error")%bool then
    let message := str_or (get child "message") "" in
    let details := details_of child in
    setdefault_append failures class_name
      {| f_test := test_name; f_type := tag;
         f_message := message; f_details := details |}
  else failures.

Definition add_testcase (root : Element)
    (failures : gmap string (list Failure)) (testcase : Element)
  : gmap string (list Failure) :=
  let test_name := get testcase "name" in
  let class_name :=
    str_or (get testcase "classname") (str_or (get root "name") "Unknown") in
  fold_left (add_child test_name class_name) (children testcase) failures.

Definition add_root (failures : gmap string (list Failure)) (root : Element)
  : gmap string (list Failure) :=
  fold_left (add_testcase root) (findall_below "testcase" root) failures.

(** One turn of the loop over the report files; both handlers note the
    file as skipped. *)
Definition add_file (state : gmap string (list Failure) * list string)
    (file : report_file) : gmap string (list Failure) * list string :=
  let '(failures, skipped_files) := state in
  match file.2 with
  | Return root => (add_root failures root, skipped_files)
  | Raise (Exn XmlParseError _) => (failures, (skipped_files ++ [file.1])%list)
  | Raise _ => (failures, (skipped_files ++ [file.1])%list)
  end.

(** The report files the call settles on, or the error it returns when the
    directory is not there. *)
Definition report_files (w : world) : option (list report_file) :=
  if (path_is_file w && endswith ".xml" (lower (project_path w)))%bool then
    Some [(project_path w, path_root w)]
  else if negb (report_dir_exists w) then None
  else
    match glob_test_xml w with
    | [] => Some (glob_any_xml w)
    | files => Some files
    end.

Definition get_test_failures (w : world) : result :=
  match report_files w with
  | None =>
      Error "Surefire reports directory not found. Run 'mvn clean test' first."
  | Some [] => Error "No test reports found in surefire-reports."
  | Some files =>
      let '(failures, skipped_files) := fold_left add_file files (∅, []) in
      if decide (failures = ∅) then AllPassed skipped_files
      else Failed failures skipped_files
  end.

End TestFailures.

(** ** [run_maven_test] *)

Module Maven.

(** What the call observes: whether [src] is a directory of the project,
    and how the Maven subprocess ends, with its two output streams. *)
Record world := {
  src_is_dir : bool;
  mvn_verify : outcome (string * string)
}.

Definition newline : string := String (ascii_of_nat 10) EmptyString.

Definition run_maven_test (w : world) : string :=
  if negb (src_is_dir w) then
    "Error: This does not look like a Maven project directory."
  else
    match mvn_verify w with
    | Return (stdout, stderr) =>
        let output := stdout ++ newline ++ stderr in
        if contains "[INFO] BUILD SUCCESS" output then "BUILD SUCCESS"
        else if contains "[INFO] BUILD FAILURE" output then
          "BUILD FAILURE: Build failed to compile."
        else "BUILD FAILURE: Build did not complete. Check logs."
    | Raise e => "An unexpected error occurred while running mvn: " ++ exn_msg e
    end.

End Maven.

(** * Properties *)

(** ** Text and integer conversion *)

Section TextFacts.

Fixpoint all_digits (s : string) : bool :=
  match s with
  | EmptyString => true
  | String c s' => (is_digit c && all_digits s')%bool
  end.

(** A whole-number token: one digit or more, nothing else. *)
Definition number_token (s : string) : Prop :=
  s <> EmptyString /\ all_digits s = true.

(** The number a run of digits denotes, read after a prefix of value [acc]. *)
Fixpoint decimal_from (acc : Z) (s : string) : Z :=
  match s with
  | EmptyString => acc
  | String c s' => decimal_from (10 * acc + digit_val c) s'
  end.

Definition decimal_value (s : string) : Z := decimal_from 0 s.

Lemma digit_not_c_space c : is_digit c = true -> is_c_space c = false.
Proof.
  destruct c as [[] [] [] [] [] [] [] []]; vm_compute; congruence.
Qed.

Lemma digit_no_sign c s :
  is_digit c = true -> split_sign (String c s) = (false, String c s).
Proof.
  destruct c as [[] [] [] [] [] [] [] []]; try reflexivity;
    vm_compute; congruence.
Qed.

Lemma scan_digits_all acc count prev s :
  all_digits s = true -> prev <> Underscore ->
  scan_digits acc count prev s
  = Some (decimal_from acc s, (count + String.length s)%nat, EmptyString).
Proof.
  revert acc count prev.
  induction s as [|c s IH]; simpl; intros acc count prev Hd Hp.
  - rewrite Nat.add_0_r. now destruct prev.
  - apply andb_prop in Hd as [Hc Hs]. rewrite Hc.
    rewrite (IH _ _ Digit Hs) by discriminate. now rewrite Nat.add_succ_r.
Qed.

(** The parse of a whole-number token: its digits are counted against the
    limit, and within the limit its value is returned. *)
Lemma int_of_str_token_cases s :
  number_token s ->
  int_of_str s
  = if Nat.ltb default_max_str_digits (String.length s)
    then Raise (exceeds_limit (String.length s))
    else Return (decimal_value s).
Proof.
  intros [Hne Hd]. destruct s as [|c s]; [congruence|].
  assert (Hc : is_digit c = true) by (simpl in Hd; now apply andb_prop in Hd).
  unfold int_of_str. cbn [skip_spaces].
  rewrite (digit_not_c_space c Hc), (digit_no_sign c s Hc).
  rewrite (scan_digits_all 0 0 Nothing _ Hd) by discriminate.
  cbn [Nat.add]. destruct (Nat.ltb default_max_str_digits _); [reflexivity|].
  reflexivity.
Qed.

Lemma int_of_str_token s :
  number_token s -> (String.length s <= default_max_str_digits)%nat ->
  int_of_str s = Return (decimal_value s).
Proof.
  intros H Hlen. rewrite (int_of_str_token_cases s H).
  destruct (Nat.ltb_spec default_max_str_digits (String.length s)); [lia | reflexivity].
Qed.

Lemma int_of_str_long_token s :
  number_token s -> (default_max_str_digits < String.length s)%nat ->
  int_of_str s = Raise (exceeds_limit (String.length s)).
Proof.
  intros H Hlen. rewrite (int_of_str_token_cases s H).
  destruct (Nat.ltb_spec default_max_str_digits (String.length s)); [reflexivity | lia].
Qed.

Lemma match_digits_token s tok rest :
  match_digits s = Some (tok, rest) ->
  number_token tok /\ s = (tok ++ rest)%string.
Proof.
  revert tok rest. induction s as [|c s IH]; simpl; intros tok rest H.
  - discriminate.
  - destruct (is_digit c) eqn:Hc; [|discriminate].
    destruct (match_digits s) as [[tok' rest']|].
    + injection H as <- <-. destruct (IH _ _ eq_refl) as [[_ Hd] ->].
      repeat split; simpl; [congruence | now rewrite Hc, Hd].
    + destruct (word_boundary _ _); [|discriminate].
      injection H as <- <-. repeat split; simpl; [congruence | now rewrite Hc].
Qed.

Lemma findall_scan_tokens fuel before s :
  Forall number_token (findall_scan fuel before s).
Proof.
  revert before s. induction fuel as [|fuel IH]; simpl; intros before s.
  - constructor.
  - destruct s as [|c s]; [constructor|].
    destruct (word_boundary before (is_word c)); [|apply IH].
    destruct (match_digits (String c s)) as [[tok rest]|] eqn:Hm; [|apply IH].
    constructor; [|apply IH]. now apply match_digits_token in Hm.
Qed.

Lemma length_app_string (a b : string) :
  String.length (a ++ b) = (String.length a + String.length b)%nat.
Proof. induction a as [|c a IH]; simpl; [reflexivity | now rewrite IH]. Qed.

(** The fuel [findall_numbers] hands to the scan is never used up: any
    larger amount gives the same tokens. *)
Lemma findall_scan_fuel fuel before s :
  (String.length s <= fuel)%nat ->
  findall_scan fuel before s = findall_scan (String.length s) before s.
Proof.
  remember (String.length s) as n eqn:Hn. rewrite Hn.
  assert (Hb : (String.length s <= n)%nat) by lia. clear Hn.
  revert s before fuel Hb.
  induction n as [n IH] using lt_wf_ind. intros s before fuel Hb Hle.
  assert (IH' : forall r b f, (String.length r < String.length s)%nat ->
            (String.length r <= f)%nat ->
            findall_scan f b r = findall_scan (String.length r) b r).
  { intros r b f Hr Hf. destruct n; [lia|].
    apply (IH n); lia. }
  clear IH Hb. rename IH' into IH. revert before fuel Hle.
  intros before fuel Hle. destruct s as [|c s]; [now destruct fuel|].
  destruct fuel as [|fuel]; [simpl in Hle; lia|].
  cbn [String.length findall_scan].
  assert (Hs : forall b, findall_scan fuel b s
                         = findall_scan (String.length s) b s).
  { intros b. apply IH; simpl in *; lia. }
  destruct (word_boundary before (is_word c)); [|apply Hs].
  destruct (match_digits (String c s)) as [[tok rest]|] eqn:Hm; [|apply Hs].
  f_equal. apply match_digits_token in Hm as [[Hne _] Heq].
  assert (Hlen : (String.length rest < String.length (String c s))%nat).
  { rewrite Heq, length_app_string.
    destruct tok; [congruence | simpl; lia]. }
  simpl in Hlen, Hle.
  rewrite (IH rest true fuel) by (simpl; lia).
  symmetry. apply IH; simpl; lia.
Qed.

(** A token fits [int] when it has no more digits than the limit. *)
Definition fits_int (tok : string) : Prop :=
  (String.length tok <= default_max_str_digits)%nat.

(** Converting tokens that fit never raises. *)
Lemma mapM_int_of_str_tokens (toks : list string) :
  Forall number_token toks -> Forall fits_int toks ->
  mapM int_of_str toks = Return (map decimal_value toks).
Proof.
  induction 1 as [|t toks Ht _ IH]; [reflexivity|].
  intros [Hlen Hfit]%Forall_cons.
  cbn [mapM]. fold (mapM int_of_str toks).
  rewrite (int_of_str_token t Ht Hlen). cbn. rewrite (IH Hfit). reflexivity.
Qed.

(** Converting tokens one of which does not fit raises. *)
Lemma mapM_int_of_str_long (toks : list string) :
  Forall number_token toks -> ~ Forall fits_int toks ->
  raises (mapM int_of_str toks).
Proof.
  induction 1 as [|t toks Ht _ IH]; intros Hno.
  - destruct Hno. constructor.
  - cbn [mapM]. fold (mapM int_of_str toks).
    rewrite (int_of_str_token_cases t Ht).
    destruct (Nat.ltb_spec default_max_str_digits (String.length t)) as [Hlt|Hle];
      [exact I|].
    cbn [mbind outcome_bind].
    assert (Hrest : ~ Forall fits_int toks).
    { intros Hall. apply Hno. now constructor. }
    specialize (IH Hrest). destruct (mapM int_of_str toks); [destruct IH | exact I].
Qed.

End TextFacts.

(** ** Dictionaries and first occurrences *)

Section DictFacts.

Import Bva.


Lemma value_eqb_refl v : value_eqb v v = true.
Proof.
  destruct v as [|b|n|s]; simpl;
    [reflexivity | now destruct b | apply Z.eqb_refl | apply String.eqb_refl].
Qed.


Definition known (seen : list value) (k : value) : bool :=
  existsb (fun y => value_eqb y k) seen.

Lemma dict_keys_setitem d k v :
  dict_keys (dict_setitem d k v)
  = if known (dict_keys d) k then dict_keys d else (dict_keys d ++ [k])%list.
Proof.
  induction d as [|[k' v'] d IH]; simpl; [reflexivity|].
  destruct (value_eqb k' k); simpl; [reflexivity|].
  rewrite IH. now destruct (known (dict_keys d) k).
Qed.

Lemma dict_keys_fold l d :
  dict_keys (fold_left (fun d k => dict_setitem d k VNone) l d)
  = (dict_keys d ++ first_occurrences (dict_keys d) l)%list.
Proof.
  revert d. induction l as [|x l IH]; intros d; simpl.
  - now rewrite app_nil_r.
  - rewrite IH, dict_keys_setitem. fold (known (dict_keys d) x).
    destruct (known (dict_keys d) x); [reflexivity|].
    now rewrite <- app_assoc.
Qed.

(** [list(dict.fromkeys(l))] keeps exactly the first occurrences. *)
Lemma dict_fromkeys_first_occurrences l :
  dict_keys (dict_fromkeys l) = first_occurrences [] l.
Proof. unfold dict_fromkeys. now rewrite dict_keys_fold. Qed.

Lemma first_occurrences_fresh seen l v :
  v ∈ first_occurrences seen l -> v ∈ l /\ known seen v = false.
Proof.
  revert seen. induction l as [|x l IH]; simpl; intros seen H.
  - now apply elem_of_nil in H.
  - fold (known seen x) in H. destruct (known seen x) eqn:Hx.
    + destruct (IH _ H). split; [now right | assumption].
    + apply elem_of_cons in H as [-> | H]; [split; [now left | assumption]|].
      destruct (IH _ H) as [Hin Hk]. split; [now right|].
      unfold known in *. rewrite existsb_app in Hk.
      now apply orb_false_elim in Hk.
Qed.

Lemma first_occurrences_NoDup seen l : NoDup (first_occurrences seen l).
Proof.
  revert seen. induction l as [|x l IH]; simpl; intros seen.
  - constructor.
  - fold (known seen x). destruct (known seen x); [apply IH|].
    constructor; [|apply IH].
    intros [_ Hk]%first_occurrences_fresh.
    unfold known in Hk. rewrite existsb_app in Hk.
    apply orb_false_elim in Hk as [_ Hk]. simpl in Hk.
    now rewrite value_eqb_refl in Hk.
Qed.


Lemma first_occurrences_sub seen l : Forall (fun v => v ∈ l) (first_occurrences seen l).
Proof.
  apply Forall_forall. intros v Hv. now apply first_occurrences_fresh in Hv.
Qed.


Lemma extend_around_flat_map values numbers :
  extend_around values numbers
  = (values ++ flat_map (fun n => [VInt (n - 1); VInt n; VInt (n + 1)]) numbers)%list.
Proof.
  unfold extend_around. revert values.
  induction numbers as [|n ns IH]; intros values; simpl.
  - now rewrite app_nil_r.
  - rewrite IH, <- app_assoc. reflexivity.
Qed.

End DictFacts.

(** ** The boundary-value generator *)

Section BvaFacts.

Import Bva.

(** The three values [extend] adds for a number of the constraints. *)
Definition around (n : Z) : list value := [VInt (n - 1); VInt n; VInt (n + 1)].

(** The numbers the constraints text mentions, in text order. *)
Definition constraint_numbers (constraints : string) : list Z :=
  map decimal_value (findall_numbers (lower constraints)).


(** The tokens of the constraints all fit [int]. *)
Definition tokens_fit (constraints : string) : Prop :=
  Forall fits_int (findall_numbers (lower constraints)).

Lemma with_constraints_eq values constraints :
  tokens_fit constraints ->
  with_constraints values constraints
  = Return (first_occurrences []
              (values ++ flat_map around (constraint_numbers constraints))%list).
Proof.
  unfold tokens_fit, with_constraints, constraint_numbers, findall_numbers.
  intros Hfit.
  rewrite (mapM_int_of_str_tokens _ (findall_scan_tokens _ _ _) Hfit). cbn.
  now rewrite dict_fromkeys_first_occurrences, extend_around_flat_map.
Qed.

Lemma with_constraints_long values constraints :
  ~ tokens_fit constraints -> raises (with_constraints values constraints).
Proof.
  unfold tokens_fit, with_constraints, findall_numbers. intros Hno.
  pose proof (mapM_int_of_str_long _ (findall_scan_tokens _ _ _) Hno) as Hr.
  destruct (mapM int_of_str _); [destruct Hr | exact I].
Qed.

#[local] Instance fits_int_dec tok : Decision (fits_int tok).
Proof. unfold fits_int. apply _. Defined.

Lemma tokens_fit_dec constraints :
  tokens_fit constraints \/ ~ tokens_fit constraints.
Proof.
  unfold tokens_fit.
  destruct (decide (Forall fits_int (findall_numbers (lower constraints))));
    [now left | now right].
Qed.


(** Which calls get past the three early returns. *)
Lemma per_type_branch param_name param_type function_name constraints :
  contains "default" (lower param_name) = false ->
  ~ (param_type = "String" /\
     (contains "toint" (lower function_name) = true \/
      contains "parse" (lower function_name) = true)) ->
  param_type <> "boolean" ->
  generate_bva_test_cases param_name param_type function_name constraints
  = with_constraints (base_cases param_type) constraints.
Proof.
  intros Hd Hp Hb. unfold generate_bva_test_cases, base_cases. rewrite Hd.
  destruct (String.eqb param_type "String") eqn:Hs.
  - apply String.eqb_eq in Hs as ->. simpl String.eqb. cbn [andb orb].
    destruct (contains "toint" (lower function_name)) eqn:Ht;
      [exfalso; apply Hp; auto|].
    destruct (contains "parse" (lower function_name)) eqn:Hq;
      [exfalso; apply Hp; auto|].
    reflexivity.
  - cbn [andb]. destruct (_ || _)%bool; [reflexivity|].
    destruct (String.eqb param_type "boolean") eqn:Hbo; [|reflexivity].
    now apply String.eqb_eq in Hbo.
Qed.

End BvaFacts.

(** C9. A parameter whose name contains "default", in any letter case, gets
    exactly [0, 1, -1], whatever its type, function and constraints. *)
Theorem bva_default_short_circuit :
  forall param_name param_type function_name constraints : string,
    contains "default" (lower param_name) = true ->
    Bva.generate_bva_test_cases param_name param_type function_name constraints
    = Return [VInt 0; VInt 1; VInt (-1)].
Proof.
  intros pn pt fn cs H. unfold Bva.generate_bva_test_cases. now rewrite H.
Qed.

Lemma bva_default_short_circuit_witness :
  contains "default" (lower "someDefaultValue") = true /\
  Bva.generate_bva_test_cases "someDefaultValue" "int" "foo" ""
  = Return [VInt 0; VInt 1; VInt (-1)].
Proof.
  split; [reflexivity|].
  apply (bva_default_short_circuit "someDefaultValue" "int" "foo" "").
  reflexivity.
Defined.

(** C7. A [String] parameter of a function whose name contains "toint" or
    "parse" (in any letter case), the parameter name being free of "default",
    gets exactly the eleven integer-parsing probes, among them the text one
    past the largest 32-bit integer and the non-numeric "abc". *)
Theorem bva_string_parsing_cases :
  forall param_name function_name constraints : string,
    contains "default" (lower param_name) = false ->
    contains "toint" (lower function_name) = true \/
    contains "parse" (lower function_name) = true ->
    Bva.generate_bva_test_cases param_name "String" function_name constraints
    = Return [ VNone; VStr ""; VStr " "; VStr "0"; VStr "1"; VStr "-1";
               VStr "2147483647"; VStr "-2147483648";
               VStr "2147483648"; VStr "-2147483649"; VStr "abc" ].
Proof.
  intros pn fn cs Hd Hf. unfold Bva.generate_bva_test_cases. rewrite Hd.
  assert (Ho : (contains "toint" (lower fn) || contains "parse" (lower fn))%bool
               = true).
  { destruct Hf as [-> | ->]; [reflexivity | apply orb_true_r]. }
  rewrite Ho. reflexivity.
Qed.

Lemma bva_string_parsing_cases_witness :
  Bva.generate_bva_test_cases "input" "String" "parseToInt" ""
  = Return [ VNone; VStr ""; VStr " "; VStr "0"; VStr "1"; VStr "-1";
             VStr "2147483647"; VStr "-2147483648";
             VStr "2147483648"; VStr "-2147483649"; VStr "abc" ].
Proof.
  apply (bva_string_parsing_cases "input" "parseToInt" "").
  - reflexivity.
  - right. reflexivity.
Defined.

(** A constraints text with a number of 4301 digits. *)
Definition long_number : string := repeat_str "9" 4301.




(** ** The static-analysis report *)

Section PmdFacts.

Import Pmd.

Definition no_strip : exn :=
  Exn AttributeError "'NoneType' object has no attribute 'strip'".

(** The record a violation element with text turns into. *)
Definition record_of (file_name : option string) (violation : Element) : Violation :=
  {| v_file := file_name;
     v_line := get violation "beginline";
     v_rule := get violation "rule";
     v_priority := get violation "priority";
     v_description := match text violation with
                      | Some t => strip t
                      | None => EmptyString
                      end |}.

Definition records_of (file_elem : Element) : list Violation :=
  map (record_of (get file_elem "name")) (findall ["violation"] file_elem).

Definition has_text (e : Element) : bool :=
  match text e with Some _ => true | None => false end.

Lemma findall_one t e : findall [t] e = List.filter (has_tag t) (children e).
Proof.
  simpl. induction (List.filter (has_tag t) (children e)) as [|x l IH];
    simpl; [reflexivity | now rewrite IH].
Qed.

Lemma violation_elements_eq root :
  violation_elements root
  = flat_map (findall ["violation"]) (findall ["file"] root).
Proof. unfold violation_elements. now rewrite (findall_one "file"). Qed.

Lemma mapM_violation_of file_name vs :
  mapM (violation_of file_name) vs
  = if forallb has_text vs then Return (map (record_of file_name) vs)
    else Raise no_strip.
Proof.
  induction vs as [|v vs IH]; [reflexivity|].
  cbn [mapM forallb map]. fold (mapM (violation_of file_name) vs).
  rewrite IH. unfold violation_of, text_strip, has_text, record_of.
  destruct (text v); cbn; [|reflexivity].
  now destruct (forallb _ vs).
Qed.

Lemma collect_eq files violations :
  collect files violations
  = if forallb has_text (flat_map (findall ["violation"]) files)
    then Return (violations ++ flat_map records_of files)%list
    else Raise no_strip.
Proof.
  revert violations. induction files as [|f files IH]; intros violations.
  - simpl. now rewrite app_nil_r.
  - cbn [collect flat_map]. rewrite mapM_violation_of, forallb_app.
    destruct (forallb has_text (findall ["violation"] f)); cbn; [|reflexivity].
    rewrite IH. destruct (forallb _ _); [|reflexivity].
    now rewrite <- app_assoc.
Qed.

Lemma length_records files :
  length (flat_map records_of files)
  = length (flat_map (findall ["violation"]) files).
Proof.
  induction files as [|f files IH]; [reflexivity|].
  cbn [flat_map]. rewrite !length_app, IH. unfold records_of.
  now rewrite length_map.
Qed.

(** All records of a report, in document order. *)
Definition all_records (root : Element) : list Violation :=
  flat_map records_of (findall ["file"] root).

(** X1. When every violation element carries text the tool answers as
    described: the count of all violations, the first twenty records. *)
Lemma run_pmd_analysis_with_text w root :
  mvn w = Return () ->
  pmd_xml w = Some (Root root) ->
  forallb has_text (violation_elements root) = true ->
  length (all_records root) = length (violation_elements root) /\
  run_pmd_analysis w
  = match violation_elements root with
    | [] => Status "PMD analysis passed. No violations found."
    | _ => Found (found_status (length (violation_elements root)))
                 (take 20 (all_records root))
    end.
Proof.
  intros Hm Hx Ht. rewrite violation_elements_eq in *.
  assert (Hlen := length_records (findall ["file"] root)).
  split; [exact Hlen|].
  unfold run_pmd_analysis, body. rewrite Hm, Hx.
  cbn [mbind outcome_bind]. rewrite collect_eq, Ht.
  cbn [mbind outcome_bind mret outcome_ret app]. unfold all_records in *.
  destruct (flat_map records_of _) as [|r rs];
    destruct (flat_map (findall ["violation"]) _) as [|v vs];
    try discriminate Hlen; [reflexivity|].
  cbn [length] in *. now rewrite Hlen.
Qed.

End PmdFacts.

(** A report with two violations, the second without text. *)
Definition textless_report : Element :=
  mkElement "pmd" ∅ None
    [ mkElement "file" {[ "name" := "src/main/java/App.java" ]} None
        [ mkElement "violation"
            {[ "beginline" := "3"; "rule" := "UnusedImports"; "priority" := "4" ]}
            (Some "Avoid unused imports") [];
          mkElement "violation"
            {[ "beginline" := "9"; "rule" := "EmptyCatchBlock"; "priority" := "3" ]}
            None [] ] ].

Definition textless_world : Pmd.world :=
  {| Pmd.mvn := Return (); Pmd.pmd_xml := Some (Root textless_report) |}.

(** C6. The report [textless_report] holds two violations, yet the answer
    carries neither the count nor any record: the tool returns its generic
    error, whereas the claim asks for the status with the total 2 and both
    records. *)
Theorem pmd_count_lost_on_textless_violation :
  length (Pmd.violation_elements textless_report) = 2%nat /\
  Pmd.run_pmd_analysis textless_world
  = Pmd.Error
      "An unexpected error occurred: 'NoneType' object has no attribute 'strip'".
Proof. split; reflexivity. Qed.

(** C10. Whenever some violation element of the report has no text, the
    tool returns the generic unexpected-error dictionary, so none of the
    violations of the document is reported, and no count either. *)
Theorem pmd_textless_violation_generic_error :
  forall (w : Pmd.world) (root : Element),
    Pmd.mvn w = Return () ->
    Pmd.pmd_xml w = Some (Root root) ->
    (exists v, v ∈ Pmd.violation_elements root /\ text v = None) ->
    Pmd.run_pmd_analysis w
    = Pmd.Error
        "An unexpected error occurred: 'NoneType' object has no attribute 'strip'".
Proof.
  intros w root Hm Hx [v [Hv Ht]].
  unfold Pmd.run_pmd_analysis, Pmd.body. rewrite Hm, Hx.
  cbn [mbind outcome_bind]. rewrite collect_eq, <- violation_elements_eq.
  assert (Hf : forallb has_text (Pmd.violation_elements root) = false).
  { apply not_true_is_false. intros Hall. rewrite forallb_forall in Hall.
    apply list_elem_of_In in Hv. apply Hall in Hv.
    unfold has_text in Hv. now rewrite Ht in Hv. }
  now rewrite Hf.
Qed.

Lemma pmd_textless_violation_generic_error_witness :
  exists root : Element,
    (exists v, v ∈ Pmd.violation_elements root /\ text v = None) /\
    Pmd.run_pmd_analysis {| Pmd.mvn := Return (); Pmd.pmd_xml := Some (Root root) |}
    = Pmd.Error
        "An unexpected error occurred: 'NoneType' object has no attribute 'strip'".
Proof.
  pose (v := mkElement "violation" {[ "beginline" := "1"; "rule" := "R" ]} None []).
  pose (root := mkElement "pmd" ∅ None
                  [mkElement "file" {[ "name" := "A.java" ]} None [v]]).
  assert (Hv : exists x, x ∈ Pmd.violation_elements root /\ text x = None).
  { exists v. split; [|reflexivity]. apply list_elem_of_In. left. reflexivity. }
  exists root. split; [exact Hv|].
  apply (pmd_textless_violation_generic_error
           {| Pmd.mvn := Return (); Pmd.pmd_xml := Some (Root root) |} root);
    [reflexivity | reflexivity | exact Hv].
Defined.

(** ** Rounding of binary64 floats *)

Section FloatFacts.

Import PyFloat.
Local Open Scope Z_scope.

Lemma digits2_pos_bounds p :
  2 ^ (Z.pos (digits2_pos p) - 1) <= Z.pos p < 2 ^ Z.pos (digits2_pos p).
Proof.
  induction p as [p IH|p IH|]; cbn [digits2_pos].
  - rewrite Pos2Z.inj_succ, Z.pow_succ_r by lia.
    replace (Z.succ (Z.pos (digits2_pos p)) - 1)
      with (Z.succ (Z.pos (digits2_pos p) - 1)) by lia.
    rewrite Z.pow_succ_r by lia. lia.
  - rewrite Pos2Z.inj_succ, Z.pow_succ_r by lia.
    replace (Z.succ (Z.pos (digits2_pos p)) - 1)
      with (Z.succ (Z.pos (digits2_pos p) - 1)) by lia.
    rewrite Z.pow_succ_r by lia. lia.
  - simpl. lia.
Qed.

(** A mantissa below a bound has no more digits, exponents counted in. *)
Lemma Zdigits2_le (MB eB m e : Z) :
  0 < MB -> 0 <= m -> e <= eB -> m <= MB * 2 ^ (eB - e) ->
  Zdigits2 m + e <= Zdigits2 MB + eB.
Proof.
  intros HMB Hm He Hle.
  destruct MB as [|pB|pB]; try lia.
  destruct m as [|p|p]; try lia; cbn [Zdigits2].
  - pose proof (Pos2Z.is_pos (digits2_pos pB)). lia.
  - pose proof (digits2_pos_bounds p) as [Hp _].
    pose proof (digits2_pos_bounds pB) as [_ HB].
    assert (H : 2 ^ (Z.pos (digits2_pos p) - 1)
                < 2 ^ (Z.pos (digits2_pos pB) + (eB - e))).
    { rewrite Z.pow_add_r by lia.
      assert (0 < 2 ^ (eB - e)) by (apply Z.pow_pos_nonneg; lia). nia. }
    apply Z.pow_lt_mono_r_iff in H; lia.
Qed.

Definition exact (mrs : shr_record) : Prop :=
  shr_r mrs = false /\ shr_s mrs = false.

Lemma loc_of_exact mrs : exact mrs -> loc_of_shr_record mrs = loc_Exact.
Proof. destruct mrs as [m r s]. intros [Hr Hs]. simpl in *. now subst. Qed.

Lemma loc_of_record_of_loc m l :
  loc_of_shr_record (shr_record_of_loc m l) = l /\
  shr_m (shr_record_of_loc m l) = m.
Proof. destruct l as [|[]]; split; reflexivity. Qed.

Lemma exact_record_of_loc m : exact (shr_record_of_loc m loc_Exact).
Proof. split; reflexivity. Qed.

(** [shifted n x y]: [y] is [x] with [n] low bits cut off, and [y] is
    exact as soon as [x] is and the bits cut off are all zero. *)
Definition shifted (n : Z) (x y : shr_record) : Prop :=
  shr_m y = shr_m x / 2 ^ n /\
  (exact x -> shr_m x mod 2 ^ n = 0 -> exact y).

Lemma shifted_1 x : 0 <= shr_m x -> shifted 1 x (shr_1 x).
Proof.
  destruct x as [m r s]. cbn [shr_m]. intros Hm.
  unfold shifted, exact. change (2 ^ 1) with 2.
  destruct m as [|[p|p|]|p]; try lia; cbn [shr_1 shr_m shr_r shr_s].
  - split; [reflexivity|]. intros [-> ->] _. split; reflexivity.
  - split.
    + rewrite Pos2Z.inj_xI. apply Z.div_unique with 1; lia.
    + intros _ H. rewrite Pos2Z.inj_xI in H.
      rewrite Z.add_comm, Z.mul_comm, Z.mod_add in H by lia. discriminate H.
  - split.
    + rewrite Pos2Z.inj_xO. apply Z.div_unique with 0; lia.
    + intros [-> ->] _. split; reflexivity.
  - split; [reflexivity|]. intros _ H. discriminate H.
Qed.

Lemma shifted_trans a b x y z :
  0 <= a -> 0 <= b -> 0 <= shr_m x ->
  shifted a x y -> shifted b y z -> shifted (a + b) x z.
Proof.
  intros Ha Hb Hx [Hy Ey] [Hz Ez].
  assert (0 < 2 ^ a) by (apply Z.pow_pos_nonneg; lia).
  assert (0 < 2 ^ b) by (apply Z.pow_pos_nonneg; lia).
  split.
  - rewrite Hz, Hy, Z.pow_add_r, Z.div_div by lia. reflexivity.
  - intros Ex Hmod. rewrite Z.pow_add_r, Z.rem_mul_r in Hmod by lia.
    pose proof (Z.mod_pos_bound (shr_m x) (2 ^ a)).
    pose proof (Z.mod_pos_bound (shr_m x / 2 ^ a) (2 ^ b)).
    apply Ez; [apply Ey; [assumption | nia] | rewrite Hy; nia].
Qed.

Lemma shifted_nonneg n x y : 0 <= n -> 0 <= shr_m x -> shifted n x y -> 0 <= shr_m y.
Proof.
  intros Hn Hx [-> _]. apply Z.div_pos; [assumption|].
  apply Z.pow_pos_nonneg; lia.
Qed.

Lemma shifted_iter p x :
  0 <= shr_m x -> shifted (Z.pos p) x (SpecFloat.iter_pos shr_1 p x).
Proof.
  revert x. induction p as [p IH|p IH|]; intros x Hx; cbn [SpecFloat.iter_pos].
  - pose proof (shifted_1 x Hx) as H1.
    pose proof (shifted_nonneg 1 _ _ ltac:(lia) Hx H1) as Hx1.
    pose proof (IH _ Hx1) as H2.
    pose proof (shifted_nonneg (Z.pos p) _ _ ltac:(lia) Hx1 H2) as Hx2.
    pose proof (IH _ Hx2) as H3.
    replace (Z.pos p~1) with (1 + (Z.pos p + Z.pos p)) by lia.
    apply shifted_trans with (shr_1 x); try lia; [assumption|].
    apply shifted_trans with (SpecFloat.iter_pos shr_1 p (shr_1 x)); try lia; assumption.
  - pose proof (IH _ Hx) as H2.
    pose proof (shifted_nonneg (Z.pos p) _ _ ltac:(lia) Hx H2) as Hx2.
    pose proof (IH _ Hx2) as H3.
    replace (Z.pos p~0) with (Z.pos p + Z.pos p) by lia.
    apply shifted_trans with (SpecFloat.iter_pos shr_1 p x); try lia; assumption.
  - now apply shifted_1.
Qed.

End FloatFacts.

(** Rounding below a representable bound [MB * 2^eB] stays below it. *)
Section RoundingBelow.

Import PyFloat.
Local Open Scope Z_scope.

Variables MB eB : Z.
Hypothesis MB_pos : 0 < MB.
Hypothesis bound_representable : fexp prec emax (Zdigits2 MB + eB) <= eB.
Hypothesis bound_in_range : eB <= emax - prec.

(** The truncated mantissa [m] at exponent [e], with the position [l] of
    the exact value above it, denotes a value of at most [MB * 2^eB]. *)
Definition below (m e : Z) (l : location) : Prop :=
  0 <= m /\ e <= eB /\ m <= MB * 2 ^ (eB - e) /\
  (m = MB * 2 ^ (eB - e) -> l = loc_Exact).

Lemma shr_fexp_below m e l :
  below m e l ->
  exists mrs e', shr_fexp prec emax m e l = (mrs, e') /\
                 below (shr_m mrs) e' (loc_of_shr_record mrs).
Proof.
  intros (Hm & He & Hle & Hex). unfold shr_fexp, shr.
  pose proof (Zdigits2_le MB eB m e MB_pos Hm He Hle) as Hd.
  assert (Hf : fexp prec emax (Zdigits2 m + e) <= eB).
  { revert bound_representable. unfold fexp, emin. lia. }
  destruct (fexp prec emax (Zdigits2 m + e) - e) as [|p|p] eqn:Hn.
  - eexists _, _. split; [reflexivity|].
    destruct (loc_of_record_of_loc m l) as [-> ->]. repeat split; assumption.
  - pose proof (shifted_iter p (shr_record_of_loc m l)) as Hs.
    destruct (loc_of_record_of_loc m l) as [Hl Hrm]. rewrite Hrm in Hs.
    destruct (Hs Hm) as [Hdiv Hexact]. rewrite Hrm in Hdiv, Hexact.
    eexists _, _. split; [reflexivity|]. rewrite Hdiv.
    assert (Hp : 0 < 2 ^ Z.pos p) by (apply Z.pow_pos_nonneg; lia).
    assert (Hsplit : MB * 2 ^ (eB - e)
                     = 2 ^ Z.pos p * (MB * 2 ^ (eB - (e + Z.pos p)))).
    { replace (eB - e) with (Z.pos p + (eB - (e + Z.pos p))) by lia.
      rewrite Z.pow_add_r by lia. ring. }
    repeat split.
    + apply Z.div_pos; lia.
    + lia.
    + apply Z.div_le_upper_bound; lia.
    + intros Heq. apply loc_of_exact.
      pose proof (Z.mul_div_le m (2 ^ Z.pos p) Hp) as Hlow.
      rewrite Heq in Hlow.
      assert (Hm' : m = MB * 2 ^ (eB - e)) by lia.
      apply Hexact.
      * rewrite (Hex Hm'). apply exact_record_of_loc.
      * rewrite Hm', Hsplit, Z.mul_comm. apply Z.mod_mul. lia.
  - eexists _, _. split; [reflexivity|].
    destruct (loc_of_record_of_loc m l) as [-> ->]. repeat split; assumption.
Qed.

Lemma round_nearest_even_below m e l :
  below m e l -> below (round_nearest_even m l) e loc_Exact.
Proof.
  intros (Hm & He & Hle & Hex). unfold below.
  assert (Hup : l <> loc_Exact -> m + 1 <= MB * 2 ^ (eB - e)).
  { intros Hl. assert (m <> MB * 2 ^ (eB - e)) by (intros H; auto). lia. }
  destruct l as [|[]]; cbn [round_nearest_even];
    try destruct (Z.even m);
    repeat split; try lia; try (specialize (Hup ltac:(discriminate)); lia).
Qed.

(** The rounded result is zero or a positive float of at most the bound. *)
Lemma binary_round_aux_below m e l :
  below m e l ->
  binary_round_aux prec emax false m e l = S754_zero false \/
  exists m' e', binary_round_aux prec emax false m e l = S754_finite false m' e' /\
                below (Z.pos m') e' loc_Exact.
Proof.
  intros H. unfold binary_round_aux.
  destruct (shr_fexp_below m e l H) as (mrs1 & e1 & -> & H1).
  apply round_nearest_even_below in H1.
  destruct (shr_fexp_below _ _ _ H1) as (mrs2 & e2 & -> & H2).
  destruct H2 as (Hm2 & He2 & Hle2 & _).
  destruct (shr_m mrs2) as [|p|p] eqn:Hp; [now left | | lia].
  right. exists p, e2.
  assert (Hr : (e2 <=? emax - prec) = true) by (apply Z.leb_le; lia).
  rewrite Hr. split; [reflexivity|]. repeat split; auto.
Qed.

End RoundingBelow.

(** Rounding between two bounds, the upper one representable, stays
    between them. *)
Section RoundingBetween.

Import PyFloat.
Local Open Scope Z_scope.

Variables A B eB : Z.
Hypothesis B_pos : 0 < B.
Hypothesis bound_representable : fexp prec emax (Zdigits2 B + eB) <= eB.
Hypothesis bound_in_range : eB <= emax - prec.

(** The mantissa [m] at exponent [e] denotes a value of at least
    [A * 2^eB]. *)
Definition above (m e : Z) : Prop :=
  e <= eB /\ A * 2 ^ (eB - e) <= m.

Lemma shr_fexp_above m e l :
  below B eB m e l -> above m e ->
  forall mrs e', shr_fexp prec emax m e l = (mrs, e') -> above (shr_m mrs) e'.
Proof.
  intros (Hm & He & Hle & _) (_ & Hlow) mrs e'. unfold shr_fexp, shr.
  pose proof (Zdigits2_le B eB m e B_pos Hm He Hle) as Hd.
  assert (Hf : fexp prec emax (Zdigits2 m + e) <= eB).
  { revert bound_representable. unfold fexp, emin. lia. }
  destruct (loc_of_record_of_loc m l) as [_ Hrm].
  destruct (fexp prec emax (Zdigits2 m + e) - e) as [|p|p] eqn:Hn;
    intros [= <- <-].
  - rewrite Hrm. now split.
  - pose proof (shifted_iter p (shr_record_of_loc m l)) as Hs.
    rewrite Hrm in Hs. destruct (Hs Hm) as [Hdiv _]. rewrite Hrm in Hdiv.
    rewrite Hdiv. split; [lia|].
    assert (Hp : 0 < 2 ^ Z.pos p) by (apply Z.pow_pos_nonneg; lia).
    apply Z.div_le_lower_bound; [lia|].
    replace (eB - e) with (Z.pos p + (eB - (e + Z.pos p))) in Hlow by lia.
    rewrite Z.pow_add_r in Hlow by lia. lia.
  - rewrite Hrm. now split.
Qed.

Lemma round_nearest_even_above m e l :
  above m e -> above (round_nearest_even m l) e.
Proof.
  intros (He & Hlow). split; [exact He|].
  destruct l as [|[]]; cbn [round_nearest_even];
    try destruct (Z.even m); lia.
Qed.

(** A float between [A * 2^eB] and [B * 2^eB]. *)
Definition between (x : float) : Prop :=
  (x = S754_zero false /\ A <= 0) \/
  exists m e, x = S754_finite false m e /\
              below B eB (Z.pos m) e loc_Exact /\ above (Z.pos m) e.

(** Rounding a value that two representable bounds enclose gives a float
    that they enclose. *)
Lemma binary_round_aux_between m e l :
  below B eB m e l -> above m e ->
  between (binary_round_aux prec emax false m e l).
Proof.
  intros Hb Ha. unfold binary_round_aux.
  destruct (shr_fexp_below B eB B_pos bound_representable m e l Hb)
    as (mrs1 & e1 & Heq1 & Hb1).
  pose proof (shr_fexp_above m e l Hb Ha mrs1 e1 Heq1) as Ha1.
  rewrite Heq1.
  pose proof (round_nearest_even_below B eB _ _ _ Hb1) as Hb1'.
  pose proof (round_nearest_even_above _ _ (loc_of_shr_record mrs1) Ha1) as Ha1'.
  destruct (shr_fexp_below B eB B_pos bound_representable _ _ _ Hb1')
    as (mrs2 & e2 & Heq2 & Hb2).
  pose proof (shr_fexp_above _ _ _ Hb1' Ha1' mrs2 e2 Heq2) as Ha2.
  rewrite Heq2.
  destruct Hb2 as (Hm2 & He2 & Hle2 & _). destruct Ha2 as (_ & Hlow2).
  destruct (shr_m mrs2) as [|p|p] eqn:Hp; [| |lia].
  - left. split; [reflexivity|].
    assert (0 < 2 ^ (eB - e2)) by (apply Z.pow_pos_nonneg; lia). nia.
  - right. exists p, e2.
    assert (Hr : (e2 <=? emax - prec) = true) by (apply Z.leb_le; lia).
    rewrite Hr. split; [reflexivity|]. repeat split; auto.
Qed.

End RoundingBetween.


Section PercentFacts.

Import PyFloat Dashboard.
Local Open Scope Z_scope.

(** A non-negative float of at most [MB * 2^eB]. *)
Definition at_most (MB eB : Z) (x : float) : Prop :=
  x = S754_zero false \/
  exists m e, x = S754_finite false m e /\ below MB eB (Z.pos m) e loc_Exact.

(** The float nearest to [n / 100], for a non-negative integer [n]. *)
Definition hundredths (n : Z) : float :=
  match n with
  | Z.pos p => SFdiv prec emax (S754_finite false p 0) (S754_finite false 100 0)
  | _ => zero
  end.

Lemma binary_round_aux_at_most MB eB m e l :
  0 < MB -> fexp prec emax (Zdigits2 MB + eB) <= eB -> eB <= emax - prec ->
  below MB eB m e l ->
  at_most MB eB (binary_round_aux prec emax false m e l).
Proof. intros. now apply binary_round_aux_below. Qed.

Lemma new_location_zero t : new_location t 0 = loc_Exact.
Proof. unfold new_location. now destruct (Z.even t). Qed.

(** The quotient the division hands to the rounding, for integer operands
    [c] and [t] with [c / t <= MB * 2^eB]. *)
Lemma div_core_below MB eB c t :
  0 < c -> 0 < t -> 0 < MB -> 0 <= eB -> c <= MB * 2 ^ eB * t ->
  forall q e l, SFdiv_core_binary prec emax c 0 t 0 = (q, e, l) ->
                below MB eB q e l.
Proof.
  intros Hc Ht HMB HeB Hle q e l. unfold SFdiv_core_binary.
  set (e' := Z.min _ _).
  assert (He' : e' <= 0) by (subst e'; lia).
  set (m' := match 0 - 0 - e' with Z.pos _ => _ | Z0 => _ | Z.neg _ => _ end).
  assert (Hm' : m' = c * 2 ^ (- e')).
  { subst m'. destruct (0 - 0 - e') as [|p|p] eqn:Hs; try lia.
    - replace (- e') with 0 by lia. simpl. lia.
    - rewrite Z.shiftl_mul_pow2 by lia. do 2 f_equal; lia. }
  pose proof (Z_div_mod m' t ltac:(lia)) as Hdiv.
  destruct (Z.div_eucl m' t) as [q' r']. destruct Hdiv as [Hq Hr].
  intros [= <- <- <-].
  assert (Hp : 0 < 2 ^ (- e')) by (apply Z.pow_pos_nonneg; lia).
  assert (Hsplit : 2 ^ (eB - e') = 2 ^ eB * 2 ^ (- e')).
  { rewrite <- Z.pow_add_r by lia. f_equal; lia. }
  assert (HpB : 0 < 2 ^ eB) by (apply Z.pow_pos_nonneg; lia).
  rewrite Hm' in Hq.
  assert (Hbig : t * q' + r' <= t * (MB * 2 ^ (eB - e'))).
  { rewrite <- Hq, Hsplit. nia. }
  repeat split.
  - nia.
  - lia.
  - nia.
  - intros Heq. subst q'. assert (r' = 0) as -> by lia.
    apply new_location_zero.
Qed.

Lemma one_representable : fexp prec emax (Zdigits2 1 + 0) <= 0.
Proof. vm_compute. discriminate. Qed.

Lemma hundred_representable : fexp prec emax (Zdigits2 25 + 2) <= 2.
Proof. vm_compute. discriminate. Qed.

Lemma exponent_range eB : eB <= 2 -> eB <= emax - prec.
Proof. unfold emax, prec. lia. Qed.

(** A quotient of non-negative integers with [c <= t] is at most one. *)
Lemma int_truediv_at_most_one c t :
  0 <= c <= t -> 0 < t ->
  exists q, int_truediv c t = Return q /\ at_most 1 0 q.
Proof.
  intros [Hc Hct] Ht. unfold int_truediv.
  destruct (Z.eqb_spec t 0) as [|_]; [lia|].
  destruct c as [|pc|pc]; [| |lia].
  - exists (S754_zero false). destruct (Z.ltb_spec t 0); [lia|].
    split; [reflexivity | now left].
  - destruct t as [|pt|pt]; try lia. cbn [int_operand SFdiv xorb].
    destruct (SFdiv_core_binary prec emax (Z.pos pc) 0 (Z.pos pt) 0)
      as [[q e] l] eqn:Hcore.
    pose proof (div_core_below 1 0 (Z.pos pc) (Z.pos pt)
                  ltac:(lia) ltac:(lia) ltac:(lia) ltac:(lia) ltac:(simpl; lia)
                  q e l Hcore) as Hb.
    pose proof (binary_round_aux_at_most 1 0 q e l ltac:(lia)
                  one_representable (exponent_range 0 ltac:(lia)) Hb) as Hr.
    exists (binary_round_aux prec emax false q e l).
    split; [|exact Hr].
    destruct Hr as [-> | (m' & e' & -> & _)]; reflexivity.
Qed.

(** Multiplying by [100.0] a float of at most one gives at most 100. *)
Lemma mul_hundred_at_most q :
  at_most 1 0 q -> at_most 25 2 (mul q hundred).
Proof.
  intros [-> | (m & e & -> & Hm & He & Hle & _)]; [now left|].
  unfold mul, hundred. cbn [SFmul xorb].
  apply binary_round_aux_at_most;
    [lia | exact hundred_representable | exact (exponent_range 2 ltac:(lia)) |].
  rewrite Z.mul_1_l in Hle.
  assert (Hp : 0 < 2 ^ (0 - e)) by (apply Z.pow_pos_nonneg; lia).
  repeat split; try lia.
  replace (2 - (e + -46)) with (48 + (0 - e)) by lia.
  rewrite Z.pow_add_r, Pos2Z.inj_mul by lia.
  change (2 ^ 48) with 281474976710656. lia.
Qed.

Lemma nearest_even_scaled_le m e K :
  0 <= m -> 0 <= K ->
  (0 <= e -> m * 2 ^ e <= K) -> (e < 0 -> m <= K * 2 ^ (- e)) ->
  0 <= nearest_even_scaled m e <= K.
Proof.
  intros Hm HK Hpos Hneg. unfold nearest_even_scaled.
  destruct (Z.leb_spec 0 e) as [He|He].
  - specialize (Hpos He).
    assert (0 < 2 ^ e) by (apply Z.pow_pos_nonneg; lia). nia.
  - specialize (Hneg He).
    assert (Hd : 0 < 2 ^ (- e)) by (apply Z.pow_pos_nonneg; lia).
    pose proof (Z.div_mod m (2 ^ (- e)) ltac:(lia)) as Hdm.
    pose proof (Z.mod_pos_bound m (2 ^ (- e)) Hd) as Hr.
    assert (0 <= m / 2 ^ (- e)) by (apply Z.div_pos; lia).
    destruct (Z.compare_spec (2 * (m mod 2 ^ (- e))) (2 ^ (- e)));
      try destruct (Z.even _); nia.
Qed.

Lemma round2_at_most x :
  at_most 25 2 x -> exists r, round2 x = Return r /\ at_most 25 2 r.
Proof.
  intros [-> | (m & e & -> & Hm & He & Hle & _)].
  - exists (S754_zero false). split; [reflexivity | now left].
  - cbn [round2].
    pose proof (nearest_even_scaled_le (100 * Z.pos m) e 10000) as Hn.
    assert (Hp : 0 < 2 ^ (2 - e)) by (apply Z.pow_pos_nonneg; lia).
    destruct Hn as [Hn0 Hn1]; try lia.
    { intros He0.
      assert (2 ^ (2 - e) * 2 ^ e = 4).
      { rewrite <- Z.pow_add_r by lia. now replace (2 - e + e) with 2 by lia. }
      assert (0 < 2 ^ e) by (apply Z.pow_pos_nonneg; lia). nia. }
    { intros He0. replace (2 - e) with (2 + - e) in Hle by lia.
      rewrite Z.pow_add_r in Hle by lia. change (2 ^ 2) with 4 in Hle. lia. }
    destruct (nearest_even_scaled (100 * Z.pos m) e) as [|p|p]; [| |lia].
    + exists (S754_zero false). split; [reflexivity | now left].
    + cbn [SFdiv xorb].
      destruct (SFdiv_core_binary prec emax (Z.pos p) 0 100 0)
        as [[q e'] l] eqn:Hcore.
      pose proof (div_core_below 25 2 (Z.pos p) 100
                    ltac:(lia) ltac:(lia) ltac:(lia) ltac:(lia)
                    ltac:(simpl; lia) q e' l Hcore) as Hb.
      pose proof (binary_round_aux_at_most 25 2 q e' l ltac:(lia)
                    hundred_representable (exponent_range 2 ltac:(lia)) Hb) as Hr.
      exists (binary_round_aux prec emax false q e' l).
      split; [|exact Hr].
      destruct Hr as [-> | (m' & e'' & -> & _)]; reflexivity.
Qed.

Lemma at_most_hundred_in_range x : at_most 25 2 x -> in_range 0 100 x.
Proof.
  intros [-> | (m & e & -> & Hm & He & Hle & _)]; [simpl; lia|].
  cbn [in_range signed_mantissa].
  assert (Hp : 0 < 2 ^ (2 - e)) by (apply Z.pow_pos_nonneg; lia).
  destruct (Z.le_ge_cases 0 e) as [He0|He0].
  - rewrite (Z.max_l 0 (- e)), (Z.max_r 0 e) by lia.
    assert (2 ^ (2 - e) * 2 ^ e = 4).
    { rewrite <- Z.pow_add_r by lia. now replace (2 - e + e) with 2 by lia. }
    assert (0 < 2 ^ e) by (apply Z.pow_pos_nonneg; lia).
    change (2 ^ 0) with 1. nia.
  - rewrite (Z.max_r 0 (- e)), (Z.max_l 0 e) by lia.
    replace (2 - e) with (2 + - e) in Hle by lia.
    rewrite Z.pow_add_r in Hle by lia. change (2 ^ 2) with 4 in Hle.
    assert (0 < 2 ^ (- e)) by (apply Z.pow_pos_nonneg; lia).
    change (2 ^ 0) with 1. lia.
Qed.

Lemma hundred_at_most : at_most 25 2 hundred.
Proof.
  right. exists 7036874417766400%positive, (-46). split; [reflexivity|].
  repeat split; vm_compute; congruence.
Qed.

(** The percentage of a counter with non-negative counts is computed
    without an exception and is at most 100. *)
Lemma percentage_at_most missed covered :
  0 <= missed -> 0 <= covered ->
  exists p, percentage missed covered = Return p /\ at_most 25 2 p.
Proof.
  intros Hm Hc. unfold percentage.
  destruct (Z.ltb_spec 0 (missed + covered)) as [Ht|Ht].
  - destruct (int_truediv_at_most_one covered (missed + covered)) as (q & -> & Hq);
      [lia | lia |].
    exists (mul q hundred). split; [reflexivity | now apply mul_hundred_at_most].
  - exists hundred. split; [reflexivity | apply hundred_at_most].
Qed.

Lemma Zdigits2_upper B n : 0 < B < 2 ^ n -> Zdigits2 B <= n.
Proof.
  intros [HB Hn]. destruct B as [|p|p]; try lia. cbn [Zdigits2].
  pose proof (digits2_pos_bounds p) as [Hp _].
  assert (0 <= n).
  { destruct (Z.le_gt_cases 0 n); [assumption|].
    rewrite Z.pow_neg_r in Hn by lia. lia. }
  assert (H2 : 2 ^ (Z.pos (digits2_pos p) - 1) < 2 ^ n) by lia.
  apply Z.pow_lt_mono_r_iff in H2; lia.
Qed.

(** A bound of at most 53 bits is representable at its exponent. *)
Lemma representable B eB :
  0 < B < 2 ^ 53 -> -1074 <= eB -> fexp prec emax (Zdigits2 B + eB) <= eB.
Proof.
  intros HB He. pose proof (Zdigits2_upper B 53 HB).
  unfold fexp, emin, prec, emax in *. lia.
Qed.

(** The quotient the division hands to the rounding, for [0 < c <= t]:
    it lies between [a * 2^-47] and [(a + 1) * 2^-47], where [a] is the
    integer part of [c * 2^47 / t]. *)
Lemma div_core_between c t :
  0 < c <= t ->
  forall q e l, SFdiv_core_binary prec emax c 0 t 0 = (q, e, l) ->
    below (c * 2 ^ 47 / t + 1) (-47) q e l /\ above (c * 2 ^ 47 / t) (-47) q e.
Proof.
  intros [Hc Hct] q e l. unfold SFdiv_core_binary.
  pose proof (Zdigits2_le t 0 c 0 ltac:(lia) ltac:(lia) ltac:(lia)
                ltac:(simpl; lia)) as Hd.
  set (e' := Z.min _ _).
  assert (He' : e' <= -53).
  { subst e'. unfold fexp, emin, prec, emax. lia. }
  set (m' := match 0 - 0 - e' with Z.pos _ => _ | Z0 => _ | Z.neg _ => _ end).
  assert (Hm' : m' = c * 2 ^ (- e')).
  { subst m'. destruct (0 - 0 - e') as [|p|p] eqn:Hs; try lia.
    rewrite Z.shiftl_mul_pow2 by lia. do 2 f_equal; lia. }
  pose proof (Z_div_mod m' t ltac:(lia)) as Hdiv.
  destruct (Z.div_eucl m' t) as [q' r']. destruct Hdiv as [Hq Hr].
  intros [= <- <- <-].
  set (a := c * 2 ^ 47 / t).
  assert (Ha : a * t <= c * 2 ^ 47 < (a + 1) * t).
  { subst a. pose proof (Z.div_mod (c * 2 ^ 47) t ltac:(lia)).
    pose proof (Z.mod_pos_bound (c * 2 ^ 47) t ltac:(lia)). nia. }
  assert (Ha0 : 0 <= a) by (subst a; apply Z.div_pos; lia).
  set (K := 2 ^ (-47 - e')).
  assert (HK : 0 < K) by (apply Z.pow_pos_nonneg; lia).
  assert (Hsplit : 2 ^ (- e') = 2 ^ 47 * K).
  { subst K. rewrite <- Z.pow_add_r by lia. f_equal; lia. }
  rewrite Hm', Hsplit in Hq.
  assert (Hup : q' < (a + 1) * K).
  { assert (t * q' < t * ((a + 1) * K)); [|nia].
    assert (c * 2 ^ 47 * K < (a + 1) * t * K) by nia. nia. }
  assert (Hlow : a * K <= q').
  { assert (t * (a * K) < t * (q' + 1)); [|nia].
    assert (a * t * K <= c * 2 ^ 47 * K) by nia. nia. }
  split.
  - repeat split; try lia; fold K; nia.
  - split; [lia|]. fold K. lia.
Qed.

(** The quotient of integers [0 <= c <= t]. *)
Lemma int_truediv_between c t :
  0 <= c <= t -> 0 < t ->
  exists q, int_truediv c t = Return q /\
            between (c * 2 ^ 47 / t) (c * 2 ^ 47 / t + 1) (-47) q.
Proof.
  intros [Hc Hct] Ht. unfold int_truediv.
  destruct (Z.eqb_spec t 0) as [|_]; [lia|].
  destruct c as [|pc|pc]; [| |lia].
  - exists (S754_zero false). destruct (Z.ltb_spec t 0); [lia|].
    split; [reflexivity|]. left. split; [reflexivity | now rewrite Z.mul_0_l].
  - destruct t as [|pt|pt]; try lia. cbn [int_operand SFdiv xorb].
    destruct (SFdiv_core_binary prec emax (Z.pos pc) 0 (Z.pos pt) 0)
      as [[q e] l] eqn:Hcore.
    set (a := Z.pos pc * 2 ^ 47 / Z.pos pt).
    assert (Ha : 0 <= a <= 2 ^ 47).
    { subst a. split; [apply Z.div_pos; lia|].
      apply Z.div_le_upper_bound; lia. }
    destruct (div_core_between (Z.pos pc) (Z.pos pt) ltac:(lia) q e l Hcore)
      as [Hb Hab]. fold a in Hb, Hab.
    assert (Hrep : fexp prec emax (Zdigits2 (a + 1) + -47) <= -47).
    { apply representable; [|lia]. change (2 ^ 53) with 9007199254740992.
      change (2 ^ 47) with 140737488355328 in Ha. lia. }
    pose proof (binary_round_aux_between a (a + 1) (-47) ltac:(lia) Hrep
                  ltac:(unfold emax, prec; lia) q e l Hb Hab) as Hr.
    exists (binary_round_aux prec emax false q e l).
    split; [|exact Hr].
    destruct Hr as [[-> _] | (m' & e' & -> & _)]; reflexivity.
Qed.

(** Multiplying by [100.0] scales the enclosure by 100. *)
Lemma mul_hundred_between a q :
  0 <= a <= 2 ^ 47 ->
  between a (a + 1) (-47) q ->
  between (25 * a) (25 * (a + 1)) (-45) (mul q hundred).
Proof.
  intros Ha [[-> Ha0] | (m & e & -> & (Hm & He & Hle & _) & (_ & Hlow))].
  - left. split; [reflexivity | lia].
  - unfold mul, hundred. cbn [SFmul xorb].
    change (2 ^ 47) with 140737488355328 in Ha.
    apply binary_round_aux_between.
    + lia.
    + apply representable; [|lia]. change (2 ^ 53) with 9007199254740992. lia.
    + unfold emax, prec. lia.
    + assert (Hp : 0 < 2 ^ (-47 - e)) by (apply Z.pow_pos_nonneg; lia).
      repeat split; try lia.
      replace (-45 - (e + -46)) with (48 + (-47 - e)) by lia.
      rewrite Z.pow_add_r, Pos2Z.inj_mul by lia.
      change (2 ^ 48) with 281474976710656. lia.
    + assert (Hp : 0 < 2 ^ (-47 - e)) by (apply Z.pow_pos_nonneg; lia).
      split; [lia|].
      replace (-45 - (e + -46)) with (48 + (-47 - e)) by lia.
      rewrite Z.pow_add_r, Pos2Z.inj_mul by lia.
      change (2 ^ 48) with 281474976710656. lia.
Qed.

(** The integer nearest to [m * 2^e] is within half a unit of it. *)
Lemma nearest_even_scaled_near m e :
  e < 0 ->
  - 2 ^ (- e) <= 2 * (nearest_even_scaled m e * 2 ^ (- e) - m) <= 2 ^ (- e).
Proof.
  intros He. unfold nearest_even_scaled.
  destruct (Z.leb_spec 0 e) as [|_]; [lia|].
  assert (Hd : 0 < 2 ^ (- e)) by (apply Z.pow_pos_nonneg; lia).
  pose proof (Z.div_mod m (2 ^ (- e)) ltac:(lia)) as Hdm.
  pose proof (Z.mod_pos_bound m (2 ^ (- e)) Hd) as Hr.
  destruct (Z.compare_spec (2 * (m mod 2 ^ (- e))) (2 ^ (- e)));
    try destruct (Z.even _); nia.
Qed.

(** [round(x, 2)] of a percentage: the float nearest to [n / 100] for the
    integer [n] nearest to [100 * x]. *)
Lemma round2_near a x :
  0 <= a ->
  at_most 25 2 x ->
  between (25 * a) (25 * (a + 1)) (-45) x ->
  exists n, 0 <= n <= 10000 /\ round2 x = Return (hundredths n) /\
            5000 * a - 2 ^ 45 <= 2 ^ 46 * n <= 5000 * (a + 1) + 2 ^ 45.
Proof.
  intros Ha0 Hx Hbt. destruct (round2_at_most x Hx) as (r & Hr & _).
  destruct Hbt as [[-> Ha] | (m & e & -> & (_ & He & Hle & _) & (_ & Hlow))].
  - exists 0. split; [lia|]. split; [reflexivity|].
    change (2 ^ 45) with 35184372088832. lia.
  - destruct Hx as [Hx | (m0 & e0 & [= <- <-] & Hm & He2 & Hle2 & _)];
      [discriminate Hx|].
    set (n := nearest_even_scaled (100 * Z.pos m) e).
    pose proof (nearest_even_scaled_le (100 * Z.pos m) e 10000) as Hn.
    assert (Hp : 0 < 2 ^ (2 - e)) by (apply Z.pow_pos_nonneg; lia).
    destruct Hn as [Hn0 Hn1]; try lia.
    { intros He0. replace (2 - e) with (2 + - e) in Hle2 by lia.
      rewrite Z.pow_add_r in Hle2 by lia. change (2 ^ 2) with 4 in Hle2. lia. }
    fold n in Hn0, Hn1.
    exists n. split; [lia|]. split.
    + cbn [round2] in *. fold n in Hr |- *.
      destruct n as [|p|p]; [reflexivity| |lia].
      cbn [hundredths]. destruct (is_infinite _); [discriminate Hr | reflexivity].
    + pose proof (nearest_even_scaled_near (100 * Z.pos m) e ltac:(lia)) as Hnear.
      fold n in Hnear.
      set (D := 2 ^ (-45 - e)) in *.
      assert (HD : 0 < D) by (apply Z.pow_pos_nonneg; lia).
      assert (Hd : 2 ^ (- e) = 2 ^ 45 * D).
      { subst D. rewrite <- Z.pow_add_r by lia. f_equal; lia. }
      rewrite Hd in Hnear. change (2 ^ 46) with (2 * 2 ^ 45).
      change (2 ^ 45) with 35184372088832 in *.
      split.
      * assert ((5000 * a - 35184372088832) * D
                <= 2 * 35184372088832 * n * D) by nia. nia.
      * assert (2 * 35184372088832 * n * D
                <= (5000 * (a + 1) + 35184372088832) * D) by nia. nia.
Qed.

End PercentFacts.

(** ** The dashboard *)

Section DashboardFacts.

Import PyFloat Dashboard.
Local Open Scope Z_scope.

(** The four counts of one suite element. *)
Definition suite_counts (root : Element) : outcome totals :=
  tests ← int_attr root "tests";
  failures ← int_attr root "failures";
  errors ← int_attr root "errors";
  skipped ← int_attr root "skipped";
  mret {| t_tests := tests; t_failures := failures;
          t_errors := errors; t_skipped := skipped |}.

Definition add_totals (a b : totals) : totals :=
  {| t_tests := t_tests a + t_tests b;
     t_failures := t_failures a + t_failures b;
     t_errors := t_errors a + t_errors b;
     t_skipped := t_skipped a + t_skipped b |}.

Lemma add_report_counts acc root :
  add_report acc (Root root) = (c ← suite_counts root; mret (add_totals acc c)).
Proof.
  unfold add_report, suite_counts.
  destruct (int_attr root "tests"); [|reflexivity].
  destruct (int_attr root "failures"); [|reflexivity].
  destruct (int_attr root "errors"); [|reflexivity].
  destruct (int_attr root "skipped"); reflexivity.
Qed.

(** A suite whose counts are those of a real run: nothing negative, and no
    more failed, erroneous and skipped tests than tests. *)
Definition consistent (c : totals) : Prop :=
  0 <= t_failures c /\ 0 <= t_errors c /\ 0 <= t_skipped c /\
  t_failures c + t_errors c + t_skipped c <= t_tests c.

Definition consistent_report (report_file : parsed) : Prop :=
  match report_file with
  | Malformed => True
  | Root root => forall c, suite_counts root = Return c -> consistent c
  | Unreadable _ => True
  end.

(** Every attribute of the suite that is present is a number; a file that
    is no suite is one the loop passes over. *)
Definition numeric_report (report_file : parsed) : Prop :=
  match report_file with
  | Malformed => True
  | Root root => exists c, suite_counts root = Return c
  | Unreadable e => is_parse_error e = true
  end.

Lemma add_reports_consistent fs acc t :
  Forall consistent_report fs -> consistent acc ->
  add_reports acc fs = Return t -> consistent t.
Proof.
  intros Hfs. revert acc. induction Hfs as [|f fs Hf _ IH]; intros acc Hacc.
  - intros [= <-]. exact Hacc.
  - cbn [add_reports]. destruct f as [|root|e].
    + cbn. apply IH, Hacc.
    + rewrite add_report_counts.
      destruct (suite_counts root) as [c|e] eqn:Hc; [|discriminate].
      cbn. apply IH. specialize (Hf c Hc).
      unfold consistent, add_totals in *. cbn. lia.
    + cbn [add_report]. destruct (is_parse_error e); [|discriminate].
      cbn. apply IH, Hacc.
Qed.

Lemma add_reports_numeric fs acc :
  Forall numeric_report fs -> exists t, add_reports acc fs = Return t.
Proof.
  intros Hfs. revert acc. induction Hfs as [|f fs Hf _ IH]; intros acc.
  - now exists acc.
  - cbn [add_reports]. destruct f as [|root|e].
    + cbn. apply IH.
    + rewrite add_report_counts. destruct Hf as [c ->]. cbn. apply IH.
    + cbn [add_report numeric_report] in *. rewrite Hf. cbn. apply IH.
Qed.

(** What a returned dashboard is made of. *)
Lemma dashboard_parts w d :
  get_quality_dashboard w = Return d ->
  exists t,
    surefire_totals w = Return t /\
    jacoco_coverage w = Return (code_coverage_summary d) /\
    test_run_summary d
    = {| total_tests := t_tests t;
         passed := t_tests t - (t_failures t + t_errors t + t_skipped t);
         failures := t_failures t;
         errors := t_errors t;
         skipped := t_skipped t |}.
Proof.
  unfold get_quality_dashboard.
  destruct (surefire_totals w) as [t|]; [|discriminate].
  cbn. destruct (jacoco_coverage w) as [cov|]; [|discriminate].
  cbn. intros [= <-]. now exists t.
Qed.

Lemma dashboard_returns w t cov :
  surefire_totals w = Return t -> jacoco_coverage w = Return cov ->
  get_quality_dashboard w
  = Return {| test_run_summary :=
                {| total_tests := t_tests t;
                   passed := t_tests t - (t_failures t + t_errors t + t_skipped t);
                   failures := t_failures t;
                   errors := t_errors t;
                   skipped := t_skipped t |};
              code_coverage_summary := cov |}.
Proof. intros Ht Hc. unfold get_quality_dashboard. now rewrite Ht, Hc. Qed.

(** The reports the call reads. *)
Definition reports_read (w : world) : list parsed :=
  match surefire_reports w with
  | Some fs => fs
  | None => []
  end.

Lemma surefire_totals_reports w :
  surefire_totals w = add_reports no_totals (reports_read w).
Proof. unfold surefire_totals, reports_read. now destruct (surefire_reports w). Qed.

(** *** Coverage counters *)

Inductive kind := LINE | BRANCH | METHOD.

#[local] Instance kind_eq_dec : EqDecision kind.
Proof. solve_decision. Defined.

Definition kind_name (k : kind) : string :=
  match k with
  | LINE => "LINE"
  | BRANCH => "BRANCH"
  | METHOD => "METHOD"
  end.

Definition field (k : kind) (cov : CoverageSummary) : float :=
  match k with
  | LINE => line_coverage_percent cov
  | BRANCH => branch_coverage_percent cov
  | METHOD => method_coverage_percent cov
  end.

Definition set_field (k : kind) (r : float) (cov : CoverageSummary) : CoverageSummary :=
  match k with
  | LINE => {| line_coverage_percent := r;
               branch_coverage_percent := branch_coverage_percent cov;
               method_coverage_percent := method_coverage_percent cov |}
  | BRANCH => {| line_coverage_percent := line_coverage_percent cov;
                 branch_coverage_percent := r;
                 method_coverage_percent := method_coverage_percent cov |}
  | METHOD => {| line_coverage_percent := line_coverage_percent cov;
                 branch_coverage_percent := branch_coverage_percent cov;
                 method_coverage_percent := r |}
  end.

Definition kind_of (counter_type : option string) : option kind :=
  if type_is counter_type "LINE" then Some LINE
  else if type_is counter_type "BRANCH" then Some BRANCH
  else if type_is counter_type "METHOD" then Some METHOD
  else None.

(** [round(percentage, 2)] of a counter. *)
Definition rounded_percentage (missed covered : Z) : outcome float :=
  pct ← percentage missed covered; round2 pct.

(** Both counts of the counter are numbers, none negative. *)
Definition counts_ok (counter : Element) : Prop :=
  exists missed covered,
    int_attr counter "missed" = Return missed /\
    int_attr counter "covered" = Return covered /\
    0 <= missed /\ 0 <= covered.

Lemma kind_of_name k : kind_of (Some (kind_name k)) = Some k.
Proof. now destruct k. Qed.

Lemma kind_of_Some t k : kind_of t = Some k -> t = Some (kind_name k).
Proof.
  unfold kind_of, type_is. destruct t as [t|]; [|discriminate].
  destruct (String.eqb_spec t "LINE") as [->|_]; [now intros [= <-]|].
  destruct (String.eqb_spec t "BRANCH") as [->|_]; [now intros [= <-]|].
  destruct (String.eqb_spec t "METHOD") as [->|_]; [now intros [= <-]|].
  discriminate.
Qed.

Lemma field_set_field k k' r cov :
  field k (set_field k' r cov) = if decide (k = k') then r else field k cov.
Proof. destruct k, k'; reflexivity. Qed.

Lemma rounded_percentage_at_most missed covered :
  0 <= missed -> 0 <= covered ->
  exists r, rounded_percentage missed covered = Return r /\ at_most 25 2 r.
Proof.
  intros Hm Hc. unfold rounded_percentage.
  destruct (percentage_at_most missed covered Hm Hc) as (p & -> & Hp).
  cbn. now apply round2_at_most.
Qed.

(** The percentage reported for a counter with non-negative counts, not
    both zero: the float nearest to [n / 100], where the integer [n] is
    within [1/2 + 5000 / 2^46] of [10000 * covered / (missed + covered)]. *)
Lemma rounded_percentage_near missed covered :
  0 <= missed -> 0 <= covered -> 0 < missed + covered ->
  exists n, 0 <= n <= 10000 /\
            rounded_percentage missed covered = Return (hundredths n) /\
            2 ^ 46 * Z.abs (n * (missed + covered) - 10000 * covered)
            <= (2 ^ 45 + 5000) * (missed + covered).
Proof.
  intros Hm Hc Ht. unfold rounded_percentage.
  destruct (percentage_at_most missed covered Hm Hc) as (p & Hp & Hle).
  rewrite Hp. cbn [mbind outcome_bind].
  set (t := missed + covered) in *.
  unfold percentage in Hp. fold t in Hp.
  destruct (Z.ltb_spec 0 t) as [_|]; [|lia].
  destruct (int_truediv_between covered t ltac:(lia) Ht) as (q & Hq & Hbt).
  rewrite Hq in Hp. cbn [mbind outcome_bind mret outcome_ret] in Hp.
  injection Hp as <-.
  set (a := covered * 2 ^ 47 / t) in *.
  assert (Hat : a * t <= covered * 2 ^ 47 < (a + 1) * t).
  { subst a. pose proof (Z.div_mod (covered * 2 ^ 47) t ltac:(lia)).
    pose proof (Z.mod_pos_bound (covered * 2 ^ 47) t ltac:(lia)). nia. }
  assert (Ha : 0 <= a <= 2 ^ 47).
  { subst a. split; [apply Z.div_pos; lia|].
    apply Z.div_le_upper_bound; lia. }
  pose proof (mul_hundred_between a q Ha Hbt) as Hbp.
  destruct (round2_near a _ ltac:(lia) Hle Hbp) as (n & Hn & Hr & Hnear).
  exists n. split; [exact Hn|]. split; [exact Hr|].
  change (2 ^ 47) with 140737488355328 in *.
  change (2 ^ 46) with 70368744177664 in *.
  change (2 ^ 45) with 35184372088832 in *.
  apply Z.abs_le. nia.
Qed.

Lemma add_counter_spec cov c missed covered :
  int_attr c "missed" = Return missed ->
  int_attr c "covered" = Return covered ->
  0 <= missed -> 0 <= covered ->
  exists r,
    rounded_percentage missed covered = Return r /\ at_most 25 2 r /\
    add_counter cov c
    = Return match kind_of (get c "type") with
             | Some k => set_field k r cov
             | None => cov
             end.
Proof.
  intros Hmi Hco Hm Hc.
  destruct (rounded_percentage_at_most missed covered Hm Hc) as (r & Hr & Hle).
  exists r. repeat split; [assumption | assumption |].
  unfold add_counter, kind_of. rewrite Hmi, Hco. cbn [mbind outcome_bind].
  unfold rounded_percentage in Hr.
  destruct (percentage missed covered) as [p|]; [|discriminate].
  cbn [mbind outcome_bind] in *.
  destruct (type_is _ "LINE"); [now rewrite Hr|].
  destruct (type_is _ "BRANCH"); [now rewrite Hr|].
  destruct (type_is _ "METHOD"); [now rewrite Hr|].
  reflexivity.
Qed.

Definition other_type (k : kind) (c : Element) : Prop :=
  get c "type" <> Some (kind_name k).

Lemma add_counters_spec cs :
  Forall counts_ok cs ->
  forall cov,
    (forall k, at_most 25 2 (field k cov)) ->
    exists cov',
      add_counters cov cs = Return cov' /\
      (forall k, at_most 25 2 (field k cov')) /\
      (forall k, Forall (other_type k) cs -> field k cov' = field k cov) /\
      (forall k pre c post missed covered,
          cs = (pre ++ c :: post)%list ->
          get c "type" = Some (kind_name k) ->
          Forall (other_type k) post ->
          int_attr c "missed" = Return missed ->
          int_attr c "covered" = Return covered ->
          rounded_percentage missed covered = Return (field k cov')).
Proof.
  induction 1 as [|c cs Hc _ IH]; intros cov Hcov.
  - exists cov. repeat split; auto.
    intros k pre c post missed covered Heq. now destruct pre.
  - destruct Hc as (missed & covered & Hmi & Hco & Hm & Hv).
    destruct (add_counter_spec cov c missed covered Hmi Hco Hm Hv)
      as (r & Hr & Hle & Hadd).
    set (cov1 := match kind_of (get c "type") with
                 | Some k => set_field k r cov
                 | None => cov
                 end) in *.
    assert (Hcov1 : forall k, at_most 25 2 (field k cov1)).
    { intros k. subst cov1. destruct (kind_of _) as [k'|]; [|apply Hcov].
      rewrite field_set_field. destruct (decide (k = k')); [exact Hle | apply Hcov]. }
    destruct (IH cov1 Hcov1) as (cov' & Hrun & Hb & Hkeep & Hlast).
    exists cov'. cbn [add_counters]. rewrite Hadd. cbn [mbind outcome_bind].
    repeat split; [exact Hrun | exact Hb | |].
    + intros k Ho. inversion Ho as [|? ? Hhead Htail]; subst.
      rewrite (Hkeep k Htail). subst cov1.
      destruct (kind_of _) as [k'|] eqn:Hk; [|reflexivity].
      rewrite field_set_field. destruct (decide (k = k')) as [->|]; [|reflexivity].
      apply kind_of_Some in Hk. now elim Hhead.
    + intros k pre c0 post m0 v0 Heq Hty Hpost Hmi0 Hco0.
      destruct pre as [|x pre]; cbn in Heq; injection Heq as -> ->.
      * rewrite (Hkeep k Hpost). subst cov1.
        rewrite Hty, kind_of_name, field_set_field.
        destruct (decide (k = k)); [|congruence].
        rewrite Hmi in Hmi0. rewrite Hco in Hco0.
        injection Hmi0 as <-. injection Hco0 as <-. exact Hr.
      * eapply Hlast; eauto.
Qed.

Lemma no_coverage_at_most k : at_most 25 2 (field k no_coverage).
Proof. destruct k; now left. Qed.

End DashboardFacts.

(** A Surefire suite element with the given attributes. *)
Definition testsuite (attributes : gmap string string) : Element :=
  mkElement "testsuite" attributes None [].

(** A suite reporting one test and two failures. *)
Definition overdrawn_world : Dashboard.world :=
  {| Dashboard.surefire_reports :=
       Some [Root (testsuite {[ "tests" := "1"; "failures" := "2" ]})];
     Dashboard.jacoco_xml := None |}.

(** C1, as the claim states it: the aggregated [passed] count is not
    clamped. One suite with [tests="1"] and [failures="2"] gives [-1]. *)
Lemma passed_count_negative_counterexample :
  exists d,
    Dashboard.get_quality_dashboard overdrawn_world = Return d /\
    Dashboard.total_tests (Dashboard.test_run_summary d) = 1 /\
    Dashboard.failures (Dashboard.test_run_summary d) = 2 /\
    Dashboard.passed (Dashboard.test_run_summary d) = -1 /\
    ~ 0 <= Dashboard.passed (Dashboard.test_run_summary d).
Proof.
  exists {| Dashboard.test_run_summary :=
              {| Dashboard.total_tests := 1; Dashboard.passed := -1;
                 Dashboard.failures := 2; Dashboard.errors := 0;
                 Dashboard.skipped := 0 |};
            Dashboard.code_coverage_summary := Dashboard.no_coverage |}.
  split; [vm_compute; reflexivity|]. cbn. repeat split; lia.
Qed.

(** C1, amended. The summary satisfies
    [passed = total - (failed + errored + skipped)] exactly, with no
    clamping; the five counts are non-negative when every suite read has
    non-negative failure, error and skip counts that sum to at most its
    number of tests. *)
Theorem passed_is_unclamped_difference :
  forall (w : Dashboard.world) (d : Dashboard.dashboard),
    Dashboard.get_quality_dashboard w = Return d ->
    let s := Dashboard.test_run_summary d in
    Dashboard.passed s
    = Dashboard.total_tests s
      - (Dashboard.failures s + Dashboard.errors s + Dashboard.skipped s) /\
    (Forall consistent_report (reports_read w) ->
     0 <= Dashboard.total_tests s /\ 0 <= Dashboard.passed s /\
     0 <= Dashboard.failures s /\ 0 <= Dashboard.errors s /\
     0 <= Dashboard.skipped s).
Proof.
  intros w d Hd. destruct (dashboard_parts w d Hd) as (t & Ht & _ & Hs).
  cbn zeta. rewrite Hs. cbn. split; [reflexivity|].
  intros Hfs. rewrite surefire_totals_reports in Ht.
  assert (Hc : consistent t).
  { apply (add_reports_consistent _ _ _ Hfs) in Ht; [assumption|].
    unfold consistent. cbn. lia. }
  unfold consistent in Hc. lia.
Qed.

Lemma passed_is_unclamped_difference_witness :
  exists d,
    Dashboard.get_quality_dashboard overdrawn_world = Return d /\
    Dashboard.passed (Dashboard.test_run_summary d)
    = Dashboard.total_tests (Dashboard.test_run_summary d)
      - (Dashboard.failures (Dashboard.test_run_summary d)
         + Dashboard.errors (Dashboard.test_run_summary d)
         + Dashboard.skipped (Dashboard.test_run_summary d)).
Proof.
  eexists. split; [reflexivity|].
  eapply (proj1 (passed_is_unclamped_difference overdrawn_world _ eq_refl)).
Defined.

(** A suite whose [tests] attribute is there but is no number. *)
Definition non_numeric_world : Dashboard.world :=
  {| Dashboard.surefire_reports := Some [Root (testsuite {[ "tests" := "abc" ]})];
     Dashboard.jacoco_xml := None |}.

(** C2. On a suite with [tests="abc"] the call does not default the value
    nor skip the file: the [ValueError] of the conversion leaves the
    function, whereas the claim asks for a result that is data. *)
Theorem dashboard_raises_on_non_numeric_attribute :
  Dashboard.get_quality_dashboard non_numeric_world
  = Raise (Exn ValueError "invalid literal for int() with base 10: 'abc'").
Proof. reflexivity. Qed.

(** C3. Whenever the dashboard is returned, its test summary satisfies
    [passed + failures + errors + skipped = total_tests]; and it is returned
    whenever the suites read have numeric attributes and the coverage half
    does not raise. *)
Theorem test_counts_add_up :
  forall w : Dashboard.world,
    (forall d, Dashboard.get_quality_dashboard w = Return d ->
       let s := Dashboard.test_run_summary d in
       Dashboard.passed s + Dashboard.failures s + Dashboard.errors s
       + Dashboard.skipped s = Dashboard.total_tests s) /\
    (Forall numeric_report (reports_read w) ->
     (exists cov, Dashboard.jacoco_coverage w = Return cov) ->
     exists d, Dashboard.get_quality_dashboard w = Return d).
Proof.
  intros w. split.
  - intros d Hd. destruct (dashboard_parts w d Hd) as (t & _ & _ & Hs).
    cbn zeta. rewrite Hs. cbn. lia.
  - intros Hfs [cov Hcov].
    destruct (add_reports_numeric _ Dashboard.no_totals Hfs) as [t Ht].
    rewrite <- surefire_totals_reports in Ht.
    eexists. apply (dashboard_returns w t cov Ht Hcov).
Qed.

Lemma test_counts_add_up_witness :
  exists d,
    Dashboard.get_quality_dashboard overdrawn_world = Return d /\
    Dashboard.passed (Dashboard.test_run_summary d)
    + Dashboard.failures (Dashboard.test_run_summary d)
    + Dashboard.errors (Dashboard.test_run_summary d)
    + Dashboard.skipped (Dashboard.test_run_summary d)
    = Dashboard.total_tests (Dashboard.test_run_summary d).
Proof.
  destruct (proj2 (test_counts_add_up overdrawn_world)) as [d Hd].
  - repeat constructor. eexists. reflexivity.
  - eexists. reflexivity.
  - exists d. split; [exact Hd|].
    exact (proj1 (test_counts_add_up overdrawn_world) d Hd).
Defined.

(** A JaCoCo counter element. *)
Definition counter (type missed covered : string) : Element :=
  mkElement "counter"
    {[ "type" := type; "missed" := missed; "covered" := covered ]} None [].

(** A report with 2 of 3 lines covered, no branch at all and 1 of 800
    methods covered. *)
Definition sample_jacoco : Element :=
  mkElement "report" {[ "name" := "demo" ]} None
    [ counter "INSTRUCTION" "7" "21";
      counter "LINE" "1" "2";
      counter "BRANCH" "0" "0";
      counter "METHOD" "799" "1" ].

Definition sample_world : Dashboard.world :=
  {| Dashboard.surefire_reports := None;
     Dashboard.jacoco_xml := Some (Root sample_jacoco) |}.

(** A report whose LINE counter has a negative count of missed lines, and
    one with two LINE counters. *)
Definition negative_count_world : Dashboard.world :=
  {| Dashboard.surefire_reports := None;
     Dashboard.jacoco_xml :=
       Some (Root (mkElement "report" ∅ None [counter "LINE" "-1" "3"])) |}.

Definition repeated_counter_world : Dashboard.world :=
  {| Dashboard.surefire_reports := None;
     Dashboard.jacoco_xml :=
       Some (Root (mkElement "report" ∅ None
                     [counter "LINE" "1" "1"; counter "LINE" "0" "1"])) |}.

(** C4, as the claim words it, fails on two accounts.  A counter with a
    negative count is reported outside [0, 100]: [missed="-1"] and
    [covered="3"] give [150.0].  And of two counters of one type only the
    last one is reported: after LINE 1/1 and LINE 0/1 the dashboard says
    [100.0], the [50.0] of the first counter is lost. *)
Lemma coverage_percentage_counterexample :
  (exists d,
      Dashboard.get_quality_dashboard negative_count_world = Return d /\
      Dashboard.line_coverage_percent (Dashboard.code_coverage_summary d)
      = S754_finite false 5277655813324800 (-45) /\
      hundredths 15000 = S754_finite false 5277655813324800 (-45) /\
      ~ PyFloat.in_range 0 100
          (Dashboard.line_coverage_percent (Dashboard.code_coverage_summary d)))
  /\
  (exists d,
      Dashboard.get_quality_dashboard repeated_counter_world = Return d /\
      Dashboard.line_coverage_percent (Dashboard.code_coverage_summary d)
      = PyFloat.hundred /\
      PyFloat.hundred <> hundredths 5000).
Proof.
  split.
  - eexists. split; [vm_compute; reflexivity|].
    cbn [Dashboard.code_coverage_summary Dashboard.line_coverage_percent].
    split; [reflexivity|]. split; [vm_compute; reflexivity|].
    intros [_ H]. vm_compute in H. now apply H.
  - eexists. split; [vm_compute; reflexivity|].
    cbn [Dashboard.code_coverage_summary Dashboard.line_coverage_percent].
    split; [reflexivity|]. vm_compute. discriminate.
Qed.

(** C4, amended. For a report whose top-level counters carry non-negative
    counts the dashboard is returned and each of its three percentages lies
    in [0, 100].  The percentage of a kind is that of the last counter of
    the kind: [100.0] when [missed] and [covered] are both zero, and
    otherwise the float nearest to [n / 100], where the integer [n] is
    [10000 * covered / (missed + covered)] rounded to the nearest integer,
    up to the error of the two float operations before it:
    [|n - 10000 * covered / (missed + covered)| <= 1/2 + 5000 / 2^46]. *)
Theorem coverage_percentages :
  forall (w : Dashboard.world) (root : Element),
    Dashboard.jacoco_xml w = Some (Root root) ->
    (exists t, Dashboard.surefire_totals w = Return t) ->
    Forall counts_ok (findall ["counter"] root) ->
    exists d,
      Dashboard.get_quality_dashboard w = Return d /\
      (forall k, PyFloat.in_range 0 100 (field k (Dashboard.code_coverage_summary d))) /\
      (forall k pre c post missed covered,
          findall ["counter"] root = (pre ++ c :: post)%list ->
          get c "type" = Some (kind_name k) ->
          Forall (other_type k) post ->
          Dashboard.int_attr c "missed" = Return missed ->
          Dashboard.int_attr c "covered" = Return covered ->
          (missed = 0 -> covered = 0 ->
           field k (Dashboard.code_coverage_summary d) = PyFloat.hundred) /\
          (0 < missed + covered ->
           exists n,
             0 <= n <= 10000 /\
             field k (Dashboard.code_coverage_summary d) = hundredths n /\
             2 ^ 46 * Z.abs (n * (missed + covered) - 10000 * covered)
             <= (2 ^ 45 + 5000) * (missed + covered))).
Proof.
  intros w root Hx [t Ht] Hcs.
  destruct (add_counters_spec _ Hcs Dashboard.no_coverage no_coverage_at_most)
    as (cov & Hrun & Hb & _ & Hlast).
  assert (Hcov : Dashboard.jacoco_coverage w = Return cov).
  { unfold Dashboard.jacoco_coverage. now rewrite Hx. }
  eexists. split; [apply (dashboard_returns w t cov Ht Hcov)|].
  cbn [Dashboard.code_coverage_summary]. split.
  - intros k. apply at_most_hundred_in_range, Hb.
  - intros k pre c post missed covered Heq Hty Hpost Hmi Hco.
    pose proof (Hlast k pre c post missed covered Heq Hty Hpost Hmi Hco) as Hr.
    split.
    + intros -> ->.
      change (rounded_percentage 0 0) with (Return PyFloat.hundred) in Hr.
      now injection Hr.
    + intros Htot.
      assert (Hin : c ∈ findall ["counter"] root).
      { rewrite Heq. apply elem_of_app. right. apply elem_of_cons. now left. }
      rewrite Forall_forall in Hcs.
      destruct (Hcs c Hin) as (m0 & c0 & Hm0 & Hc0 & Hmn & Hcn).
      rewrite Hmi in Hm0. rewrite Hco in Hc0.
      injection Hm0 as <-. injection Hc0 as <-.
      destruct (rounded_percentage_near missed covered Hmn Hcn Htot)
        as (n & Hn & Hrn & Hnear).
      rewrite Hrn in Hr. injection Hr as Hr.
      exists n. split; [exact Hn|]. split; [now symmetry | exact Hnear].
Qed.

Lemma coverage_percentages_witness :
  exists d,
    Dashboard.get_quality_dashboard sample_world = Return d /\
    Dashboard.code_coverage_summary d
    = {| Dashboard.line_coverage_percent :=
           S754_finite false 4691484174324859 (-46);
         Dashboard.branch_coverage_percent :=
           S754_finite false 7036874417766400 (-46);
         Dashboard.method_coverage_percent :=
           S754_finite false 8646911284551352 (-56) |} /\
    (forall k, PyFloat.in_range 0 100 (field k (Dashboard.code_coverage_summary d))) /\
    field LINE (Dashboard.code_coverage_summary d) = hundredths 6667 /\
    field BRANCH (Dashboard.code_coverage_summary d) = PyFloat.hundred.
Proof.
  destruct (coverage_percentages sample_world sample_jacoco) as (d & Hd & Hr & Hl).
  - reflexivity.
  - eexists. reflexivity.
  - repeat constructor.
    + exists 7, 21. repeat split; [vm_compute; reflexivity .. | lia | lia].
    + exists 1, 2. repeat split; [vm_compute; reflexivity .. | lia | lia].
    + exists 0, 0. repeat split; [vm_compute; reflexivity .. | lia | lia].
    + exists 799, 1. repeat split; [vm_compute; reflexivity .. | lia | lia].
  - exists d. split; [exact Hd|].
    split; [vm_compute in Hd; injection Hd as <-; reflexivity|].
    split; [exact Hr|]. split.
    + destruct (Hl LINE [counter "INSTRUCTION" "7" "21"]
                   (counter "LINE" "1" "2")
                   [counter "BRANCH" "0" "0"; counter "METHOD" "799" "1"] 1 2)
        as [_ Hline].
      * reflexivity.
      * reflexivity.
      * repeat constructor; unfold other_type; vm_compute; discriminate.
      * vm_compute; reflexivity.
      * vm_compute; reflexivity.
      * destruct (Hline ltac:(lia)) as (n & Hn & Hf & Hnear).
        rewrite Hf. f_equal.
        change (2 ^ 46) with 70368744177664 in Hnear.
        change (2 ^ 45) with 35184372088832 in Hnear. lia.
    + apply (Hl BRANCH [counter "INSTRUCTION" "7" "21"; counter "LINE" "1" "2"]
                (counter "BRANCH" "0" "0") [counter "METHOD" "799" "1"] 0 0).
      * reflexivity.
      * reflexivity.
      * repeat constructor. unfold other_type. vm_compute. discriminate.
      * vm_compute; reflexivity.
      * vm_compute; reflexivity.
      * reflexivity.
      * reflexivity.
Defined.

(** ** Uncovered lines *)

Section CoverageFacts.

Import Coverage.
Local Open Scope Z_scope.

(** The missed-instruction count of the line is present, numeric and
    positive. *)
Definition missed_positive (line : Element) : Prop :=
  exists s n, get line "mi" = Some s /\ int_of_str s = Return n /\ 0 < n.

Lemma add_line_cases acc line :
  add_line acc line = acc \/
  (missed_positive line /\ exists n, add_line acc line = (acc ++ [n])%list).
Proof.
  unfold add_line.
  destruct (get line "mi") as [mi|] eqn:Hmi; [|now left].
  destruct (get line "nr") as [nr|]; [|now left].
  destruct (int_of_str mi) as [m|] eqn:Hm; cbn; [|now left].
  destruct (Z.ltb_spec 0 m) as [Hpos|]; [|now left].
  destruct (int_of_str nr) as [n|]; cbn; [|now left].
  right. split; [|now exists n]. now exists mi, m.
Qed.

Lemma fold_add_line lines acc :
  fold_left add_line lines acc = acc \/
  exists line, line ∈ lines /\ missed_positive line.
Proof.
  revert acc. induction lines as [|l lines IH]; intros acc; [now left|].
  cbn [fold_left].
  destruct (add_line_cases acc l) as [-> | [Hp _]].
  - destruct (IH acc) as [-> | (line & Hin & Hp)]; [now left|].
    right. exists line. split; [now right | assumption].
  - right. exists l. split; [now left | assumption].
Qed.

Lemma uncovered_lines_witness class_elem :
  uncovered_lines_of class_elem <> [] ->
  exists line,
    line ∈ findall ["sourcefile"; "line"] class_elem /\ missed_positive line.
Proof.
  intros Hne. unfold uncovered_lines_of in Hne.
  destruct (fold_add_line (findall ["sourcefile"; "line"] class_elem) [])
    as [Heq | H]; [congruence | exact H].
Qed.

Lemma StronglySorted_le_lt (l : list Z) :
  StronglySorted Z.le l -> NoDup l -> StronglySorted Z.lt l.
Proof.
  induction 1 as [|x l Hs IH Hall]; intros Hnd; constructor.
  - apply IH. now apply NoDup_cons in Hnd.
  - apply NoDup_cons in Hnd as [Hx _]. apply Forall_forall. intros y Hy.
    rewrite Forall_forall in Hall. specialize (Hall y Hy).
    assert (x <> y) by (intros ->; auto). lia.
Qed.

Lemma sorted_set_elem xs n : n ∈ sorted_set xs <-> n ∈ xs.
Proof.
  unfold sorted_set. rewrite merge_sort_Permutation, elem_of_elements.
  apply elem_of_list_to_set.
Qed.

Lemma sorted_set_NoDup xs : NoDup (sorted_set xs).
Proof.
  unfold sorted_set. rewrite merge_sort_Permutation. apply NoDup_elements.
Qed.

Lemma sorted_set_ascending xs : StronglySorted Z.lt (sorted_set xs).
Proof.
  apply StronglySorted_le_lt; [|apply sorted_set_NoDup].
  unfold sorted_set. apply StronglySorted_merge_sort; apply _.
Qed.

Lemma sorted_set_nonempty xs : xs <> [] -> sorted_set xs <> [].
Proof.
  destruct xs as [|x xs]; [congruence|]. intros _ Hnil.
  assert (Hx : x ∈ sorted_set (x :: xs)) by (apply sorted_set_elem; now left).
  rewrite Hnil in Hx. now apply elem_of_nil in Hx.
Qed.

(** The entry a class of the package named [package_name] contributes. *)
Definition entry_of (package_name : option string) (class_elem : Element)
    (name : string) (lines : list Z) : Prop :=
  full_class_name package_name (get class_elem "name") = Return name /\
  lines = sorted_set (uncovered_lines_of class_elem) /\
  uncovered_lines_of class_elem <> [].

Lemma add_class_entries package_name m class_elem m' :
  add_class package_name m class_elem = Return m' ->
  forall name lines, m' !! name = Some lines ->
    m !! name = Some lines \/ entry_of package_name class_elem name lines.
Proof.
  unfold add_class. intros H name lines Hl.
  destruct (uncovered_lines_of class_elem) as [|x xs] eqn:Hu.
  - injection H as <-. now left.
  - destruct (full_class_name _ _) as [key|] eqn:Hk; [|discriminate].
    cbn in H. injection H as <-.
    destruct (decide (key = name)) as [->|Hne].
    + rewrite lookup_insert_eq in Hl. injection Hl as <-.
      right. unfold entry_of. rewrite Hu. repeat split; congruence.
    + rewrite lookup_insert_ne in Hl by assumption. now left.
Qed.

Lemma add_classes_entries package_name classes m m' :
  add_classes package_name m classes = Return m' ->
  forall name lines, m' !! name = Some lines ->
    m !! name = Some lines \/
    exists class_elem, class_elem ∈ classes /\
                       entry_of package_name class_elem name lines.
Proof.
  revert m. induction classes as [|c cs IH]; intros m H name lines Hl.
  - injection H as <-. now left.
  - cbn [add_classes] in H.
    destruct (add_class package_name m c) as [m1|] eqn:H1; [|discriminate].
    cbn in H. destruct (IH m1 H name lines Hl) as [Hm1 | (c' & Hin & He)].
    + destruct (add_class_entries _ _ _ _ H1 name lines Hm1) as [? | He];
        [now left|].
      right. exists c. split; [now left | assumption].
    + right. exists c'. split; [now right | assumption].
Qed.

Lemma add_packages_entries packages m m' :
  add_packages m packages = Return m' ->
  forall name lines, m' !! name = Some lines ->
    m !! name = Some lines \/
    exists package class_elem,
      package ∈ packages /\ class_elem ∈ findall ["class"] package /\
      entry_of (get package "name") class_elem name lines.
Proof.
  revert m. induction packages as [|p ps IH]; intros m H name lines Hl.
  - injection H as <-. now left.
  - cbn [add_packages] in H.
    destruct (add_classes _ m _) as [m1|] eqn:H1; [|discriminate].
    cbn in H. destruct (IH m1 H name lines Hl) as [Hm1 | (p' & c & Hp & Hc & He)].
    + destruct (add_classes_entries _ _ _ _ H1 name lines Hm1)
        as [? | (c & Hc & He)]; [now left|].
      right. exists p, c. split; [now left | now split].
    + right. exists p', c. split; [now right | now split].
Qed.

(** Packages and classes all carry their [name] attribute. *)
Definition named_classes (package : Element) : Prop :=
  is_Some (get package "name") /\
  Forall (fun class_elem => is_Some (get class_elem "name"))
         (findall ["class"] package).

Lemma add_classes_named package_name classes m :
  is_Some package_name ->
  Forall (fun class_elem => is_Some (get class_elem "name")) classes ->
  exists m', add_classes package_name m classes = Return m'.
Proof.
  intros [pn ->] Hcs. revert m.
  induction Hcs as [|c cs [cn Hc] _ IH]; intros m; [now exists m|].
  cbn [add_classes]. unfold add_class. rewrite Hc.
  destruct (uncovered_lines_of c); cbn; apply IH.
Qed.

Lemma add_packages_named packages m :
  Forall named_classes packages ->
  exists m', add_packages m packages = Return m'.
Proof.
  intros Hps. revert m.
  induction Hps as [|p ps [Hp Hcs] _ IH]; intros m; [now exists m|].
  cbn [add_packages].
  destruct (add_classes_named _ _ m Hp Hcs) as [m1 ->]. cbn. apply IH.
Qed.

End CoverageFacts.

(** C5. For a report whose packages and classes are named, the answer is
    either the "100% Coverage!" status or a non-empty mapping; every class
    name of the mapping belongs to a class with at least one line whose
    missed-instruction count is present, numeric and positive, and its line
    list is strictly ascending, hence free of duplicates, and holds exactly
    the recorded line numbers of that class.  A report without any such line
    gets the status. *)
Theorem missing_coverage_mapping :
  forall (path : string) (root : Element),
    Forall named_classes (findall ["package"] root) ->
    let r := Coverage.get_missing_coverage
               {| Coverage.jacoco_report_path := path;
                  Coverage.report := Some (Root root) |} in
    (r = Coverage.FullCoverage \/
     exists m, r = Coverage.Missing m /\ m <> ∅ /\
       forall name (lines : list Z), m !! name = Some lines ->
         StronglySorted Z.lt lines /\ NoDup lines /\ lines <> [] /\
         exists package class_elem,
           package ∈ findall ["package"] root /\
           class_elem ∈ findall ["class"] package /\
           Coverage.full_class_name (get package "name") (get class_elem "name")
           = Return name /\
           (exists line, line ∈ findall ["sourcefile"; "line"] class_elem /\
                         missed_positive line) /\
           (forall n, n ∈ lines <-> n ∈ Coverage.uncovered_lines_of class_elem)) /\
    ((forall package class_elem line,
        package ∈ findall ["package"] root ->
        class_elem ∈ findall ["class"] package ->
        line ∈ findall ["sourcefile"; "line"] class_elem ->
        ~ missed_positive line) ->
     r = Coverage.FullCoverage).
Proof.
  intros path root Hnamed r.
  destruct (add_packages_named _ ∅ Hnamed) as [m Hm].
  assert (Hentries : forall name (lines : list Z), m !! name = Some lines ->
            exists package class_elem,
              package ∈ findall ["package"] root /\
              class_elem ∈ findall ["class"] package /\
              entry_of (get package "name") class_elem name lines).
  { intros name lines Hl.
    destruct (add_packages_entries _ _ _ Hm name lines Hl) as [He | He];
      [now rewrite lookup_empty in He | exact He]. }
  assert (Hr : r = if decide (m = ∅) then Coverage.FullCoverage
                   else Coverage.Missing m).
  { subst r. unfold Coverage.get_missing_coverage, Coverage.body.
    cbn [Coverage.report]. rewrite Hm. cbn. now destruct (decide (m = ∅)). }
  split.
  - rewrite Hr. destruct (decide (m = ∅)) as [|Hne]; [now left|].
    right. exists m. split; [reflexivity|]. split; [assumption|].
    intros name lines Hl.
    destruct (Hentries name lines Hl) as (p & c & Hp & Hc & Hk & -> & Hu).
    split; [apply sorted_set_ascending|].
    split; [apply sorted_set_NoDup|].
    split; [now apply sorted_set_nonempty|].
    exists p, c. repeat split; try assumption.
    + now apply uncovered_lines_witness.
    + apply sorted_set_elem.
    + apply sorted_set_elem.
  - intros Hnone. rewrite Hr. destruct (decide (m = ∅)) as [|Hne]; [reflexivity|].
    exfalso. apply map_choose in Hne as (name & lines & Hl).
    destruct (Hentries name lines Hl) as (p & c & Hp & Hc & _ & _ & Hu).
    destruct (uncovered_lines_witness c Hu) as (line & Hin & Hpos).
    exact (Hnone p c line Hp Hc Hin Hpos).
Qed.

(** A line element of a source file. *)
Definition line_elem (nr mi : string) : Element :=
  mkElement "line" {[ "nr" := nr; "mi" := mi ]} None [].

(** One package with a partly covered class and a fully covered one. *)
Definition sample_coverage_report : Element :=
  mkElement "report" {[ "name" := "demo" ]} None
    [ mkElement "package" {[ "name" := "com/demo" ]} None
        [ mkElement "class" {[ "name" := "com/demo/Parser" ]} None
            [ mkElement "sourcefile" {[ "name" := "Parser.java" ]} None
                [ line_elem "12" "3"; line_elem "4" "0"; line_elem "7" "1";
                  line_elem "12" "2"; line_elem "x" "5"; line_elem "9" "y" ] ];
          mkElement "class" {[ "name" := "com/demo/Util" ]} None
            [ mkElement "sourcefile" {[ "name" := "Util.java" ]} None
                [ line_elem "3" "0" ] ] ] ].

Lemma missing_coverage_mapping_witness :
  exists m,
    Coverage.get_missing_coverage
      {| Coverage.jacoco_report_path := "target/jacoco-report/jacoco.xml";
         Coverage.report := Some (Root sample_coverage_report) |}
    = Coverage.Missing m /\
    m !! "com.demo.Parser" = Some [7; 12] /\
    m !! "com.demo.Util" = None /\
    forall name (lines : list Z), m !! name = Some lines ->
      StronglySorted Z.lt lines /\ NoDup lines.
Proof.
  assert (Hnamed : Forall named_classes (findall ["package"] sample_coverage_report)).
  { repeat constructor; eexists; vm_compute; reflexivity. }
  destruct (proj1 (missing_coverage_mapping
                     "target/jacoco-report/jacoco.xml"
                     sample_coverage_report Hnamed))
    as [Hfull | (m & Hr & _ & Hall)].
  - vm_compute in Hfull. discriminate Hfull.
  - exists m. split; [exact Hr|].
    assert (Hm : m = {[ "com.demo.Parser" := [7; 12] ]}).
    { vm_compute in Hr. injection Hr as <-. vm_compute. reflexivity. }
    split; [rewrite Hm; vm_compute; reflexivity|].
    split; [rewrite Hm; vm_compute; reflexivity|].
    intros name lines Hl. destruct (Hall name lines Hl) as (Hs & Hn & _).
    now split.
Defined.

(** ** More on text *)

Section StripFacts.

Definition starts_space (s : string) : bool :=
  match s with
  | EmptyString => false
  | String c _ => is_space c
  end.

Fixpoint ends_space (s : string) : bool :=
  match s with
  | EmptyString => false
  | String c EmptyString => is_space c
  | String _ s' => ends_space s'
  end.

Lemma lstrip_no_leading s : starts_space (lstrip s) = false.
Proof.
  induction s as [|c s IH]; [reflexivity|]. simpl.
  destruct (is_space c) eqn:Hc; [exact IH | simpl; exact Hc].
Qed.

Lemma rstrip_no_trailing s : ends_space (rstrip s) = false.
Proof.
  induction s as [|c s IH]; [reflexivity|]. simpl.
  destruct (rstrip s) as [|d r] eqn:Hr.
  - destruct (is_space c) eqn:Hc; [reflexivity | simpl; exact Hc].
  - exact IH.
Qed.

Lemma lstrip_keeps_end s : ends_space s = false -> ends_space (lstrip s) = false.
Proof.
  induction s as [|c s IH]; [reflexivity|]. intros H. cbn [lstrip].
  destruct (is_space c) eqn:Hc; [|exact H].
  apply IH. destruct s; [simpl in H; congruence | exact H].
Qed.

Lemma strip_no_surrounding s :
  starts_space (strip s) = false /\ ends_space (strip s) = false.
Proof.
  unfold strip. split; [apply lstrip_no_leading|].
  apply lstrip_keeps_end, rstrip_no_trailing.
Qed.

End StripFacts.

(** ** More on the boundary-value generator *)

Section BvaMore.

Import Bva.
Local Open Scope Z_scope.

#[local] Instance value_eq_dec : EqDecision value.
Proof. solve_decision. Defined.

Lemma fixed_lists_NoDup :
  NoDup [VInt 0; VInt 1; VInt (-1)] /\ NoDup parse_cases /\
  NoDup [VBool true; VBool false].
Proof. repeat split; apply (bool_decide_unpack _); vm_compute; reflexivity. Qed.

Fixpoint has_digit (s : string) : bool :=
  match s with
  | EmptyString => false
  | String c s' => (is_digit c || has_digit s')%bool
  end.

Lemma lower_char_digit c : is_digit (lower_char c) = is_digit c.
Proof. destruct c as [[] [] [] [] [] [] [] []]; reflexivity. Qed.

Lemma has_digit_lower s : has_digit (lower s) = has_digit s.
Proof.
  induction s as [|c s IH]; [reflexivity|]. simpl.
  now rewrite lower_char_digit, IH.
Qed.

Lemma match_digits_has_digit s :
  has_digit s = false -> match_digits s = None.
Proof.
  destruct s as [|c s]; [reflexivity|]. simpl.
  intros [Hc _]%orb_false_elim. now rewrite Hc.
Qed.

Lemma findall_scan_no_digit fuel before s :
  has_digit s = false -> findall_scan fuel before s = [].
Proof.
  revert before s. induction fuel as [|fuel IH]; intros before s H; [reflexivity|].
  destruct s as [|c s]; [reflexivity|]. cbn [findall_scan].
  rewrite (match_digits_has_digit _ H).
  simpl in H. apply orb_false_elim in H as [_ H].
  destruct (word_boundary _ _); now apply IH.
Qed.



Lemma first_occurrences_app seen a b :
  first_occurrences seen (a ++ b)
  = (first_occurrences seen a
     ++ first_occurrences (seen ++ first_occurrences seen a) b)%list.
Proof.
  revert seen. induction a as [|x a IH]; intros seen; simpl.
  - now rewrite app_nil_r.
  - destruct (existsb _ seen); [apply IH|].
    rewrite IH. simpl. now rewrite <- app_assoc.
Qed.

Lemma first_occurrences_base param_type :
  first_occurrences [] (base_cases param_type) = base_cases param_type.
Proof.
  unfold base_cases. destruct (_ || _)%bool; [reflexivity|].
  destruct (String.eqb _ _); reflexivity.
Qed.

(** The calls that get past the three early returns. *)
Definition per_type (param_name param_type function_name : string) : Prop :=
  contains "default" (lower param_name) = false /\
  ~ (param_type = "String" /\
     (contains "toint" (lower function_name) = true \/
      contains "parse" (lower function_name) = true)) /\
  param_type <> "boolean".

(** The other calls return one of the three fixed lists. *)
Lemma early_return param_name param_type function_name constraints :
  per_type param_name param_type function_name \/
  (~ per_type param_name param_type function_name /\
   exists result,
     generate_bva_test_cases param_name param_type function_name constraints
     = Return result /\ NoDup result).
Proof.
  unfold per_type, generate_bva_test_cases.
  destruct fixed_lists_NoDup as (Hd & Hp & Hb).
  destruct (contains "default" (lower param_name));
    [right; split; [intros (H & _); discriminate H | now eexists]|].
  destruct (String.eqb_spec param_type "String") as [->|Hs].
  - cbn [andb]. destruct (contains "toint" (lower function_name)).
    + right. split; [intros (_ & H & _); apply H; auto | now eexists].
    + destruct (contains "parse" (lower function_name)).
      * right. split; [intros (_ & H & _); apply H; auto | now eexists].
      * left. repeat split; [|discriminate].
        intros (_ & [H|H]); discriminate H.
  - cbn [andb]. destruct (String.eqb_spec param_type "boolean") as [->|Hb'].
    + right. split; [intros (_ & _ & H); now apply H | now eexists].
    + left. repeat split; [|exact Hb']. intros (H & _). now apply Hs.
Qed.

Lemma long_number_tokens : findall_numbers (lower long_number) = [long_number].
Proof. vm_compute. reflexivity. Qed.

Lemma long_number_unfit : ~ tokens_fit long_number.
Proof.
  unfold tokens_fit. rewrite long_number_tokens. intros H.
  apply Forall_inv in H. apply Nat.leb_le in H. vm_compute in H. discriminate H.
Qed.

End BvaMore.

(** X5. A [boolean] parameter whose name is free of "default" gets exactly
    [True, False]; the constraints text plays no part. *)
Theorem bva_boolean_cases :
  forall param_name function_name constraints : string,
    contains "default" (lower param_name) = false ->
    Bva.generate_bva_test_cases param_name "boolean" function_name constraints
    = Return [VBool true; VBool false].
Proof.
  intros pn fn cs Hd. unfold Bva.generate_bva_test_cases. now rewrite Hd.
Qed.

Lemma bva_boolean_cases_witness :
  Bva.generate_bva_test_cases "flag" "boolean" "setFlag" "between 1 and 5"
  = Return [VBool true; VBool false].
Proof.
  apply (bva_boolean_cases "flag" "setFlag" "between 1 and 5"). reflexivity.
Defined.

(** X6. For an ASCII constraints text, an answer of the generator never
    holds a value twice, and the call raises exactly when it gets past the
    early returns and some whole-number token of the constraints has more
    than 4300 digits, which [int] refuses. *)
Theorem bva_returns_without_duplicates :
  forall param_name param_type function_name constraints : string,
    is_ascii constraints = true ->
    (forall result,
        Bva.generate_bva_test_cases param_name param_type function_name
                                    constraints = Return result ->
        NoDup result) /\
    (raises (Bva.generate_bva_test_cases param_name param_type function_name
                                         constraints) <->
     contains "default" (lower param_name) = false /\
     ~ (param_type = "String" /\
        (contains "toint" (lower function_name) = true \/
         contains "parse" (lower function_name) = true)) /\
     param_type <> "boolean" /\
     ~ Forall (fun tok => (String.length tok <= 4300)%nat)
              (findall_numbers (lower constraints))).
Proof.
  intros pn pt fn cs _.
  destruct (early_return pn pt fn cs) as [Hper | (Hno & result & Hr & Hnd)].
  - destruct Hper as (Hd & Hp & Hb).
    rewrite (per_type_branch pn pt fn cs Hd Hp Hb).
    destruct (tokens_fit_dec cs) as [Hfit | Hlong].
    + rewrite (with_constraints_eq _ _ Hfit). split.
      * intros result [= <-]. apply first_occurrences_NoDup.
      * split; [intros [] | intros (_ & _ & _ & H); now apply H].
    + pose proof (with_constraints_long (Bva.base_cases pt) cs Hlong) as Hr.
      split.
      * intros result Heq. rewrite Heq in Hr. destruct Hr.
      * split; [intros _; now repeat split | intros _; exact Hr].
  - rewrite Hr. split.
    + intros r [= <-]. exact Hnd.
    + split; [intros [] | intros (Hd & Hp & Hb & _); elim Hno; now repeat split].
Qed.

Lemma bva_returns_without_duplicates_witness :
  is_ascii long_number = true /\
  raises (Bva.generate_bva_test_cases "count" "int" "setCount" long_number) /\
  NoDup [ VInt 0; VInt 1; VInt (-1); VInt 2147483647; VInt (-2147483648);
          VInt 9; VInt 10; VInt 11 ].
Proof.
  split; [vm_compute; reflexivity|]. split.
  - apply (proj2 (bva_returns_without_duplicates
                    "count" "int" "setCount" long_number ltac:(vm_compute; reflexivity))).
    repeat split; [intros [H _]; discriminate H | discriminate |].
    exact long_number_unfit.
  - apply (proj1 (bva_returns_without_duplicates
                    "count" "int" "setCount" "max 10 items" eq_refl)).
    reflexivity.
Defined.

(** X7. An ASCII constraints text without any digit changes nothing: past
    the early returns the answer is the base set of the parameter type,
    which is empty for a type the generator does not know. *)
Theorem bva_no_digit_base_cases :
  forall param_name param_type function_name constraints : string,
    contains "default" (lower param_name) = false ->
    ~ (param_type = "String" /\
       (contains "toint" (lower function_name) = true \/
        contains "parse" (lower function_name) = true)) ->
    param_type <> "boolean" ->
    is_ascii constraints = true ->
    has_digit constraints = false ->
    Bva.generate_bva_test_cases param_name param_type function_name constraints
    = Return (Bva.base_cases param_type).
Proof.
  intros pn pt fn cs Hd Hp Hb _ Hn.
  assert (Hnone : findall_numbers (lower cs) = []).
  { unfold findall_numbers.
    apply findall_scan_no_digit. now rewrite has_digit_lower. }
  rewrite (per_type_branch pn pt fn cs Hd Hp Hb), with_constraints_eq
    by (unfold tokens_fit; rewrite Hnone; constructor).
  unfold constraint_numbers. rewrite Hnone.
  cbn [map flat_map]. rewrite app_nil_r. now rewrite first_occurrences_base.
Qed.

Lemma bva_no_digit_base_cases_witness :
  Bva.generate_bva_test_cases "ratio" "double" "setRatio" "at most one"
  = Return [] /\
  Bva.generate_bva_test_cases "count" "long" "setCount" ""
  = Return [VInt 0; VInt 1; VInt (-1); VInt 2147483647; VInt (-2147483648)].
Proof.
  split.
  - apply (bva_no_digit_base_cases "ratio" "double" "setRatio" "at most one");
      [reflexivity | intros [H _]; discriminate H | discriminate
      | reflexivity | reflexivity].
  - apply (bva_no_digit_base_cases "count" "long" "setCount" "");
      [reflexivity | intros [H _]; discriminate H | discriminate
      | reflexivity | reflexivity].
Defined.




(** X9. Past the early returns, for an ASCII constraints text whose
    whole-number tokens have at most 4300 digits each, the base set of the
    type comes first, in its fixed order; what follows are the values around
    constraint numbers that the base set does not hold already. *)
Theorem bva_base_cases_first :
  forall param_name param_type function_name constraints : string,
    contains "default" (lower param_name) = false ->
    ~ (param_type = "String" /\
       (contains "toint" (lower function_name) = true \/
        contains "parse" (lower function_name) = true)) ->
    param_type <> "boolean" ->
    is_ascii constraints = true ->
    Forall (fun tok => (String.length tok <= 4300)%nat)
           (findall_numbers (lower constraints)) ->
    exists rest,
      Bva.generate_bva_test_cases param_name param_type function_name constraints
      = Return (Bva.base_cases param_type ++ rest)%list /\
      forall v, v ∈ rest ->
        (v ∉ Bva.base_cases param_type) /\
        exists n, n ∈ constraint_numbers constraints /\
                  (v = VInt (n - 1) \/ v = VInt n \/ v = VInt (n + 1)).
Proof.
  intros pn pt fn cs Hd Hp Hb _ Hfit.
  rewrite (per_type_branch pn pt fn cs Hd Hp Hb), (with_constraints_eq _ _ Hfit).
  rewrite first_occurrences_app, first_occurrences_base. cbn [app].
  eexists. split; [reflexivity|].
  intros v Hv. apply first_occurrences_fresh in Hv as [Hin Hk]. split.
  - intros Hbase. apply list_elem_of_In in Hbase.
    assert (Hex : known (Bva.base_cases pt) v = true).
    { apply existsb_exists. exists v. split; [exact Hbase | apply value_eqb_refl]. }
    congruence.
  - apply list_elem_of_In, in_flat_map in Hin as (n & Hn & Hv).
    exists n. split; [now apply list_elem_of_In|].
    simpl in Hv. intuition.
Qed.

Lemma bva_base_cases_first_witness :
  exists rest,
    Bva.generate_bva_test_cases "size" "int" "resize" "between 1 and 64"
    = Return (Bva.base_cases "int" ++ rest)%list /\
    forall v, v ∈ rest ->
      (v ∉ Bva.base_cases "int") /\
      exists n, n ∈ constraint_numbers "between 1 and 64" /\
                (v = VInt (n - 1) \/ v = VInt n \/ v = VInt (n + 1)).
Proof.
  apply (bva_base_cases_first "size" "int" "resize" "between 1 and 64");
    [reflexivity | intros [H _]; discriminate H | discriminate | reflexivity |].
  repeat (constructor; [apply Nat.leb_le; reflexivity|]). constructor.
Defined.

(** ** More on the static-analysis report *)

Section PmdMore.

Import Pmd.

Definition is_pmd_error (r : result) : Prop :=
  match r with Error _ => True | _ => False end.

Lemma run_pmd_analysis_parsed w root :
  mvn w = Return () -> pmd_xml w = Some (Root root) ->
  run_pmd_analysis w
  = if forallb has_text (violation_elements root) then
      match all_records root with
      | [] => Status "PMD analysis passed. No violations found."
      | vs => Found (found_status (length vs)) (take 20 vs)
      end
    else Error
      "An unexpected error occurred: 'NoneType' object has no attribute 'strip'".
Proof.
  intros Hm Hx. unfold run_pmd_analysis, body. rewrite Hm, Hx.
  cbn [mbind outcome_bind]. rewrite collect_eq, <- violation_elements_eq.
  destruct (forallb has_text (violation_elements root)); [|reflexivity].
  cbn [mbind outcome_bind mret outcome_ret app]. fold (all_records root).
  now destruct (all_records root).
Qed.

Lemma all_records_length root :
  length (all_records root) = length (violation_elements root).
Proof. unfold all_records. rewrite violation_elements_eq. apply length_records. Qed.

Lemma all_records_stripped root r :
  r ∈ all_records root ->
  starts_space (v_description r) = false /\ ends_space (v_description r) = false.
Proof.
  unfold all_records. intros Hr.
  apply list_elem_of_In, in_flat_map in Hr as (f & _ & Hr).
  unfold records_of in Hr. apply in_map_iff in Hr as (v & <- & _).
  unfold record_of. cbn [v_description].
  destruct (text v); [apply strip_no_surrounding | split; reflexivity].
Qed.

End PmdMore.

(** A report with one violation that has its description. *)
Definition clean_report : Element :=
  mkElement "pmd" ∅ None
    [ mkElement "file" {[ "name" := "src/main/java/App.java" ]} None
        [ mkElement "violation"
            {[ "beginline" := "3"; "rule" := "UnusedImports"; "priority" := "4" ]}
            (Some "
Avoid unused imports
") [] ] ].

Lemma run_pmd_analysis_with_text_witness :
  Pmd.run_pmd_analysis
    {| Pmd.mvn := Return (); Pmd.pmd_xml := Some (Root clean_report) |}
  = Pmd.Found "PMD analysis found 1 total violations."
      [ {| Pmd.v_file := Some "src/main/java/App.java";
           Pmd.v_line := Some "3";
           Pmd.v_rule := Some "UnusedImports";
           Pmd.v_priority := Some "4";
           Pmd.v_description := "Avoid unused imports" |} ].
Proof.
  exact (proj2 (run_pmd_analysis_with_text
                  {| Pmd.mvn := Return (); Pmd.pmd_xml := Some (Root clean_report) |}
                  clean_report eq_refl eq_refl eq_refl)).
Defined.

(** X2. The tool answers with an error dictionary exactly when the Maven
    call raised, the report is missing, parsing the report raised (the
    [ParseError] of a malformed text or another exception), or some
    violation element has no text. *)
Theorem pmd_error_cases :
  forall w : Pmd.world,
    is_pmd_error (Pmd.run_pmd_analysis w) <->
    (raises (Pmd.mvn w) \/ Pmd.pmd_xml w = None \/
     Pmd.pmd_xml w = Some Malformed \/
     (exists e, Pmd.pmd_xml w = Some (Unreadable e)) \/
     exists root v, Pmd.pmd_xml w = Some (Root root) /\
                    v ∈ Pmd.violation_elements root /\ text v = None).
Proof.
  intros w. destruct (Pmd.mvn w) as [[]|e] eqn:Hm.
  - destruct (Pmd.pmd_xml w) as [[|root|e]|] eqn:Hx.
    + unfold Pmd.run_pmd_analysis, Pmd.body. rewrite Hm, Hx. cbn.
      split; [auto | intros _; exact I].
    + rewrite (run_pmd_analysis_parsed w root Hm Hx).
      destruct (forallb has_text (Pmd.violation_elements root)) eqn:Ht.
      * split.
        -- destruct (all_records root); intros [].
        -- intros [[] | [[=] | [[=] | [[e [=]]
                     | (root' & v & [= <-] & Hv & Hnone)]]]].
           rewrite forallb_forall in Ht. apply list_elem_of_In in Hv.
           apply Ht in Hv. unfold has_text in Hv. now rewrite Hnone in Hv.
      * split; [|intros _; exact I]. intros _. right. right. right. right.
        assert (Hex : exists v, In v (Pmd.violation_elements root)
                                /\ has_text v = false).
        { clear -Ht. induction (Pmd.violation_elements root) as [|x l IH];
            [discriminate|]. simpl in Ht. apply andb_false_iff in Ht as [Hx|Hl].
          - exists x. split; [now left | exact Hx].
          - destruct (IH Hl) as (v & Hv & Hn). exists v. split; [now right | exact Hn]. }
        destruct Hex as (v & Hv & Hn). exists root, v.
        split; [reflexivity|]. split; [now apply list_elem_of_In|].
        unfold has_text in Hn. now destruct (text v).
    + unfold Pmd.run_pmd_analysis, Pmd.body. rewrite Hm, Hx. cbn.
      split; [intros _; right; right; right; left; now exists e | intros _].
      destruct e as [[] msg]; exact I.
    + unfold Pmd.run_pmd_analysis, Pmd.body. rewrite Hm, Hx. cbn.
      split; [auto | intros _; exact I].
  - unfold Pmd.run_pmd_analysis, Pmd.body. rewrite Hm. cbn.
    split; [intros _; now left | intros _].
    destruct e as [[] msg]; exact I.
Qed.

(** X3. Whenever violations are reported, the count in the status is the
    number of all violation elements of the report, the list holds the first
    [min 20 n] of their records in document order, hence between 1 and 20
    entries, and no description starts or ends with white space. *)
Theorem pmd_found_is_sound :
  forall (w : Pmd.world) (status : string) (summary : list Pmd.Violation),
    Pmd.run_pmd_analysis w = Pmd.Found status summary ->
    exists root,
      Pmd.pmd_xml w = Some (Root root) /\
      status = Pmd.found_status (length (Pmd.violation_elements root)) /\
      summary = take 20 (all_records root) /\
      length summary = Nat.min 20 (length (Pmd.violation_elements root)) /\
      (1 <= length summary <= 20)%nat /\
      forall r, r ∈ summary ->
        starts_space (Pmd.v_description r) = false /\
        ends_space (Pmd.v_description r) = false.
Proof.
  intros w status summary H.
  destruct (Pmd.mvn w) as [[]|e] eqn:Hm.
  2:{ unfold Pmd.run_pmd_analysis, Pmd.body in H. rewrite Hm in H. cbn in H.
      destruct e as [[] msg]; discriminate H. }
  destruct (Pmd.pmd_xml w) as [[|root|e]|] eqn:Hx;
    try (unfold Pmd.run_pmd_analysis, Pmd.body in H; rewrite Hm, Hx in H;
         discriminate H).
  2:{ unfold Pmd.run_pmd_analysis, Pmd.body in H. rewrite Hm, Hx in H.
      cbn in H. destruct e as [[] msg]; discriminate H. }
  rewrite (run_pmd_analysis_parsed w root Hm Hx) in H.
  destruct (forallb has_text (Pmd.violation_elements root)); [|discriminate H].
  pose proof (all_records_length root) as Hlen.
  destruct (all_records root) as [|r rs] eqn:Hrec; [discriminate H|].
  injection H as <- <-. exists root. rewrite <- Hlen.
  split; [reflexivity|]. split; [reflexivity|]. split; [now rewrite Hrec|].
  change (r :: take 19 rs) with (take 20 (r :: rs)).
  assert (Hl : length (take 20 (r :: rs)) = Nat.min 20 (length (r :: rs)))
    by apply length_take.
  split; [exact Hl|]. split; [rewrite Hl; cbn [length]; lia|].
  intros x Hxin. apply (all_records_stripped root). rewrite Hrec.
  apply elem_of_take in Hxin as (i & Hi & _).
  apply list_elem_of_lookup. now exists i.
Qed.

Lemma pmd_found_is_sound_witness :
  exists root,
    Pmd.pmd_xml {| Pmd.mvn := Return (); Pmd.pmd_xml := Some (Root clean_report) |}
    = Some (Root root) /\
    "PMD analysis found 1 total violations."
    = Pmd.found_status (length (Pmd.violation_elements root)).
Proof.
  destruct (pmd_found_is_sound
              {| Pmd.mvn := Return (); Pmd.pmd_xml := Some (Root clean_report) |}
              "PMD analysis found 1 total violations."
              [ {| Pmd.v_file := Some "src/main/java/App.java";
                   Pmd.v_line := Some "3";
                   Pmd.v_rule := Some "UnusedImports";
                   Pmd.v_priority := Some "4";
                   Pmd.v_description := "Avoid unused imports" |} ]
              eq_refl)
    as (root & Hx & Hs & _).
  exists root. split; assumption.
Defined.

(** ** More on the dashboard *)

Section DashboardMore.

Import PyFloat Dashboard.
Local Open Scope Z_scope.

(** The counts a report file adds, if its attributes convert. *)
Definition file_counts (report_file : parsed) : outcome totals :=
  match report_file with
  | Malformed => Return no_totals
  | Root root => suite_counts root
  | Unreadable e => if is_parse_error e then Return no_totals else Raise e
  end.

Lemma add_totals_zero acc : add_totals acc no_totals = acc.
Proof. destruct acc. unfold add_totals. cbn. f_equal; lia. Qed.

Lemma add_totals_swap acc a b :
  add_totals (add_totals acc a) b = add_totals (add_totals acc b) a.
Proof. unfold add_totals. cbn. f_equal; lia. Qed.

Lemma add_report_file_counts acc f :
  add_report acc f = (c ← file_counts f; mret (add_totals acc c)).
Proof.
  destruct f as [|root|e]; [|apply add_report_counts|].
  - cbn. now rewrite add_totals_zero.
  - cbn [add_report file_counts]. destruct (is_parse_error e); [|reflexivity].
    cbn. now rewrite add_totals_zero.
Qed.

Lemma add_reports_Permutation fs fs' :
  fs ≡ₚ fs' ->
  forall acc t, add_reports acc fs = Return t -> add_reports acc fs' = Return t.
Proof.
  induction 1 as [|x l l' _ IH|x y l|l l' l'' _ IH1 _ IH2]; intros acc t H.
  - exact H.
  - cbn [add_reports] in *. destruct (add_report acc x); [|discriminate].
    cbn in *. now apply IH.
  - cbn [add_reports] in *.
    rewrite (add_report_file_counts acc y) in H.
    destruct (file_counts y) as [cy|] eqn:Hy; [|discriminate].
    cbn [mbind outcome_bind mret outcome_ret] in H.
    rewrite (add_report_file_counts _ x) in H.
    destruct (file_counts x) as [cx|] eqn:Hx; [|discriminate].
    cbn [mbind outcome_bind mret outcome_ret] in H.
    rewrite (add_report_file_counts acc x), Hx.
    cbn [mbind outcome_bind mret outcome_ret].
    rewrite (add_report_file_counts _ y), Hy.
    cbn [mbind outcome_bind mret outcome_ret].
    now rewrite add_totals_swap.
  - now apply IH2, IH1.
Qed.

(** The files whose parse raises [ParseError]. *)
Definition parse_error_file (f : parsed) : bool :=
  match f with
  | Malformed => true
  | Root _ => false
  | Unreadable e => is_parse_error e
  end.

Definition parses_or_aborts (f : parsed) : bool := negb (parse_error_file f).

Lemma add_reports_skip_malformed fs acc :
  add_reports acc (List.filter parses_or_aborts fs) = add_reports acc fs.
Proof.
  revert acc. induction fs as [|f fs IH]; intros acc; [reflexivity|].
  destruct f as [|root|e].
  - cbn. apply IH.
  - cbn [List.filter parses_or_aborts parse_error_file negb add_reports].
    destruct (add_report acc (Root root)); cbn; [apply IH | reflexivity].
  - cbn [List.filter add_reports add_report].
    unfold parses_or_aborts at 1. cbn [parse_error_file].
    destruct (is_parse_error e) eqn:He;
      cbn [negb add_reports add_report mbind outcome_bind mret outcome_ret].
    + apply IH.
    + now rewrite He.
Qed.

(** An exception that leaves one turn of the loop leaves the loop. *)
Lemma add_reports_raises fs f :
  f ∈ fs -> (forall acc, raises (add_report acc f)) ->
  forall acc, raises (add_reports acc fs).
Proof.
  intros Hin Hf. induction fs as [|x fs IH]; intros acc.
  - now apply elem_of_nil in Hin.
  - cbn [add_reports]. apply elem_of_cons in Hin as [<- | Hin].
    + specialize (Hf acc). destruct (add_report acc f); [destruct Hf | exact I].
    + destruct (add_report acc x) as [acc'|]; [|exact I].
      cbn [mbind outcome_bind]. now apply IH.
Qed.

Definition one : float := Eval cbv in of_small_int 1.

Lemma div_core_same p :
  SFdiv_core_binary prec emax (Z.pos p) 0 (Z.pos p) 0
  = (2 ^ 53, -53, loc_Exact).
Proof.
  unfold SFdiv_core_binary.
  replace (Zdigits2 (Z.pos p) + 0 - (Zdigits2 (Z.pos p) + 0)) with 0 by lia.
  change (Z.min (fexp prec emax 0) (0 - 0)) with (-53).
  change (0 - 0 - -53) with 53. cbv beta iota zeta.
  rewrite Z.shiftl_mul_pow2 by lia.
  assert (Hdm : Z.div_eucl (Z.pos p * 2 ^ 53) (Z.pos p)
                = (Z.pos p * 2 ^ 53 / Z.pos p, (Z.pos p * 2 ^ 53) mod Z.pos p)).
  { unfold Z.div, Z.modulo. now destruct (Z.div_eucl _ _). }
  rewrite Hdm, (Z.mul_comm (Z.pos p)), Z.div_mul, Z.mod_mul by lia.
  now rewrite new_location_zero.
Qed.

Lemma int_truediv_same n : 0 < n -> int_truediv n n = Return one.
Proof.
  intros Hn. unfold int_truediv.
  destruct (Z.eqb_spec n 0); [lia|].
  destruct n as [|p|p]; try lia.
  cbn [int_operand SFdiv xorb]. rewrite div_core_same. reflexivity.
Qed.

Lemma round2_hundredths x :
  at_most 25 2 x ->
  exists n, 0 <= n <= 10000 /\ round2 x = Return (hundredths n).
Proof.
  intros Hx. destruct (round2_at_most x Hx) as (r & Hr & _).
  destruct Hx as [-> | (m & e & -> & Hm & He & Hle & _)].
  - exists 0. split; [lia | reflexivity].
  - pose proof (nearest_even_scaled_le (100 * Z.pos m) e 10000) as Hn.
    assert (Hp : 0 < 2 ^ (2 - e)) by (apply Z.pow_pos_nonneg; lia).
    destruct Hn as [Hn0 Hn1]; try lia.
    { intros He0.
      assert (2 ^ (2 - e) * 2 ^ e = 4).
      { rewrite <- Z.pow_add_r by lia. now replace (2 - e + e) with 2 by lia. }
      assert (0 < 2 ^ e) by (apply Z.pow_pos_nonneg; lia). nia. }
    { intros He0. replace (2 - e) with (2 + - e) in Hle by lia.
      rewrite Z.pow_add_r in Hle by lia. change (2 ^ 2) with 4 in Hle. lia. }
    exists (nearest_even_scaled (100 * Z.pos m) e). split; [lia|].
    cbn [round2] in *.
    destruct (nearest_even_scaled (100 * Z.pos m) e) as [|p|p]; [reflexivity| |lia].
    cbn [hundredths].
    destruct (is_infinite _); [discriminate Hr | reflexivity].
Qed.

Definition is_reported (c : Element) : bool :=
  match kind_of (get c "type") with Some _ => true | None => false end.

Lemma add_counters_reported cs :
  Forall counts_ok cs ->
  forall cov, add_counters cov (List.filter is_reported cs) = add_counters cov cs.
Proof.
  induction 1 as [|c cs Hc _ IH]; intros cov; [reflexivity|].
  destruct Hc as (missed & covered & Hmi & Hco & Hm & Hv).
  destruct (add_counter_spec cov c missed covered Hmi Hco Hm Hv)
    as (r & _ & _ & Hadd).
  cbn [List.filter]. unfold is_reported at 1.
  destruct (kind_of (get c "type")) eqn:Hk.
  - cbn [add_counters]. rewrite Hadd. cbn [mbind outcome_bind]. apply IH.
  - cbn [add_counters]. rewrite Hadd. cbn [mbind outcome_bind]. apply IH.
Qed.

End DashboardMore.

(** X10. The order in which [glob] lists the report files does not matter:
    if the dashboard is returned for one order, the same dashboard is
    returned for any other. *)
Theorem dashboard_order_independent :
  forall (w w' : Dashboard.world) (fs fs' : list parsed),
    Dashboard.surefire_reports w = Some fs ->
    Dashboard.surefire_reports w' = Some fs' ->
    fs ≡ₚ fs' ->
    Dashboard.jacoco_xml w = Dashboard.jacoco_xml w' ->
    forall d, Dashboard.get_quality_dashboard w = Return d ->
              Dashboard.get_quality_dashboard w' = Return d.
Proof.
  intros w w' fs fs' Hw Hw' Hp Hj d Hd.
  destruct (dashboard_parts w d Hd) as (t & Ht & Hcov & Hs).
  assert (Ht' : Dashboard.surefire_totals w' = Return t).
  { unfold Dashboard.surefire_totals in *. rewrite Hw in Ht. rewrite Hw'.
    exact (add_reports_Permutation fs fs' Hp _ _ Ht). }
  assert (Hcov' : Dashboard.jacoco_coverage w'
                  = Return (Dashboard.code_coverage_summary d)).
  { unfold Dashboard.jacoco_coverage in *. now rewrite <- Hj. }
  rewrite (dashboard_returns w' t _ Ht' Hcov'). rewrite <- Hs. now destruct d.
Qed.

(** Three report files in two listing orders. *)
Definition listing_a : list parsed :=
  [ Root (testsuite {[ "tests" := "3"; "skipped" := "2" ]});
    Malformed;
    Root (testsuite {[ "tests" := "4"; "errors" := "1" ]}) ].

Definition listing_b : list parsed :=
  [ Malformed;
    Root (testsuite {[ "tests" := "4"; "errors" := "1" ]});
    Root (testsuite {[ "tests" := "3"; "skipped" := "2" ]}) ].

Lemma dashboard_order_independent_witness :
  Dashboard.get_quality_dashboard
    {| Dashboard.surefire_reports := Some listing_b;
       Dashboard.jacoco_xml := None |}
  = Return {| Dashboard.test_run_summary :=
                {| Dashboard.total_tests := 7; Dashboard.passed := 4;
                   Dashboard.failures := 0; Dashboard.errors := 1;
                   Dashboard.skipped := 2 |};
              Dashboard.code_coverage_summary := Dashboard.no_coverage |}.
Proof.
  apply (dashboard_order_independent
           {| Dashboard.surefire_reports := Some listing_a;
              Dashboard.jacoco_xml := None |}
           {| Dashboard.surefire_reports := Some listing_b;
              Dashboard.jacoco_xml := None |}
           listing_a listing_b eq_refl eq_refl).
  - unfold listing_a, listing_b.
    etransitivity; [apply Permutation_swap|]. apply Permutation_skip.
    apply Permutation_swap.
  - reflexivity.
  - vm_compute. reflexivity.
Defined.

(** X11. Report files whose parse raises [ParseError] are passed over:
    leaving them out of the directory changes nothing in what the call
    does.  A file whose parse raises another exception is not passed over:
    the exception leaves the call. *)
Theorem dashboard_skips_malformed_reports :
  forall w : Dashboard.world,
    Dashboard.get_quality_dashboard
      {| Dashboard.surefire_reports :=
           List.filter parses_or_aborts <$> Dashboard.surefire_reports w;
         Dashboard.jacoco_xml := Dashboard.jacoco_xml w |}
    = Dashboard.get_quality_dashboard w
    /\
    forall fs e,
      Dashboard.surefire_reports w = Some fs ->
      Unreadable e ∈ fs -> is_parse_error e = false ->
      raises (Dashboard.get_quality_dashboard w).
Proof.
  intros w. split.
  - unfold Dashboard.get_quality_dashboard, Dashboard.surefire_totals,
      Dashboard.jacoco_coverage.
    cbn [Dashboard.surefire_reports Dashboard.jacoco_xml].
    destruct (Dashboard.surefire_reports w) as [fs|]; [|reflexivity].
    cbn [fmap option_fmap option_map]. now rewrite add_reports_skip_malformed.
  - intros fs e Hfs Hin He.
    unfold Dashboard.get_quality_dashboard, Dashboard.surefire_totals.
    rewrite Hfs.
    assert (Hr : raises (Dashboard.add_reports Dashboard.no_totals fs)).
    { apply (add_reports_raises fs (Unreadable e) Hin).
      intros acc. cbn [Dashboard.add_report]. now rewrite He. }
    destruct (Dashboard.add_reports Dashboard.no_totals fs);
      [destruct Hr | exact I].
Qed.

(** A listing in which one entry is a directory. *)
Definition listing_with_directory : list parsed :=
  [ Root (testsuite {[ "tests" := "3"; "skipped" := "2" ]});
    Unreadable (Exn OSError "[Errno 21] Is a directory: 'target/surefire-reports/TEST-old.xml'");
    Malformed ].

Lemma dashboard_skips_malformed_reports_witness :
  Dashboard.get_quality_dashboard
    {| Dashboard.surefire_reports := Some listing_with_directory;
       Dashboard.jacoco_xml := None |}
  = Raise (Exn OSError "[Errno 21] Is a directory: 'target/surefire-reports/TEST-old.xml'")
  /\
  raises (Dashboard.get_quality_dashboard
            {| Dashboard.surefire_reports := Some listing_with_directory;
               Dashboard.jacoco_xml := None |}).
Proof.
  split; [reflexivity|].
  apply (proj2 (dashboard_skips_malformed_reports
                  {| Dashboard.surefire_reports := Some listing_with_directory;
                     Dashboard.jacoco_xml := None |})
               listing_with_directory
               (Exn OSError "[Errno 21] Is a directory: 'target/surefire-reports/TEST-old.xml'")
               eq_refl).
  - apply elem_of_cons. right. apply elem_of_cons. now left.
  - reflexivity.
Defined.

(** X12. Without a JaCoCo report, or with one that does not parse, the
    dashboard is returned whenever the test half is, and its three
    percentages are [0.0]. *)
Theorem dashboard_without_coverage_report :
  forall (w : Dashboard.world) (t : Dashboard.totals),
    Dashboard.jacoco_xml w = None \/ Dashboard.jacoco_xml w = Some Malformed ->
    Dashboard.surefire_totals w = Return t ->
    exists d,
      Dashboard.get_quality_dashboard w = Return d /\
      Dashboard.total_tests (Dashboard.test_run_summary d) = Dashboard.t_tests t /\
      forall k, field k (Dashboard.code_coverage_summary d) = PyFloat.zero.
Proof.
  intros w t Hj Ht.
  assert (Hcov : Dashboard.jacoco_coverage w = Return Dashboard.no_coverage).
  { unfold Dashboard.jacoco_coverage. now destruct Hj as [-> | ->]. }
  eexists. split; [apply (dashboard_returns w t _ Ht Hcov)|].
  split; [reflexivity|]. now intros [].
Qed.

Lemma dashboard_without_coverage_report_witness :
  exists d,
    Dashboard.get_quality_dashboard overdrawn_world = Return d /\
    forall k, field k (Dashboard.code_coverage_summary d) = PyFloat.zero.
Proof.
  destruct (dashboard_without_coverage_report overdrawn_world
              {| Dashboard.t_tests := 1; Dashboard.t_failures := 2;
                 Dashboard.t_errors := 0; Dashboard.t_skipped := 0 |})
    as (d & Hd & _ & Hz).
  - left. reflexivity.
  - vm_compute. reflexivity.
  - exists d. now split.
Defined.

(** X13. A kind without any top-level counter keeps the percentage [0.0],
    while a counter with both counts zero gives [100.0] (C4): "no counter"
    and "nothing to cover" are told apart. *)
Theorem coverage_kind_without_counter :
  forall (w : Dashboard.world) (root : Element) (k : kind),
    Dashboard.jacoco_xml w = Some (Root root) ->
    (exists t, Dashboard.surefire_totals w = Return t) ->
    Forall counts_ok (findall ["counter"] root) ->
    Forall (other_type k) (findall ["counter"] root) ->
    exists d,
      Dashboard.get_quality_dashboard w = Return d /\
      field k (Dashboard.code_coverage_summary d) = PyFloat.zero.
Proof.
  intros w root k Hx [t Ht] Hcs Hother.
  destruct (add_counters_spec _ Hcs Dashboard.no_coverage no_coverage_at_most)
    as (cov & Hrun & _ & Hkeep & _).
  assert (Hcov : Dashboard.jacoco_coverage w = Return cov).
  { unfold Dashboard.jacoco_coverage. now rewrite Hx. }
  eexists. split; [apply (dashboard_returns w t cov Ht Hcov)|].
  cbn [Dashboard.code_coverage_summary]. rewrite (Hkeep k Hother). now destruct k.
Qed.

Lemma coverage_kind_without_counter_witness :
  exists d,
    Dashboard.get_quality_dashboard
      {| Dashboard.surefire_reports := None;
         Dashboard.jacoco_xml :=
           Some (Root (mkElement "report" ∅ None [counter "LINE" "1" "3"])) |}
    = Return d /\
    field BRANCH (Dashboard.code_coverage_summary d) = PyFloat.zero.
Proof.
  apply (coverage_kind_without_counter
           {| Dashboard.surefire_reports := None;
              Dashboard.jacoco_xml :=
                Some (Root (mkElement "report" ∅ None [counter "LINE" "1" "3"])) |}
           (mkElement "report" ∅ None [counter "LINE" "1" "3"]) BRANCH).
  - reflexivity.
  - eexists. reflexivity.
  - repeat constructor. exists 1, 3.
    repeat split; [vm_compute; reflexivity .. | lia | lia].
  - repeat constructor. unfold other_type. vm_compute. discriminate.
Defined.

(** X14. A counter with nothing missed and something covered gives exactly
    [100.0], one with nothing covered and something missed exactly [0.0],
    however large the count. *)
Theorem percentage_extremes :
  forall n : Z,
    0 < n ->
    rounded_percentage 0 n = Return PyFloat.hundred /\
    rounded_percentage n 0 = Return PyFloat.zero.
Proof.
  intros n Hn. unfold rounded_percentage, Dashboard.percentage. split.
  - rewrite Z.add_0_l. destruct (Z.ltb_spec 0 n); [|lia].
    rewrite (int_truediv_same n Hn). reflexivity.
  - rewrite Z.add_0_r. destruct (Z.ltb_spec 0 n); [|lia].
    unfold PyFloat.int_truediv. destruct (Z.eqb_spec n 0); [lia|].
    destruct (Z.ltb_spec n 0); [lia|]. reflexivity.
Qed.

Lemma percentage_extremes_witness :
  rounded_percentage 0 12345678901234567890123 = Return PyFloat.hundred /\
  rounded_percentage 12345678901234567890123 0 = Return PyFloat.zero.
Proof. apply (percentage_extremes 12345678901234567890123). reflexivity. Defined.

(** X15. The percentage reported for a counter with non-negative counts is
    one of the 10001 two-decimal values: the float nearest to [n / 100] for
    an integer [n] between 0 and 10000. *)
Theorem percentage_has_two_decimals :
  forall missed covered : Z,
    0 <= missed -> 0 <= covered ->
    exists n, 0 <= n <= 10000 /\
              rounded_percentage missed covered = Return (hundredths n).
Proof.
  intros missed covered Hm Hc. unfold rounded_percentage.
  destruct (percentage_at_most missed covered Hm Hc) as (p & -> & Hp).
  cbn [mbind outcome_bind]. now apply round2_hundredths.
Qed.

Lemma percentage_has_two_decimals_witness :
  exists n, 0 <= n <= 10000 /\ rounded_percentage 1 2 = Return (hundredths n).
Proof. apply (percentage_has_two_decimals 1 2); lia. Defined.

(** X16. Only the counters of type LINE, BRANCH and METHOD count: taking
    the top-level counters of other types out of a report whose counters
    have non-negative counts leaves the coverage summary as it is. *)
Theorem coverage_ignores_other_counters :
  forall (w w' : Dashboard.world) (root root' : Element),
    Dashboard.jacoco_xml w = Some (Root root) ->
    Dashboard.jacoco_xml w' = Some (Root root') ->
    Forall counts_ok (findall ["counter"] root) ->
    findall ["counter"] root' = List.filter is_reported (findall ["counter"] root) ->
    Dashboard.jacoco_coverage w' = Dashboard.jacoco_coverage w.
Proof.
  intros w w' root root' Hx Hx' Hcs Heq. unfold Dashboard.jacoco_coverage.
  rewrite Hx, Hx', Heq. now apply add_counters_reported.
Qed.

(** [sample_jacoco] without its INSTRUCTION counter. *)
Definition reported_only_jacoco : Element :=
  mkElement "report" {[ "name" := "demo" ]} None
    [ counter "LINE" "1" "2"; counter "BRANCH" "0" "0";
      counter "METHOD" "799" "1" ].

Definition reported_only_world : Dashboard.world :=
  {| Dashboard.surefire_reports := None;
     Dashboard.jacoco_xml := Some (Root reported_only_jacoco) |}.

Lemma coverage_ignores_other_counters_witness :
  Dashboard.jacoco_coverage reported_only_world
  = Dashboard.jacoco_coverage sample_world.
Proof.
  apply (coverage_ignores_other_counters
           sample_world reported_only_world sample_jacoco reported_only_jacoco
           eq_refl eq_refl).
  - repeat constructor.
    + exists 7, 21. repeat split; [vm_compute; reflexivity .. | lia | lia].
    + exists 1, 2. repeat split; [vm_compute; reflexivity .. | lia | lia].
    + exists 0, 0. repeat split; [vm_compute; reflexivity .. | lia | lia].
    + exists 799, 1. repeat split; [vm_compute; reflexivity .. | lia | lia].
  - vm_compute. reflexivity.
Defined.

(** ** More on uncovered lines *)

Section CoverageMore.

Import Coverage.
Local Open Scope Z_scope.

(** The line is recorded under the number [n]: both attributes are there,
    the missed-instruction count is a positive number and the line number
    is the number [n]. *)
Definition line_records (line : Element) (n : Z) : Prop :=
  exists mi nr m,
    get line "mi" = Some mi /\ get line "nr" = Some nr /\
    int_of_str mi = Return m /\ 0 < m /\ int_of_str nr = Return n.

Lemma add_line_elem acc line n :
  n ∈ add_line acc line <-> n ∈ acc \/ line_records line n.
Proof.
  unfold add_line, line_records.
  destruct (get line "mi") as [mi|];
    [|split; [now left | intros [H | (? & ? & ? & [=] & _)]; exact H]].
  destruct (get line "nr") as [nr|];
    [|split; [now left | intros [H | (? & ? & ? & _ & [=] & _)]; exact H]].
  destruct (int_of_str mi) as [m|e] eqn:Hm; cbn.
  - destruct (Z.ltb_spec 0 m) as [Hpos|Hle].
    + destruct (int_of_str nr) as [k|e] eqn:Hk; cbn.
      * rewrite elem_of_app, list_elem_of_singleton. split.
        -- intros [H | ->]; [now left|]. right. now exists mi, nr, m.
        -- intros [H | (? & ? & ? & [= <-] & [= <-] & _ & _ & Hn)]; [now left|].
           right. congruence.
      * split; [now left|].
        intros [H | (? & ? & ? & [= <-] & [= <-] & _ & _ & Hn)]; [exact H|].
        congruence.
    + split; [now left|].
      intros [H | (? & ? & m' & [= <-] & [= <-] & Hm' & Hpos & _)]; [exact H|].
      rewrite Hm in Hm'. injection Hm' as <-. lia.
  - split; [now left|].
    intros [H | (? & ? & m' & [= <-] & [= <-] & Hm' & _)]; [exact H|].
    congruence.
Qed.

Lemma fold_add_line_elem lines acc n :
  n ∈ fold_left add_line lines acc <->
  n ∈ acc \/ exists line, line ∈ lines /\ line_records line n.
Proof.
  revert acc. induction lines as [|l lines IH]; intros acc; cbn [fold_left].
  - split; [now left | intros [H | (? & []%elem_of_nil & _)]; exact H].
  - rewrite IH, add_line_elem. split.
    + intros [[H | H] | (line & Hin & H)].
      * now left.
      * right. exists l. split; [now left | exact H].
      * right. exists line. split; [now right | exact H].
    + intros [H | (line & Hin & H)]; [now left; left|].
      apply elem_of_cons in Hin as [-> | Hin]; [left; now right|].
      right. now exists line.
Qed.

Lemma uncovered_lines_elem class_elem n :
  n ∈ uncovered_lines_of class_elem <->
  exists line, line ∈ findall ["sourcefile"; "line"] class_elem /\
               line_records line n.
Proof.
  unfold uncovered_lines_of. rewrite fold_add_line_elem. split.
  - intros [[]%elem_of_nil | H]; exact H.
  - now right.
Qed.

(** Whether the character occurs in the text. *)
Fixpoint has_char (c : ascii) (s : string) : bool :=
  match s with
  | EmptyString => false
  | String d s' => (Ascii.eqb c d || has_char c s')%bool
  end.

Lemma contains_char c s : contains (String c EmptyString) s = has_char c s.
Proof.
  induction s as [|d s IH]; [reflexivity|]. cbn [contains has_char String.prefix].
  rewrite IH. destruct (ascii_dec c d) as [->|Hne].
  - rewrite Ascii.eqb_refl. now destruct s.
  - apply Ascii.eqb_neq in Hne. now rewrite Hne.
Qed.

Lemma has_char_app c a b : has_char c (a ++ b) = (has_char c a || has_char c b)%bool.
Proof.
  induction a as [|d a IH]; [reflexivity|]. simpl. rewrite IH. apply orb_assoc.
Qed.

Lemma slashes_to_dots_no_slash s : has_char "/" (slashes_to_dots s) = false.
Proof.
  induction s as [|c s IH]; [reflexivity|]. cbn [slashes_to_dots has_char].
  rewrite IH. destruct (Ascii.eqb_spec c "/") as [->|Hne]; [reflexivity|].
  rewrite orb_false_r. apply Ascii.eqb_neq. congruence.
Qed.

Lemma last_segment_no_slash s : has_char "/" (last_segment s) = false.
Proof.
  induction s as [|c s IH]; [reflexivity|]. cbn [last_segment].
  destruct (contains "/" (String c s)) eqn:Hc; [exact IH|].
  now rewrite <- contains_char.
Qed.

Lemma full_class_name_no_slash p c name :
  full_class_name p c = Return name -> has_char "/" name = false.
Proof.
  unfold full_class_name. destruct p as [p|]; [|discriminate].
  destruct c as [c|]; [|discriminate]. intros [= <-].
  rewrite !has_char_app, slashes_to_dots_no_slash, last_segment_no_slash.
  reflexivity.
Qed.

(** The mapping a returned answer holds, traced back to the report. *)
Lemma missing_entries path root m :
  get_missing_coverage {| jacoco_report_path := path; report := Some (Root root) |}
  = Missing m ->
  forall name (lines : list Z), m !! name = Some lines ->
    exists package class_elem,
      package ∈ findall ["package"] root /\
      class_elem ∈ findall ["class"] package /\
      entry_of (get package "name") class_elem name lines.
Proof.
  unfold get_missing_coverage, body. cbn [report].
  destruct (add_packages ∅ (findall ["package"] root)) as [m'|] eqn:Hm;
    [|discriminate].
  cbn. destruct (decide (m' = ∅)); [discriminate|]. intros [= <-] name lines Hl.
  destruct (add_packages_entries _ _ _ Hm name lines Hl) as [He | He];
    [now rewrite lookup_empty in He | exact He].
Qed.

(** A class that has recorded lines but no key to file them under. *)
Definition unnamed_uncovered (package class_elem : Element) : Prop :=
  uncovered_lines_of class_elem <> [] /\
  (get package "name" = None \/ get class_elem "name" = None).

Lemma add_classes_raises package_name classes m :
  raises (add_classes package_name m classes) <->
  exists class_elem, class_elem ∈ classes /\
    uncovered_lines_of class_elem <> [] /\
    (package_name = None \/ get class_elem "name" = None).
Proof.
  revert m. induction classes as [|c cs IH]; intros m.
  - split; [intros [] | intros (? & []%elem_of_nil & _)].
  - cbn [add_classes]. unfold add_class at 1.
    destruct (uncovered_lines_of c) as [|x xs] eqn:Hu.
    + cbn [mbind outcome_bind mret outcome_ret raises full_class_name]. rewrite IH. split.
      * intros (c' & Hin & H). exists c'. split; [now right | exact H].
      * intros (c' & Hin & Hne & H).
        apply elem_of_cons in Hin as [-> | Hin]; [congruence|]. now exists c'.
    + destruct package_name as [p|]; cbn [mbind outcome_bind mret outcome_ret raises full_class_name].
      * destruct (get c "name") as [cn|] eqn:Hc; cbn [mbind outcome_bind mret outcome_ret raises full_class_name].
        -- rewrite IH. split.
           ++ intros (c' & Hin & H). exists c'. split; [now right | exact H].
           ++ intros (c' & Hin & Hne & H).
              apply elem_of_cons in Hin as [-> | Hin]; [|now exists c'].
              destruct H as [[=] | H]. congruence.
        -- split; [intros _ | intros _; exact I].
           exists c. split; [now left|]. split; [congruence | now right].
      * split; [intros _ | intros _; exact I].
        exists c. split; [now left|]. split; [congruence | now left].
Qed.

Lemma add_packages_raises packages m :
  raises (add_packages m packages) <->
  exists package class_elem,
    package ∈ packages /\ class_elem ∈ findall ["class"] package /\
    unnamed_uncovered package class_elem.
Proof.
  revert m. induction packages as [|p ps IH]; intros m.
  - split; [intros [] | intros (? & ? & []%elem_of_nil & _)].
  - cbn [add_packages].
    destruct (add_classes (get p "name") m (findall ["class"] p)) as [m1|e] eqn:H1.
    + cbn [mbind outcome_bind mret outcome_ret raises]. rewrite IH. split.
      * intros (p' & c & Hp & H). exists p', c. split; [now right | exact H].
      * intros (p' & c & Hp & Hc & Hu).
        apply elem_of_cons in Hp as [-> | Hp]; [|now exists p', c].
        exfalso. assert (Hr : raises (add_classes (get p "name") m (findall ["class"] p))).
        { apply add_classes_raises. exists c. split; [exact Hc | exact Hu]. }
        now rewrite H1 in Hr.
    + cbn [mbind outcome_bind mret outcome_ret raises]. split; [intros _ | intros _; exact I].
      assert (Hr : raises (add_classes (get p "name") m (findall ["class"] p)))
        by now rewrite H1.
      apply add_classes_raises in Hr as (c & Hc & Hu).
      exists p, c. split; [now left | now split].
Qed.

Definition is_coverage_error (r : result) : Prop :=
  match r with Error _ => True | _ => False end.

End CoverageMore.

(** X17. In a returned mapping the line list of a class holds exactly the
    numbers [nr] of the lines of that class whose [mi] is a positive number
    and whose [nr] is a number; a line with a missing or non-numeric
    attribute, or with [mi] not above zero, contributes nothing. *)
Theorem missing_lines_are_recorded_lines :
  forall (path : string) (root : Element) (m : gmap string (list Z)),
    Coverage.get_missing_coverage
      {| Coverage.jacoco_report_path := path;
         Coverage.report := Some (Root root) |}
    = Coverage.Missing m ->
    forall name (lines : list Z), m !! name = Some lines ->
      exists package class_elem,
        package ∈ findall ["package"] root /\
        class_elem ∈ findall ["class"] package /\
        Coverage.full_class_name (get package "name") (get class_elem "name")
        = Return name /\
        forall n, n ∈ lines <->
                  exists line,
                    line ∈ findall ["sourcefile"; "line"] class_elem /\
                    line_records line n.
Proof.
  intros path root m Hr name lines Hl.
  destruct (missing_entries path root m Hr name lines Hl)
    as (p & c & Hp & Hc & Hk & -> & _).
  exists p, c. repeat split; try assumption.
  - intros Hn. now apply uncovered_lines_elem, sorted_set_elem.
  - intros Hn. now apply sorted_set_elem, uncovered_lines_elem.
Qed.

Lemma missing_lines_are_recorded_lines_witness :
  exists package class_elem,
    package ∈ findall ["package"] sample_coverage_report /\
    class_elem ∈ findall ["class"] package /\
    Coverage.full_class_name (get package "name") (get class_elem "name")
    = Return "com.demo.Parser" /\
    forall n, n ∈ [7; 12] <->
              exists line,
                line ∈ findall ["sourcefile"; "line"] class_elem /\
                line_records line n.
Proof.
  apply (missing_lines_are_recorded_lines
           "target/jacoco-report/jacoco.xml" sample_coverage_report
           {[ "com.demo.Parser" := [7; 12] ]}).
  - vm_compute. reflexivity.
  - vm_compute. reflexivity.
Defined.

(** X18. No class name of a returned mapping contains a slash: the package
    separators are turned into dots and only the last segment of the class
    attribute is kept. *)
Theorem missing_keys_have_no_slash :
  forall (path : string) (root : Element) (m : gmap string (list Z)),
    Coverage.get_missing_coverage
      {| Coverage.jacoco_report_path := path;
         Coverage.report := Some (Root root) |}
    = Coverage.Missing m ->
    forall name, is_Some (m !! name) -> contains "/" name = false.
Proof.
  intros path root m Hr name [lines Hl].
  destruct (missing_entries path root m Hr name lines Hl)
    as (p & c & _ & _ & Hk & _).
  rewrite contains_char. exact (full_class_name_no_slash _ _ _ Hk).
Qed.

Lemma missing_keys_have_no_slash_witness :
  contains "/" "com.demo.Parser" = false.
Proof.
  apply (missing_keys_have_no_slash
           "target/jacoco-report/jacoco.xml" sample_coverage_report
           {[ "com.demo.Parser" := [7; 12] ]}).
  - vm_compute. reflexivity.
  - eexists. vm_compute. reflexivity.
Defined.

(** X19. The tool answers with an error dictionary exactly when the report
    is missing, parsing it raised (the [ParseError] of a malformed text or
    another exception), or some class with recorded lines lacks its [name]
    attribute or sits in a package that lacks it; an unnamed package or
    class without recorded lines does no harm. *)
Theorem missing_coverage_error_cases :
  forall w : Coverage.world,
    is_coverage_error (Coverage.get_missing_coverage w) <->
    (Coverage.report w = None \/ Coverage.report w = Some Malformed \/
     (exists e, Coverage.report w = Some (Unreadable e)) \/
     exists root package class_elem,
       Coverage.report w = Some (Root root) /\
       package ∈ findall ["package"] root /\
       class_elem ∈ findall ["class"] package /\
       unnamed_uncovered package class_elem).
Proof.
  intros w. unfold Coverage.get_missing_coverage.
  destruct (Coverage.report w) as [[|root|e]|] eqn:Hx.
  - split; [auto | intros _; exact I].
  - pose proof (add_packages_raises (findall ["package"] root) ∅) as Hraise.
    unfold Coverage.body.
    destruct (Coverage.add_packages ∅ (findall ["package"] root)) as [m|e]; cbn.
    + split.
      * destruct (decide (m = ∅)); intros [].
      * intros [[=] | [[=] | [[e [=]] | (root' & p & c & [= <-] & H)]]].
        exfalso. apply Hraise. now exists p, c.
    + split; [intros _ | intros _; exact I].
      right. right. right.
      destruct (proj1 Hraise I) as (p & c & H). now exists root, p, c.
  - split; [intros _; right; right; left; now exists e | intros _].
    destruct (is_parse_error e); exact I.
  - split; [auto | intros _; exact I].
Qed.

(** ** Test failures *)

Section TestFailureFacts.

Import TestFailures.

(** A failure entry together with the class it is filed under. *)
Definition event : Type := string * Failure.

Definition add_event (failures : gmap string (list Failure)) (e : event)
  : gmap string (list Failure) :=
  setdefault_append failures e.1 e.2.

(** The entry a child of a test case gives rise to, if it is tagged
    [failure] or [error] in any letter case. *)
Definition child_events (test_name : option string) (class_name : string)
    (child : Element) : list event :=
  let tag := lower (ET.tag child) in
  if (String.eqb tag "failure" || String.eqb tag "error")%bool then
    [(class_name,
      {| f_test := test_name; f_type := tag;
         f_message := str_or (get child "message") "";
         f_details := details_of child |})]
  else [].

Definition class_name_of (root testcase : Element) : string :=
  str_or (get testcase "classname") (str_or (get root "name") "Unknown").

Definition testcase_events (root testcase : Element) : list event :=
  flat_map (child_events (get testcase "name") (class_name_of root testcase))
           (children testcase).

Definition root_events (root : Element) : list event :=
  flat_map (testcase_events root) (findall_below "testcase" root).

Definition file_events (file : report_file) : list event :=
  match file.2 with
  | Return root => root_events root
  | Raise _ => []
  end.

(** The path of the file if it could not be read. *)
Definition file_skipped (file : report_file) : list string :=
  match file.2 with
  | Return _ => []
  | Raise _ => [file.1]
  end.

(** The entries filed under the class [k], in the order of the events. *)
Definition events_for (k : string) (events : list event) : list Failure :=
  map snd (List.filter (fun e : event => String.eqb e.1 k) events).

Lemma fold_left_flat_map {A B C} (f : A -> C -> A) (g : B -> list C) l a :
  fold_left f (flat_map g l) a = fold_left (fun a x => fold_left f (g x) a) l a.
Proof.
  revert a. induction l as [|x l IH]; intros a; [reflexivity|].
  cbn [flat_map fold_left]. now rewrite fold_left_app, IH.
Qed.

Lemma add_child_events test_name class_name failures child :
  add_child test_name class_name failures child
  = fold_left add_event (child_events test_name class_name child) failures.
Proof.
  unfold add_child, child_events. now destruct (_ || _)%bool.
Qed.

Lemma add_testcase_events root failures testcase :
  add_testcase root failures testcase
  = fold_left add_event (testcase_events root testcase) failures.
Proof.
  unfold add_testcase, testcase_events. rewrite fold_left_flat_map.
  fold (class_name_of root testcase).
  generalize (children testcase) failures.
  induction l as [|c l IH]; intros m; [reflexivity|].
  cbn [fold_left]. now rewrite add_child_events, IH.
Qed.

Lemma add_root_events failures root :
  add_root failures root = fold_left add_event (root_events root) failures.
Proof.
  unfold add_root, root_events. rewrite fold_left_flat_map.
  generalize (findall_below "testcase" root) failures.
  induction l as [|c l IH]; intros m; [reflexivity|].
  cbn [fold_left]. now rewrite add_testcase_events, IH.
Qed.

Lemma fold_add_file files failures skipped :
  fold_left add_file files (failures, skipped)
  = (fold_left add_event (flat_map file_events files) failures,
     (skipped ++ flat_map file_skipped files)%list).
Proof.
  revert failures skipped.
  induction files as [|[path r] files IH]; intros failures skipped.
  - cbn. now rewrite app_nil_r.
  - cbn [fold_left flat_map]. unfold add_file at 2, file_events at 1,
      file_skipped at 1. cbn [fst snd].
    destruct r as [root|[[] msg]]; rewrite IH, ?fold_left_app, ?add_root_events;
      cbn [app]; now rewrite <- ?app_assoc.
Qed.

Lemma lookup_fold_events events failures k :
  fold_left add_event events failures !! k
  = match events_for k events with
    | [] => failures !! k
    | l => Some (default [] (failures !! k) ++ l)%list
    end.
Proof.
  revert failures. induction events as [|[k' r] events IH]; intros failures;
    [reflexivity|].
  cbn [fold_left]. rewrite IH. unfold events_for, add_event, setdefault_append.
  cbn [List.filter fst snd]. destruct (String.eqb_spec k' k) as [->|Hne].
  - rewrite lookup_insert_eq. cbn [map snd].
    destruct (map snd _); cbn [default id]; [reflexivity|].
    now rewrite <- app_assoc.
  - now rewrite lookup_insert_ne.
Qed.

Lemma fold_events_empty events :
  fold_left add_event events ∅ = ∅ <-> events = [].
Proof.
  split; [|now intros ->]. destruct events as [|[k r] events]; [reflexivity|].
  intros H. exfalso.
  pose proof (f_equal (fun m : gmap string (list Failure) => m !! k) H) as Hl.
  cbv beta in Hl. rewrite lookup_empty, lookup_fold_events in Hl. unfold events_for in Hl.
  cbn [List.filter fst] in Hl. rewrite String.eqb_refl in Hl. discriminate Hl.
Qed.

(** What the call answers once it has settled on its report files. *)
Lemma get_test_failures_events w file files :
  report_files w = Some (file :: files) ->
  get_test_failures w
  = let events := flat_map file_events (file :: files) in
    let skipped := flat_map file_skipped (file :: files) in
    match events with
    | [] => AllPassed skipped
    | _ => Failed (fold_left add_event events ∅) skipped
    end.
Proof.
  intros Hf. unfold get_test_failures. rewrite Hf, fold_add_file.
  cbn [app]. cbv zeta.
  destruct (decide (fold_left add_event (flat_map file_events (file :: files)) ∅ = ∅))
    as [He|Hne].
  - apply fold_events_empty in He. now rewrite He.
  - destruct (flat_map file_events (file :: files)) eqn:Hev; [|reflexivity].
    now elim Hne.
Qed.

Lemma str_or_nonempty a b : b <> EmptyString -> str_or a b <> EmptyString.
Proof. destruct a as [[|c s]|]; cbn; congruence. Qed.

Lemma details_of_stripped child :
  starts_space (details_of child) = false /\ ends_space (details_of child) = false.
Proof.
  unfold details_of. destruct (text child) as [[|c s]|];
    [split; reflexivity | apply strip_no_surrounding | split; reflexivity].
Qed.

(** What every event of a parsed report satisfies. *)
Definition well_formed_event (e : event) : Prop :=
  e.1 <> EmptyString /\
  (f_type e.2 = "failure" \/ f_type e.2 = "error") /\
  starts_space (f_details e.2) = false /\ ends_space (f_details e.2) = false.

Lemma root_events_well_formed root : Forall well_formed_event (root_events root).
Proof.
  apply Forall_forall. intros e He. unfold root_events in He.
  apply list_elem_of_In, in_flat_map in He as (tc & _ & He).
  unfold testcase_events in He. apply in_flat_map in He as (child & _ & He).
  unfold child_events in He.
  destruct (String.eqb_spec (lower (ET.tag child)) "failure") as [Hf|_];
    [|destruct (String.eqb_spec (lower (ET.tag child)) "error") as [Hf|_]];
    cbn [orb] in He; [| |destruct He];
    (destruct He as [<- | []]; repeat split; cbn [fst snd f_type f_details];
     [apply str_or_nonempty, str_or_nonempty; discriminate
     | auto | apply details_of_stripped | apply details_of_stripped]).
Qed.

Lemma file_events_well_formed files :
  Forall well_formed_event (flat_map file_events files).
Proof.
  apply Forall_forall. intros e He.
  apply list_elem_of_In, in_flat_map in He as ([path r] & _ & He).
  unfold file_events in He. cbn [snd] in He. destruct r as [root|]; [|destruct He].
  pose proof (root_events_well_formed root) as Hall.
  rewrite Forall_forall in Hall. now apply Hall, list_elem_of_In.
Qed.

Lemma events_for_elem k events r :
  r ∈ events_for k events -> (k, r) ∈ events.
Proof.
  unfold events_for. intros H.
  apply list_elem_of_In, in_map_iff in H as ([k' r'] & <- & H).
  apply filter_In in H as [Hin Hk]. cbn in Hk.
  apply String.eqb_eq in Hk as <-. now apply list_elem_of_In.
Qed.

(** The two answers the call can give once a report file is listed. *)
Lemma listed_files_answer w file files :
  report_files w = Some (file :: files) ->
  let events := flat_map file_events (file :: files) in
  let skipped := flat_map file_skipped (file :: files) in
  (events = [] /\ get_test_failures w = AllPassed skipped) \/
  (events <> [] /\
   exists failures, failures <> ∅ /\ get_test_failures w = Failed failures skipped).
Proof.
  intros Hf. cbv zeta.
  rewrite (get_test_failures_events w file files Hf). cbv zeta.
  destruct (flat_map file_events (file :: files)) as [|e es] eqn:Hev.
  - left. now split.
  - right. split; [discriminate|]. eexists. split; [|reflexivity].
    intros He. now apply fold_events_empty in He.
Qed.

Lemma failed_lookup w files failures skipped :
  report_files w = Some files ->
  get_test_failures w = Failed failures skipped ->
  forall k,
    failures !! k
    = match events_for k (flat_map file_events files) with
      | [] => None
      | entries => Some entries
      end.
Proof.
  intros Hf Hr k.
  destruct files as [|file files].
  - unfold get_test_failures in Hr. rewrite Hf in Hr. discriminate Hr.
  - rewrite (get_test_failures_events w file files Hf) in Hr. cbv zeta in Hr.
    destruct (flat_map file_events (file :: files)) as [|e es] eqn:Hev;
      [discriminate Hr|].
    injection Hr as <- <-.
    change (fold_left add_event es (add_event ∅ e))
      with (fold_left add_event (e :: es) ∅).
    rewrite lookup_fold_events, lookup_empty.
    now destruct (events_for k (e :: es)).
Qed.

End TestFailureFacts.

(** A suite with a failing test, an erroring test without class name, a
    nested test case with an empty class name, and a passing test. *)
Definition failing_suite : Element :=
  mkElement "testsuite" {[ "name" := "demo.ParserTest" ]} None
    [ mkElement "testcase" {[ "name" := "parsesZero"; "classname" := "demo.A" ]} None
        [ mkElement "failure" {[ "message" := "expected 0" ]}
            (Some "
  at demo.A.parsesZero(A.java:12)
") [] ];
      mkElement "testcase" {[ "name" := "parsesNull" ]} None
        [ mkElement "Error" ∅ None [];
          mkElement "system-out" ∅ (Some "log") [] ];
      mkElement "group" ∅ None
        [ mkElement "testcase" {[ "name" := "nested"; "classname" := "" ]} None
            [ mkElement "error" {[ "message" := "" ]} (Some "") [] ] ];
      mkElement "testcase" {[ "name" := "passes"; "classname" := "demo.A" ]} None [] ].

Definition failing_world : TestFailures.world :=
  {| TestFailures.project_path := "demo";
     TestFailures.path_is_file := false;
     TestFailures.path_root := Raise (Exn OSError "Is a directory");
     TestFailures.report_dir_exists := true;
     TestFailures.glob_test_xml :=
       [ ("target/surefire-reports/TEST-demo.ParserTest.xml", Return failing_suite);
         ("target/surefire-reports/TEST-broken.xml",
          Raise (Exn XmlParseError "no element found")) ];
     TestFailures.glob_any_xml := [] |}.

(** X20. Once a report file is listed the answer is never an error, however
    many files fail to parse: it is the "all passed" status exactly when no
    test case of a parsed file has a [failure] or [error] child, a non-empty
    failures mapping otherwise, and [skipped_files] lists the files that
    could not be read, in listing order. *)
Theorem test_failures_never_abort :
  forall (w : TestFailures.world) (file : TestFailures.report_file)
         (files : list TestFailures.report_file),
    TestFailures.report_files w = Some (file :: files) ->
    let events := flat_map file_events (file :: files) in
    let skipped := flat_map file_skipped (file :: files) in
    (events = [] /\ TestFailures.get_test_failures w = TestFailures.AllPassed skipped) \/
    (events <> [] /\
     exists failures, failures <> ∅ /\
       TestFailures.get_test_failures w = TestFailures.Failed failures skipped).
Proof. intros w file files Hf. exact (listed_files_answer w file files Hf). Qed.

Lemma test_failures_never_abort_witness :
  exists failures,
    TestFailures.get_test_failures failing_world
    = TestFailures.Failed failures ["target/surefire-reports/TEST-broken.xml"].
Proof.
  destruct (test_failures_never_abort failing_world _ _ eq_refl)
    as [[He _] | (_ & failures & _ & Hr)].
  - vm_compute in He. discriminate He.
  - exists failures. exact Hr.
Defined.

(** X21. In a failures mapping every class holds exactly the entries of its
    own failing test cases, in the order of the files and of the document;
    a class has a key only if it has an entry. *)
Theorem test_failures_grouped_in_order :
  forall (w : TestFailures.world) (files : list TestFailures.report_file)
         (failures : gmap string (list TestFailures.Failure))
         (skipped : list string),
    TestFailures.report_files w = Some files ->
    TestFailures.get_test_failures w = TestFailures.Failed failures skipped ->
    forall k,
      failures !! k
      = match events_for k (flat_map file_events files) with
        | [] => None
        | entries => Some entries
        end.
Proof.
  intros w files failures skipped Hf Hr.
  exact (failed_lookup w files failures skipped Hf Hr).
Qed.

Lemma test_failures_grouped_in_order_witness :
  exists failures skipped,
    TestFailures.get_test_failures failing_world
    = TestFailures.Failed failures skipped /\
    failures !! "demo.B" = None /\
    failures !! "demo.ParserTest"
    = Some [ {| TestFailures.f_test := Some "parsesNull";
                TestFailures.f_type := "error";
                TestFailures.f_message := "";
                TestFailures.f_details := "" |};
             {| TestFailures.f_test := Some "nested";
                TestFailures.f_type := "error";
                TestFailures.f_message := "";
                TestFailures.f_details := "" |} ].
Proof.
  assert (Hex : exists failures,
            TestFailures.get_test_failures failing_world
            = TestFailures.Failed failures
                ["target/surefire-reports/TEST-broken.xml"]).
  { vm_compute. eexists. reflexivity. }
  destruct Hex as [failures Hr].
  exists failures, ["target/surefire-reports/TEST-broken.xml"].
  split; [exact Hr|].
  pose proof (test_failures_grouped_in_order failing_world _ _ _ eq_refl Hr) as Hk.
  split; [rewrite Hk | rewrite Hk]; vm_compute; reflexivity.
Defined.

(** X22. In a failures mapping no entry is filed under an empty class name
    (an empty or missing [classname] falls back to the suite name, then to
    "Unknown"), no class has an empty list, every entry has the type
    "failure" or "error", and its details neither start nor end with white
    space. *)
Theorem test_failures_entries_well_formed :
  forall (w : TestFailures.world)
         (failures : gmap string (list TestFailures.Failure))
         (skipped : list string),
    TestFailures.get_test_failures w = TestFailures.Failed failures skipped ->
    forall k entries, failures !! k = Some entries ->
      k <> EmptyString /\ entries <> [] /\
      forall r, r ∈ entries ->
        (TestFailures.f_type r = "failure" \/ TestFailures.f_type r = "error") /\
        starts_space (TestFailures.f_details r) = false /\
        ends_space (TestFailures.f_details r) = false.
Proof.
  intros w failures skipped Hr k entries Hk.
  destruct (TestFailures.report_files w) as [files|] eqn:Hf.
  2:{ unfold TestFailures.get_test_failures in Hr. rewrite Hf in Hr. discriminate Hr. }
  rewrite (failed_lookup w files failures skipped Hf Hr k) in Hk.
  destruct (events_for k (flat_map file_events files)) as [|r0 rs] eqn:He;
    [discriminate Hk|].
  injection Hk as <-.
  assert (Hall : forall r, r ∈ r0 :: rs -> well_formed_event (k, r)).
  { intros r Hin. rewrite <- He in Hin. apply events_for_elem in Hin.
    pose proof (file_events_well_formed files) as Hwf.
    rewrite Forall_forall in Hwf. now apply Hwf. }
  split; [|split; [discriminate|]].
  - destruct (Hall r0 ltac:(now left)) as [Hne _]. exact Hne.
  - intros r Hin. destruct (Hall r Hin) as (_ & Ht & Hs & He'). auto.
Qed.

Lemma test_failures_entries_well_formed_witness :
  exists failures skipped,
    TestFailures.get_test_failures failing_world
    = TestFailures.Failed failures skipped /\
    forall k entries, failures !! k = Some entries ->
      k <> EmptyString /\ entries <> [].
Proof.
  assert (Hex : exists failures skipped,
            TestFailures.get_test_failures failing_world
            = TestFailures.Failed failures skipped).
  { vm_compute. eexists _, _. reflexivity. }
  destruct Hex as (failures & skipped & Hr). exists failures, skipped.
  split; [exact Hr|]. intros k entries Hk.
  destruct (test_failures_entries_well_formed failing_world failures skipped
              Hr k entries Hk) as (H1 & H2 & _).
  now split.
Defined.

(** X23. The answer is an error dictionary exactly when no report file is
    found, and the two reasons are told apart: a missing Surefire directory
    gives the "directory not found" text, an existing directory without any
    XML file the "no test reports" text.  A path to an existing [.xml] file,
    in any letter case, is read on its own. *)
Theorem test_failures_error_cases :
  forall w : TestFailures.world,
    let direct :=
      (TestFailures.path_is_file w
       && TestFailures.endswith ".xml" (lower (TestFailures.project_path w)))%bool in
    (direct = false -> TestFailures.report_dir_exists w = false ->
     TestFailures.get_test_failures w
     = TestFailures.Error
         "Surefire reports directory not found. Run 'mvn clean test' first.") /\
    (direct = false -> TestFailures.report_dir_exists w = true ->
     TestFailures.glob_test_xml w = [] -> TestFailures.glob_any_xml w = [] ->
     TestFailures.get_test_failures w
     = TestFailures.Error "No test reports found in surefire-reports.") /\
    ((direct = true \/
      (TestFailures.report_dir_exists w = true /\
       (TestFailures.glob_test_xml w <> [] \/ TestFailures.glob_any_xml w <> []))) ->
     forall msg, TestFailures.get_test_failures w <> TestFailures.Error msg).
Proof.
  intros w direct. subst direct. repeat split.
  - intros Hd He. unfold TestFailures.get_test_failures, TestFailures.report_files.
    now rewrite Hd, He.
  - intros Hd He Ht Ha.
    unfold TestFailures.get_test_failures, TestFailures.report_files.
    now rewrite Hd, He, Ht, Ha.
  - intros Hcase msg.
    assert (Hf : exists file files,
               TestFailures.report_files w = Some (file :: files)).
    { unfold TestFailures.report_files.
      destruct Hcase as [-> | (He & Hfiles)]; [now eexists _, _|].
      destruct (_ && _)%bool; [now eexists _, _|]. rewrite He. cbn [negb].
      destruct (TestFailures.glob_test_xml w) as [|f fs]; [|now eexists _, _].
      destruct Hfiles as [[] | Ha]; [reflexivity|].
      destruct (TestFailures.glob_any_xml w) as [|f fs]; [now elim Ha|].
      now eexists _, _. }
    destruct Hf as (file & files & Hf).
    destruct (listed_files_answer w file files Hf)
      as [[_ ->] | (_ & m & _ & ->)]; discriminate.
Qed.

(** A project without the Surefire directory. *)
Definition unbuilt_world : TestFailures.world :=
  {| TestFailures.project_path := "demo";
     TestFailures.path_is_file := false;
     TestFailures.path_root := Raise (Exn OSError "Is a directory");
     TestFailures.report_dir_exists := false;
     TestFailures.glob_test_xml := [];
     TestFailures.glob_any_xml := [] |}.

Lemma test_failures_error_cases_witness :
  TestFailures.get_test_failures unbuilt_world
  = TestFailures.Error
      "Surefire reports directory not found. Run 'mvn clean test' first." /\
  forall msg, TestFailures.get_test_failures failing_world <> TestFailures.Error msg.
Proof.
  split.
  - apply (proj1 (test_failures_error_cases unbuilt_world)); reflexivity.
  - apply (proj2 (proj2 (test_failures_error_cases failing_world))).
    right. split; [reflexivity|]. left. discriminate.
Defined.

(** ** The Maven verdict *)

Section MavenFacts.

Import Maven.

Lemma prefix_before_separator (sep : ascii) (n x b : string) :
  has_char sep n = false ->
  String.prefix n (x ++ String sep b) = String.prefix n x.
Proof.
  revert n. induction x as [|d x IH]; intros n Hn.
  - change (EmptyString ++ String sep b) with (String sep b).
    destruct n as [|c n]; [reflexivity|]. cbn [String.prefix].
    cbn [has_char] in Hn. apply orb_false_elim in Hn as [Hc _].
    destruct (ascii_dec c sep) as [->|_]; [|reflexivity].
    now rewrite Ascii.eqb_refl in Hc.
  - change (String d x ++ String sep b) with (String d (x ++ String sep b)).
    destruct n as [|c n]; [reflexivity|]. cbn [String.prefix].
    cbn [has_char] in Hn. apply orb_false_elim in Hn as [_ Hn].
    destruct (ascii_dec c d); [now apply IH | reflexivity].
Qed.

(** A text without the separator occurs in two texts joined by it only if
    it occurs in one of them. *)
Lemma contains_joined (sep : ascii) (n a b : string) :
  has_char sep n = false ->
  contains n (a ++ String sep b) = (contains n a || contains n b)%bool.
Proof.
  intros Hn. induction a as [|d a IH].
  - pose proof (prefix_before_separator sep n EmptyString b Hn) as Hp.
    change (EmptyString ++ String sep b) with (String sep b) in *.
    cbn [contains]. now rewrite Hp.
  - pose proof (prefix_before_separator sep n (String d a) b Hn) as Hp.
    change (String d a ++ String sep b) with (String d (a ++ String sep b)) in *.
    cbn [contains]. rewrite Hp, IH. apply orb_assoc.
Qed.

End MavenFacts.

(** X24. When Maven ran, the verdict depends only on whether one of the two
    output streams holds a marker line: "BUILD SUCCESS" if either holds the
    success marker, even when a failure marker is there as well; otherwise
    the compile-failure text if either holds the failure marker; otherwise
    the "did not complete" text. *)
Theorem maven_verdict :
  forall (w : Maven.world) (stdout stderr : string),
    Maven.src_is_dir w = true ->
    Maven.mvn_verify w = Return (stdout, stderr) ->
    let seen marker := (contains marker stdout || contains marker stderr)%bool in
    Maven.run_maven_test w
    = if seen "[INFO] BUILD SUCCESS" then "BUILD SUCCESS"
      else if seen "[INFO] BUILD FAILURE" then
             "BUILD FAILURE: Build failed to compile."
           else "BUILD FAILURE: Build did not complete. Check logs.".
Proof.
  intros w stdout stderr Hs Hm seen. subst seen.
  unfold Maven.run_maven_test. rewrite Hs, Hm. cbn [negb].
  unfold Maven.newline.
  change (String (ascii_of_nat 10) EmptyString ++ stderr)
    with (String (ascii_of_nat 10) stderr).
  rewrite !contains_joined by reflexivity. reflexivity.
Qed.

Lemma maven_verdict_witness :
  Maven.run_maven_test
    {| Maven.src_is_dir := true;
       Maven.mvn_verify :=
         Return ("[INFO] BUILD FAILURE", "retry: [INFO] BUILD SUCCESS") |}
  = "BUILD SUCCESS".
Proof.
  apply (maven_verdict
           {| Maven.src_is_dir := true;
              Maven.mvn_verify :=
                Return ("[INFO] BUILD FAILURE", "retry: [INFO] BUILD SUCCESS") |}
           "[INFO] BUILD FAILURE" "retry: [INFO] BUILD SUCCESS");
    reflexivity.
Defined.
